(** * A shallow embedding of the Draw.io viewer widget (src/src/widget.ts)

    The widget turns the text of a .drawio file into an SVG tree.  The
    development below follows widget.ts function by function:

    - JavaScript strings are sequences of UTF-16 code units ([list N]);
    - JavaScript numbers are IEEE 754 doubles ([spec_float] at 53 bits),
      with the rounding, the infinities, the signed zeros and [NaN];
    - the object returned by [_parseStyle] and the [Map] of vertex boxes are
      finite maps ([gmap]);
    - the DOM is a tree of elements and text nodes with the query functions
      the widget calls;
    - the services of the browser that the widget only calls (the XML parser,
      the HTML parser behind [innerHTML], the raw-deflate decompression stream)
      are the fields of a [Platform] record. *)

From Stdlib Require Import ZArith NArith Lia Ascii String List Bool.
From Corelib Require Import SpecFloat.
From stdpp Require Import base option list gmap.

Set Default Proof Using "Type".
Set Warnings "-register-all".
Open Scope N_scope.

(** ** JavaScript strings *)

Abbreviation jsstring := (list N).

(** [lit "abc"] is the JavaScript string literal ['abc'] (ASCII only). *)
Definition lit (s : string) : jsstring :=
  map N_of_ascii (list_ascii_of_string s).

Definition unit_eqb (a b : N) : bool := N.eqb a b.

Fixpoint str_eqb (s t : jsstring) : bool :=
  match s, t with
  | [], [] => true
  | a :: s', b :: t' => unit_eqb a b && str_eqb s' t'
  | _, _ => false
  end.

(** [s.startsWith(p)] *)
Fixpoint starts_with (p s : jsstring) : bool :=
  match p, s with
  | [], _ => true
  | a :: p', b :: s' => unit_eqb a b && starts_with p' s'
  | _ :: _, [] => false
  end.

(** [s.includes(p)] *)
Fixpoint includes (p s : jsstring) : bool :=
  starts_with p s ||
  match s with
  | [] => false
  | _ :: s' => includes p s'
  end.

(** WhiteSpace and LineTerminator code units of ECMAScript: what
    [String.prototype.trim] removes and what [\s] matches. *)
Definition is_js_space (c : N) : bool :=
  match c with
  | 9 | 10 | 11 | 12 | 13 | 32 | 160 => true
  | 5760 => true                       (* U+1680 *)
  | 8232 | 8233 | 8239 | 8287 => true  (* U+2028 U+2029 U+202F U+205F *)
  | 12288 | 65279 => true              (* U+3000 U+FEFF *)
  | _ => (8192 <=? c) && (c <=? 8202)  (* U+2000 .. U+200A *)
  end.

Fixpoint trim_start (s : jsstring) : jsstring :=
  match s with
  | c :: s' => if is_js_space c then trim_start s' else s
  | [] => []
  end.

Definition trim_end (s : jsstring) : jsstring :=
  rev (trim_start (rev s)).

(** [s.trim()] *)
Definition trim (s : jsstring) : jsstring := trim_end (trim_start s).

(** [s.split(sep)] for a separator of one code unit: the result is never
    empty, [''.split(';')] is [['']]. *)
Fixpoint split_on (sep : N) (s : jsstring) : list jsstring :=
  match s with
  | [] => [[]]
  | c :: s' =>
      if unit_eqb c sep then [] :: split_on sep s'
      else match split_on sep s' with
           | seg :: segs => (c :: seg) :: segs
           | [] => [[c]]
           end
  end.

(** [s.replace(/c/g, d)] for single code units. *)
Definition replace_all (c d : N) (s : jsstring) : jsstring :=
  map (fun x => if unit_eqb x c then d else x) s.

(** A JavaScript string is truthy when it is not empty. *)
Definition truthy_str (s : jsstring) : bool :=
  match s with [] => false | _ => true end.

(** [a || b] on an optional string: [null], [undefined] and [''] give [b]. *)
Definition or_str (a : option jsstring) (b : jsstring) : jsstring :=
  match a with
  | Some s => if truthy_str s then s else b
  | None => b
  end.

(** ** The style micro-parser: [_parseStyle] *)

(** A plain object used as a string-keyed record.  Assigning a string to the
    key [__proto__] of an object literal reaches the accessor of
    [Object.prototype], which ignores values that are not objects: no
    property is created. *)
Definition obj_set (k v : jsstring) (o : gmap jsstring jsstring)
  : gmap jsstring jsstring :=
  if str_eqb k (lit "__proto__") then o else <[k := v]> o.

(** The body of the [forEach] callback: [const [key, value] = part.split('=')]
    takes the first two pieces of the split. *)
Definition parse_part (result : gmap jsstring jsstring) (part : jsstring)
  : gmap jsstring jsstring :=
  let pieces := split_on 61 part in
  let key := default [] (pieces !! 0%nat) in
  let value := pieces !! 1%nat in
  match value with
  | Some v => if truthy_str key then obj_set (trim key) (trim v) result
              else result
  | None => result
  end.

Definition _parseStyle (style : jsstring) : gmap jsstring jsstring :=
  if truthy_str style
  then fold_left parse_part (split_on 59 style) ∅
  else ∅.


(** ** JavaScript numbers

    A number is an IEEE 754 double: a [spec_float] of the Floats library
    with 53 bits of precision and exponents below 1024.  Every operation
    rounds to nearest, ties to even, overflows to an infinity and
    underflows through the subnormal numbers to a zero, as the arithmetic
    of JavaScript does; zeros are signed and there is one [NaN]. *)

Definition prec : Z := 53.
Definition emax : Z := 1024.

Abbreviation number := spec_float.
Abbreviation PInf := (S754_infinity false).
Abbreviation NInf := (S754_infinity true).
Abbreviation NaN := S754_nan.

(** The double of an integer literal. *)
Definition num (z : Z) : number := binary_normalize prec emax z 0 false.

Definition nadd (a b : number) : number := SFadd prec emax a b.
Definition nsub (a b : number) : number := SFsub prec emax a b.
Definition nmul (a b : number) : number := SFmul prec emax a b.
Definition ndiv (a b : number) : number := SFdiv prec emax a b.

(** [Math.abs] and [Math.sqrt] *)
Definition nabs (a : number) : number := SFabs a.
Definition nsqrt (a : number) : number := SFsqrt prec emax a.

(** [a < b] and [a > b]; every comparison with [NaN] is false, and the two
    zeros are equal. *)
Definition nlt (a b : number) : bool := SFltb a b.
Definition ngt (a b : number) : bool := SFltb b a.

(** [Math.min(a, b)] and [Math.max(a, b)]: [NaN] when an argument is
    [NaN]; [-0] counts as less than [+0]. *)
Definition nmin (a b : number) : number :=
  match a, b with
  | NaN, _ | _, NaN => NaN
  | S754_zero false, S754_zero true => b
  | _, _ => if nlt b a then b else a
  end.

Definition nmax (a b : number) : number :=
  match a, b with
  | NaN, _ | _, NaN => NaN
  | S754_zero true, S754_zero false => b
  | _, _ => if ngt b a then b else a
  end.

(** A number is falsy when it is a zero or [NaN]. *)
Definition truthy_num (a : number) : bool :=
  match a with
  | S754_zero _ | NaN => false
  | _ => true
  end.

(** [a || b] on numbers. *)
Definition or_num (a b : number) : number :=
  if truthy_num a then a else b.

(** [a !== Infinity] *)
Definition is_not_pinf (a : number) : bool :=
  match a with PInf => false | _ => true end.

(** [Math.sqrt(v) > 0] *)
Definition sqrt_gt0 (v : number) : bool := ngt (nsqrt v) (num 0).

Declare Scope num_scope.
Delimit Scope num_scope with num.
Bind Scope num_scope with spec_float.
Infix "+" := nadd : num_scope.
Infix "-" := nsub : num_scope.
Infix "*" := nmul : num_scope.
Infix "/" := ndiv : num_scope.

(** The literals [0.5] and [1.2] of the source: the doubles nearest to
    them, [2^52 * 2^-53] and [5404319552844595 * 2^-52]. *)
Definition half : number := S754_finite false 4503599627370496 (-53).
Definition one_point_two : number := S754_finite false 5404319552844595 (-52).

(** ** [parseFloat] *)

Definition is_digit (c : N) : bool := (48 <=? c) && (c <=? 57).

Fixpoint take_digits (s : jsstring) : list N * jsstring :=
  match s with
  | c :: s' =>
      if is_digit c
      then let '(ds, rest) := take_digits s' in (c - 48 :: ds, rest)
      else ([], s)
  | [] => ([], [])
  end.

Definition digits_value (ds : list N) : Z :=
  fold_left (fun acc d => (10 * acc + Z.of_N d)%Z) ds 0%Z.

(** An optional sign: [true] for a minus. *)
Definition take_sign (s : jsstring) : bool * jsstring :=
  match s with
  | 45 :: s' => (true, s')
  | 43 :: s' => (false, s')
  | _ => (false, s)
  end.

(** The exponent part [e[+-]digits], read only when it is complete. *)
Definition take_exponent (s : jsstring) : Z :=
  match s with
  | c :: s' =>
      if unit_eqb c 101 || unit_eqb c 69
      then let '(neg, s'') := take_sign s' in
           let '(ds, _) := take_digits s'' in
           match ds with
           | [] => 0%Z
           | _ => if neg then (- digits_value ds)%Z else digits_value ds
           end
      else 0%Z
  | [] => 0%Z
  end.

(** The double nearest to [digits * 10^exponent], with the sign [neg]: the
    integer is rounded when the exponent is not negative; otherwise the
    quotient of the two integers is, from its first bits and the position
    of the rest, as in a division of doubles. *)
Definition decimal_value (neg : bool) (digits exponent : Z) : number :=
  match digits with
  | Zpos d =>
      match exponent with
      | Z0 => binary_round prec emax neg d 0
      | Zpos e => binary_round prec emax neg (d * 10 ^ e)%positive 0
      | Zneg e =>
          let '(q, e', l) :=
            SFdiv_core_binary prec emax (Zpos d) 0 (Zpos (10 ^ e)%positive) 0 in
          binary_round_aux prec emax neg q e' l
      end
  | _ => S754_zero neg
  end.

(** [parseFloat(s)]: leading white space is skipped, the longest prefix that
    is a decimal literal is read and rounded to a double, and a string
    without one gives [NaN]. *)
Definition parseFloat (s : jsstring) : number :=
  let '(neg, s1) := take_sign (trim_start s) in
  if starts_with (lit "Infinity") s1 then S754_infinity neg
  else
    let '(ip, s2) := take_digits s1 in
    let '(fp, s3) :=
      match s2 with
      | 46 :: s2' => take_digits s2'
      | _ => ([], s2)
      end in
    match ip ++ fp with
    | [] => NaN
    | ds =>
        decimal_value neg (digits_value ds)
          (take_exponent s3 - Z.of_nat (length fp))
    end.

(** ** The DOM the widget reads

    Elements carry a tag name, attributes in document order and children;
    a document is the node whose children are the top-level nodes. *)

Inductive node :=
| Elem (tag : jsstring) (attrs : list (jsstring * jsstring)) (children : list node)
| Text (data : jsstring).

Definition is_element (n : node) : bool :=
  match n with Elem _ _ _ => true | Text _ => false end.

(** [e.getAttribute(name)]: [None] is [null]. *)
Fixpoint assoc (name : jsstring) (attrs : list (jsstring * jsstring))
  : option jsstring :=
  match attrs with
  | [] => None
  | (k, v) :: rest => if str_eqb k name then Some v else assoc name rest
  end.

Definition getAttribute (name : jsstring) (n : node) : option jsstring :=
  match n with
  | Elem _ attrs _ => assoc name attrs
  | Text _ => None
  end.

(** The element descendants of a node, in document order. *)
Fixpoint descendants (n : node) : list node :=
  match n with
  | Elem _ _ children =>
      (fix go (cs : list node) : list node :=
         match cs with
         | [] => []
         | c :: cs' =>
             (if is_element c then [c] else []) ++ descendants c ++ go cs'
         end) children
  | Text _ => []
  end.

(** [n.textContent]: the text of all descendants, in document order. *)
Fixpoint textContent (n : node) : jsstring :=
  match n with
  | Elem _ _ children =>
      (fix go (cs : list node) : jsstring :=
         match cs with
         | [] => []
         | c :: cs' => textContent c ++ go cs'
         end) children
  | Text data => data
  end.

(** The selectors the widget uses: a tag name, [tag[a="v"]] and
    [tag:not([a])]. *)
Inductive selector :=
| ByTag (tag : jsstring)
| ByTagAttr (tag a v : jsstring)
| ByTagNoAttr (tag a : jsstring).

Definition selects (sel : selector) (n : node) : bool :=
  match n with
  | Text _ => false
  | Elem t attrs _ =>
      match sel with
      | ByTag tag => str_eqb t tag
      | ByTagAttr tag a v =>
          str_eqb t tag &&
          match assoc a attrs with
          | Some w => str_eqb w v
          | None => false
          end
      | ByTagNoAttr tag a =>
          str_eqb t tag &&
          match assoc a attrs with
          | Some _ => false
          | None => true
          end
      end
  end.

Definition querySelectorAll (sel : selector) (n : node) : list node :=
  filter (fun d => selects sel d = true) (descendants n).

(** [n.querySelector(sel)]: the first match, [None] for [null]. *)
Definition querySelector (sel : selector) (n : node) : option node :=
  head (querySelectorAll sel n).

(** [geometry?.querySelector(sel)] *)
Definition opt_querySelector (sel : selector) (n : option node) : option node :=
  n ≫= querySelector sel.

(** [e.getAttribute(name) === '1'] *)
Definition attr_is_1 (name : jsstring) (n : node) : bool :=
  match getAttribute name n with
  | Some v => str_eqb v (lit "1")
  | None => false
  end.

(** [parseFloat(e.getAttribute(name) || dflt)] *)
Definition float_attr (name : string) (dflt : string) (n : node) : number :=
  parseFloat (or_str (getAttribute (lit name) n) (lit dflt)).

(** ** The SVG tree the widget builds *)

Record path_data := {
  path_start : number * number;
  path_way : list (jsstring * jsstring);
  path_end : number * number
}.

(** An attribute value before it is turned into text: [String(n)] of a
    number, a string, the point list of a polygon, the [d] of a path
    [M x1 y1 L px py ... L x2 y2], or the four numbers of a [viewBox]. *)
Inductive attr :=
| ANum (v : number)
| AStr (s : jsstring)
| APoints (ps : list (number * number))
| APath (d : path_data)
| AViewBox (minx miny w h : number).

Inductive svg :=
| SElem (tag : string) (attrs : list (string * attr)) (children : list svg)
| SText (data : jsstring)
| SMarkup (html : string).

(** [e.textContent = s]: an empty string leaves no text node. *)
Definition text_children (s : jsstring) : list svg :=
  if truthy_str s then [SText s] else [].

Definition svg_tag (e : svg) : string :=
  match e with SElem t _ _ => t | _ => EmptyString end.

Definition svg_attrs (e : svg) : list (string * attr) :=
  match e with SElem _ a _ => a | _ => [] end.

Definition svg_children (e : svg) : list svg :=
  match e with SElem _ _ c => c | _ => [] end.

Fixpoint svg_attr (name : string) (attrs : list (string * attr)) : option attr :=
  match attrs with
  | [] => None
  | (k, v) :: rest => if String.eqb k name then Some v else svg_attr name rest
  end.

(** ** The services of the browser

    [parseFromString] is [new DOMParser().parseFromString(s, 'text/xml')];
    [innerHTML_text s] is the [textContent] of a detached [div] whose
    [innerHTML] was set to [s]; [inflate_raw] is what the readable side of a
    [DecompressionStream('deflate-raw')] delivers once the bytes were written
    and the writer closed. *)

Inductive stream :=
| Chunk (value : list N) (rest : stream)
| Done
| Errored.

Class Platform := {
  parseFromString : jsstring -> node;
  innerHTML_text : jsstring -> jsstring;
  inflate_raw : list N -> stream
}.

(** ** Labels: [_stripHtml] and the split into lines *)

(** [tmp.textContent || tmp.innerText || ''] of the detached [div]: the two
    properties agree on an element that is not rendered. *)
Definition _stripHtml `{Platform} (html : jsstring) : jsstring :=
  or_str (Some (innerHTML_text html)) (or_str (Some (innerHTML_text html)) []).

Fixpoint count_spaces (s : jsstring) : nat :=
  match s with
  | c :: s' => if is_js_space c then S (count_spaces s') else O
  | [] => O
  end.

(** The length of the match of [/\n|<br\s*\/?>/i] at the start of [s]. *)
Definition match_break (s : jsstring) : option nat :=
  match s with
  | 10 :: _ => Some 1%nat
  | 60 :: b :: r :: s' =>
      if (unit_eqb b 98 || unit_eqb b 66) && (unit_eqb r 114 || unit_eqb r 82)
      then
        let k := count_spaces s' in
        match drop k s' with
        | 62 :: _ => Some (4 + k)%nat
        | 47 :: 62 :: _ => Some (5 + k)%nat
        | _ => None
        end
      else None
  | _ => None
  end.

(** [s.split(/\n|<br\s*\/?>/i)]; [skip] counts the code units of a match
    that are still to be passed over. *)
Fixpoint split_breaks (skip : nat) (s : jsstring) : list jsstring :=
  match s with
  | [] => [[]]
  | c :: s' =>
      match skip with
      | S k => split_breaks k s'
      | O =>
          match match_break s with
          | Some len => [] :: split_breaks (pred len) s'
          | None =>
              match split_breaks O s' with
              | seg :: segs => (c :: seg) :: segs
              | [] => [[c]]
              end
          end
      end
  end.

(** ** Shapes: [_createShape] *)

Inductive ShapeKind := Ellipse | Rhombus | Hexagon | Triangle | Cylinder | Rect.

(** The chain of tests of [_createShape], first match first. *)
Definition shape_kind (shape style : jsstring) : ShapeKind :=
  if str_eqb shape (lit "ellipse") || includes (lit "ellipse") style then Ellipse
  else if str_eqb shape (lit "rhombus") || includes (lit "rhombus") style then Rhombus
  else if str_eqb shape (lit "hexagon") || includes (lit "hexagon") style then Hexagon
  else if str_eqb shape (lit "triangle") || includes (lit "triangle") style then Triangle
  else if str_eqb shape (lit "cylinder") || includes (lit "cylinder") style then Cylinder
  else Rect.

(** [styles.key === '1'] *)
Definition style_is_1 (styles : gmap jsstring jsstring) (key : string) : bool :=
  match styles !! lit key with
  | Some v => str_eqb v (lit "1")
  | None => false
  end.

(** [styles.key || dflt] *)
Definition style_or (styles : gmap jsstring jsstring) (key dflt : string)
  : jsstring :=
  or_str (styles !! lit key) (lit dflt).

Definition two : number := num 2.

(** The element of each branch, before fill and stroke are set. *)
Definition shape_element (k : ShapeKind) (x y width height : number)
    (styles : gmap jsstring jsstring) : string * list (string * attr) :=
  match k with
  | Ellipse =>
      ("ellipse"%string,
       [("cx"%string, ANum (x + width / two)); ("cy"%string, ANum (y + height / two));
        ("rx"%string, ANum (width / two)); ("ry"%string, ANum (height / two))])
  | Rhombus =>
      ("polygon"%string,
       [("points"%string,
         APoints [(x + width / two, y); (x + width, y + height / two);
                  (x + width / two, y + height); (x, y + height / two)])])
  | Hexagon =>
      let hw := (width / num 4)%num in
      ("polygon"%string,
       [("points"%string,
         APoints [(x + hw, y); (x + width - hw, y); (x + width, y + height / two);
                  (x + width - hw, y + height); (x + hw, y + height);
                  (x, y + height / two)])])
  | Triangle =>
      ("polygon"%string,
       [("points"%string,
         APoints [(x + width / two, y); (x + width, y + height); (x, y + height)])])
  | Cylinder =>
      ("rect"%string,
       [("x"%string, ANum x); ("y"%string, ANum y);
        ("width"%string, ANum width); ("height"%string, ANum height);
        ("rx"%string, ANum (width / num 4)); ("ry"%string, ANum (height / num 8))])
  | Rect =>
      ("rect"%string,
       [("x"%string, ANum x); ("y"%string, ANum y);
        ("width"%string, ANum width); ("height"%string, ANum height)]
       ++ (if style_is_1 styles "rounded"
           then [("rx"%string, AStr (lit "5")); ("ry"%string, AStr (lit "5"))]
           else []))
  end%num.

(** The [tspan] of line [i] of a label of several lines. *)
Definition tspan (x width startY lineHeight : number) (i : nat) (line : jsstring)
  : svg :=
  SElem "tspan"
    [("x"%string, ANum (x + width / two));
     ("y"%string, ANum (startY + num (Z.of_nat i) * lineHeight))]%num
    (text_children (trim line)).

(** The label of a shape: the [text] element of [_createShape]. *)
Definition shape_label `{Platform} (x y width height : number)
    (fontSize fontColor value : jsstring) : svg :=
  let cleanText := _stripHtml value in
  let lines := split_breaks O cleanText in
  SElem "text"
    [("x"%string, ANum (x + width / two)); ("y"%string, ANum (y + height / two))%num;
     ("text-anchor"%string, AStr (lit "middle"));
     ("dominant-baseline"%string, AStr (lit "middle"));
     ("font-family"%string, AStr (lit "sans-serif"));
     ("font-size"%string, AStr fontSize);
     ("fill"%string, AStr fontColor)]%num
    (if Nat.eqb (length lines) 1 then text_children cleanText
     else
       let lineHeight := (parseFloat fontSize * one_point_two)%num in
       let startY :=
         (y + height / two
          - (num (Z.of_nat (length lines) - 1) * lineHeight) / two)%num in
       imap (tspan x width startY lineHeight) lines).

Definition _createShape `{Platform} (x y width height : number)
    (style value : jsstring) : svg :=
  let styles := _parseStyle style in
  let shape := style_or styles "shape" "" in
  let fillColor := style_or styles "fillColor" "#ffffff" in
  let strokeColor := style_or styles "strokeColor" "#000000" in
  let strokeWidth := style_or styles "strokeWidth" "1" in
  let fontColor := style_or styles "fontColor" "#000000" in
  let fontSize := style_or styles "fontSize" "12" in
  let '(tag, geom) :=
    shape_element (shape_kind shape style) x y width height styles in
  let fill :=
    if (match styles !! lit "fillColor" with
        | Some v => str_eqb v (lit "none")
        | None => false
        end) || includes (lit "fillColor=none") style
    then AStr (lit "none") else AStr fillColor in
  let shapeElement :=
    SElem tag
      (geom ++ [("fill"%string, fill); ("stroke"%string, AStr strokeColor);
                ("stroke-width"%string, AStr strokeWidth)]
            ++ (if style_is_1 styles "dashed"
                then [("stroke-dasharray"%string, AStr (lit "5,3"))] else []))
      [] in
  SElem "g" []
    (shapeElement ::
     (if truthy_str value
      then [shape_label x y width height fontSize fontColor value]
      else [])).

(** ** Edges: [_createEdge] *)

(** An entry of the [vertices] map. *)
Record box := {
  box_x : number;
  box_y : number;
  box_width : number;
  box_height : number
}.


(** The ratio by which an end is moved off the centre of its box:
    [Math.min(b.width / 2 / Math.abs(dx || 1),
              b.height / 2 / Math.abs(dy || 1)) || 0]. *)
Definition clip_ratio (b : box) (dx dy : number) : number :=
  or_num (nmin (box_width b / two / nabs (or_num dx (num 1)))
               (box_height b / two / nabs (or_num dy (num 1))))%num
         (num 0).

(** The [else if (source && target)] branch: the two centres, each moved
    towards the other when they differ. *)
Definition connect (source target : box) : (number * number) * (number * number) :=
  let x1 := (box_x source + box_width source / two)%num in
  let y1 := (box_y source + box_height source / two)%num in
  let x2 := (box_x target + box_width target / two)%num in
  let y2 := (box_y target + box_height target / two)%num in
  let dx := (x2 - x1)%num in
  let dy := (y2 - y1)%num in
  if sqrt_gt0 (dx * dx + dy * dy)%num then
    let sourceRatio := clip_ratio source dx dy in
    let targetRatio := clip_ratio target dx dy in
    ((x1 + dx * nmin sourceRatio half, y1 + dy * nmin sourceRatio half),
     (x2 - dx * nmin targetRatio half, y2 - dy * nmin targetRatio half))%num
  else ((x1, y1), (x2, y2)).

(** The two ends of the path, [None] when the edge is dropped. *)
Definition edge_ends (geometry : option node) (source target : option box)
  : option ((number * number) * (number * number)) :=
  let sourcePoint :=
    opt_querySelector (ByTagAttr (lit "mxPoint") (lit "as") (lit "sourcePoint"))
      geometry in
  let targetPoint :=
    opt_querySelector (ByTagAttr (lit "mxPoint") (lit "as") (lit "targetPoint"))
      geometry in
  match sourcePoint, targetPoint with
  | Some sp, Some tp =>
      Some ((float_attr "x" "0" sp, float_attr "y" "0" sp),
            (float_attr "x" "0" tp, float_attr "y" "0" tp))
  | _, _ =>
      match source, target with
      | Some s, Some t => Some (connect s t)
      | _, _ => None
      end
  end.

(** The way points: [mxPoint] elements without an [as] attribute, their
    coordinates copied as text. *)
Definition waypoints (geometry : option node) : list (jsstring * jsstring) :=
  match geometry with
  | Some g =>
      map (fun p => (or_str (getAttribute (lit "x") p) (lit "0"),
                     or_str (getAttribute (lit "y") p) (lit "0")))
          (querySelectorAll (ByTagNoAttr (lit "mxPoint") (lit "as")) g)
  | None => []
  end.

Definition _createEdge `{Platform} (cell : node) (style : jsstring)
    (source target : option box) : option svg :=
  let geometry := querySelector (ByTag (lit "mxGeometry")) cell in
  let styles := _parseStyle style in
  let strokeColor := style_or styles "strokeColor" "#000000" in
  let strokeWidth := style_or styles "strokeWidth" "1" in
  match edge_ends geometry source target with
  | None => None
  | Some ((x1, y1), (x2, y2)) =>
      let pathD := {| path_start := (x1, y1);
                      path_way := waypoints geometry;
                      path_end := (x2, y2) |} in
      let endArrow := style_or styles "endArrow" "classic" in
      let startArrow := style_or styles "startArrow" "none" in
      let path :=
        SElem "path"
          ([("d"%string, APath pathD); ("stroke"%string, AStr strokeColor);
            ("stroke-width"%string, AStr strokeWidth);
            ("fill"%string, AStr (lit "none"))]
           ++ (if style_is_1 styles "dashed"
               then [("stroke-dasharray"%string, AStr (lit "5,3"))] else [])
           ++ (if str_eqb endArrow (lit "none") then []
               else if str_eqb endArrow (lit "open")
                    then [("marker-end"%string, AStr (lit "url(#arrow-open)"))]
                    else [("marker-end"%string, AStr (lit "url(#arrow)"))])
           ++ (if str_eqb startArrow (lit "none") then []
               else [("marker-start"%string, AStr (lit "url(#arrow)"))]))
          [] in
      let value := or_str (getAttribute (lit "value") cell) [] in
      Some (SElem "g" []
              (path ::
               (if truthy_str value
                then
                  let midX := ((x1 + x2) / two)%num in
                  let midY := ((y1 + y2) / two)%num in
                  [SElem "text"
                     [("x"%string, ANum midX); ("y"%string, ANum (midY - num 5)%num);
                      ("text-anchor"%string, AStr (lit "middle"));
                      ("font-family"%string, AStr (lit "sans-serif"));
                      ("font-size"%string, AStr (lit "11"));
                      ("fill"%string, AStr (lit "#000000"))]
                     (text_children (_stripHtml value))]
                else [])))
  end.

(** ** The two passes of [_mxGraphToSvg] *)

(** The box of a cell that is a vertex and has a geometry. *)
Definition cell_box (cell : node) : option box :=
  match querySelector (ByTag (lit "mxGeometry")) cell with
  | Some geometry =>
      if attr_is_1 (lit "vertex") cell
      then Some {| box_x := float_attr "x" "0" geometry;
                   box_y := float_attr "y" "0" geometry;
                   box_width := float_attr "width" "100" geometry;
                   box_height := float_attr "height" "40" geometry |}
      else None
  | None => None
  end.

(** The first pass: the callback of [cells.forEach] that fills [vertices]. *)
Definition collect_vertex (vertices : gmap jsstring box) (cell : node)
  : gmap jsstring box :=
  let id := or_str (getAttribute (lit "id") cell) [] in
  match cell_box cell with
  | Some b => <[id := b]> vertices
  | None => vertices
  end.

Definition first_pass (cells : list node) : gmap jsstring box :=
  fold_left collect_vertex cells ∅.

(** What the second pass updates: the running bounds and the children
    appended to the group [g]. *)
Record pass2 := {
  minX : number;
  minY : number;
  maxX : number;
  maxY : number;
  drawn : list svg
}.

Definition pass2_init : pass2 :=
  {| minX := PInf; minY := PInf; maxX := NInf; maxY := NInf; drawn := [] |}.

(** The callback of the second [cells.forEach]. *)
Definition render_cell `{Platform} (vertices : gmap jsstring box) (st : pass2)
    (cell : node) : pass2 :=
  let style := or_str (getAttribute (lit "style") cell) [] in
  let value := or_str (getAttribute (lit "value") cell) [] in
  let st1 :=
    match cell_box cell with
    | Some b =>
        let '(x, y, width, height) :=
          (box_x b, box_y b, box_width b, box_height b) in
        {| minX := nmin (minX st) x;
           minY := nmin (minY st) y;
           maxX := nmax (maxX st) (x + width)%num;
           maxY := nmax (maxY st) (y + height)%num;
           drawn := drawn st ++ [_createShape x y width height style value] |}
    | None => st
    end in
  if attr_is_1 (lit "edge") cell then
    let source := or_str (getAttribute (lit "source") cell) [] in
    let target := or_str (getAttribute (lit "target") cell) [] in
    match _createEdge cell style (vertices !! source) (vertices !! target) with
    | Some edgePath =>
        {| minX := minX st1; minY := minY st1; maxX := maxX st1; maxY := maxY st1;
           drawn := drawn st1 ++ [edgePath] |}
    | None => st1
    end
  else st1.

Definition second_pass `{Platform} (vertices : gmap jsstring box)
    (cells : list node) : pass2 :=
  fold_left (render_cell vertices) cells pass2_init.

Definition padding : number := num 30.

(** The [viewBox] attribute. *)
Definition viewBox (st : pass2) : attr :=
  if is_not_pinf (minX st)
  then AViewBox (minX st - padding) (minY st - padding)
                (maxX st - minX st + two * padding)
                (maxY st - minY st + two * padding)%num
  else AViewBox (num 0) (num 0) (num 400) (num 300).

(** The [defs] element with the two arrow markers. *)
Definition arrow_defs : svg :=
  SElem "defs" [] [SMarkup "<marker id=arrow/><marker id=arrow-open/>"].

(** What [svg.innerHTML += '<text x="50" y="50">Empty diagram</text>']
    adds to the picture. *)
Definition empty_diagram : svg :=
  SElem "text" [("x"%string, AStr (lit "50")); ("y"%string, AStr (lit "50"))]
    [SText (lit "Empty diagram")].

Definition _mxGraphToSvg `{Platform} (model : node) : svg :=
  match querySelector (ByTag (lit "root")) model with
  | None =>
      SElem "svg" [("class"%string, AStr (lit "jp-DrawioWidget-svg"))]
        [arrow_defs; empty_diagram]
  | Some root =>
      let cells := querySelectorAll (ByTag (lit "mxCell")) root in
      let vertices := first_pass cells in
      let st := second_pass vertices cells in
      SElem "svg"
        [("class"%string, AStr (lit "jp-DrawioWidget-svg"));
         ("viewBox"%string, viewBox st);
         ("preserveAspectRatio"%string, AStr (lit "xMidYMid meet"))]
        [arrow_defs; SElem "g" [] (drawn st)]
  end.

(** ** The codec: [_decompressDiagram] *)

(** What a call can throw: the errors the widget raises itself
    ([new Error(message)], one constructor per message) and the exceptions of
    the browser functions it calls. *)
Inductive exn :=
| EmptyDiagramFile                    (* 'Empty diagram file' *)
| InvalidXML (diagnostic : jsstring)  (* 'Invalid XML: ' + text *)
| NoDiagramContentFound               (* 'No diagram content found' *)
| PageNNotFound (n : Z)               (* `Page ${n} not found` *)
| CouldNotParseDiagramContent         (* 'Could not parse diagram content' *)
| InvalidCharacterError               (* atob *)
| StreamError                         (* a rejected reader.read() *)
| RangeError                          (* TypedArray.prototype.set *)
| URIError.                           (* decodeURIComponent *)

Inductive result (A : Type) :=
| Ok (a : A)
| Throw (e : exn).
Arguments Ok {A} a.
Arguments Throw {A} e.

Definition bind_result {A B} (r : result A) (k : A -> result B) : result B :=
  match r with
  | Ok a => k a
  | Throw e => Throw e
  end.

Notation "x <-! r ; k" := (bind_result r (fun x => k))
  (at level 100, r at next level, right associativity).

Definition in_range (lo hi c : N) : bool := (lo <=? c) && (c <=? hi).

(** *** [atob]: the forgiving base64 decoder *)

Definition b64_value (c : N) : option N :=
  if in_range 65 90 c then Some (c - 65)
  else if in_range 97 122 c then Some (c - 71)
  else if in_range 48 57 c then Some (c + 4)
  else if unit_eqb c 43 then Some 62
  else if unit_eqb c 47 then Some 63
  else None.

Definition is_ascii_whitespace (c : N) : bool :=
  match c with
  | 9 | 10 | 12 | 13 | 32 => true
  | _ => false
  end.

(** One or two [=] are removed from the end of data whose length is a
    multiple of four. *)
Definition strip_padding (s : jsstring) : jsstring :=
  if (N.of_nat (length s) mod 4 =? 0)
  then match rev s with
       | a :: r =>
           if unit_eqb a 61 then
             match r with
             | b :: r' => if unit_eqb b 61 then rev r' else rev r
             | [] => rev r
             end
           else s
       | [] => s
       end
  else s.

Fixpoint sextets (s : jsstring) : option (list N) :=
  match s with
  | [] => Some []
  | c :: s' =>
      match b64_value c, sextets s' with
      | Some v, Some vs => Some (v :: vs)
      | _, _ => None
      end
  end.

(** Groups of four sextets give three bytes; a rest of two or three gives
    one or two bytes, the bits left over are dropped. *)
Fixpoint sextets_bytes (vs : list N) : list N :=
  match vs with
  | a :: b :: c :: d :: rest =>
      let n := a * 262144 + b * 4096 + c * 64 + d in
      n / 65536 :: (n / 256) mod 256 :: n mod 256 :: sextets_bytes rest
  | [a; b; c] =>
      let n := a * 4096 + b * 64 + c in
      [n / 1024; (n / 4) mod 256]
  | [a; b] => [(a * 64 + b) / 16]
  | _ => []
  end.

Definition atob (data : jsstring) : result jsstring :=
  let d := strip_padding (filter (fun c => is_ascii_whitespace c = false) data) in
  if (N.of_nat (length d) mod 4 =? 1) then Throw InvalidCharacterError
  else match sextets d with
       | Some vs => Ok (sextets_bytes vs)
       | None => Throw InvalidCharacterError
       end.

(** *** Reading the stream and joining the chunks *)

(** The [while (true)] loop around [reader.read()]. *)
Fixpoint read_chunks (st : stream) (chunks : list (list N))
  : result (list (list N)) :=
  match st with
  | Chunk value rest => read_chunks rest (chunks ++ [value])
  | Done => Ok chunks
  | Errored => Throw StreamError
  end.

(** [result.set(chunk, offset)] on a typed array. *)
Fixpoint write_at (chunk : list N) (offset : nat) (arr : list N) : list N :=
  match chunk with
  | [] => arr
  | b :: chunk' => write_at chunk' (S offset) (<[offset := b]> arr)
  end.

Definition typed_set (arr chunk : list N) (offset : nat) : result (list N) :=
  if (offset + length chunk <=? length arr)%nat
  then Ok (write_at chunk offset arr)
  else Throw RangeError.

(** The [for (const chunk of chunks)] loop. *)
Fixpoint join_loop (chunks : list (list N)) (offset : nat) (arr : list N)
  : result (list N) :=
  match chunks with
  | [] => Ok arr
  | chunk :: chunks' =>
      arr' <-! typed_set arr chunk offset;
      join_loop chunks' (offset + length chunk)%nat arr'
  end.

Definition join_chunks (chunks : list (list N)) : result (list N) :=
  let totalLength :=
    fold_left (fun acc chunk => (acc + length chunk)%nat) chunks O in
  join_loop chunks O (replicate totalLength 0).

(** *** [new TextDecoder().decode]: UTF-8, errors replaced by U+FFFD *)

(** The UTF-16 code units of a code point. *)
Definition code_units (cp : N) : jsstring :=
  if cp <? 65536 then [cp]
  else [55296 + (cp - 65536) / 1024; 56320 + (cp - 65536) mod 1024].

Fixpoint utf8_decode (bs : list N) : jsstring :=
  match bs with
  | [] => []
  | b :: r =>
      if b <=? 127 then b :: utf8_decode r
      else if in_range 194 223 b then
        match r with
        | b1 :: r1 =>
            if in_range 128 191 b1
            then code_units ((b - 192) * 64 + (b1 - 128)) ++ utf8_decode r1
            else 65533 :: utf8_decode r
        | [] => [65533]
        end
      else if in_range 224 239 b then
        let lo := if b =? 224 then 160 else 128 in
        let hi := if b =? 237 then 159 else 191 in
        match r with
        | b1 :: r1 =>
            if in_range lo hi b1 then
              match r1 with
              | b2 :: r2 =>
                  if in_range 128 191 b2
                  then code_units ((b - 224) * 4096 + (b1 - 128) * 64 + (b2 - 128))
                       ++ utf8_decode r2
                  else 65533 :: utf8_decode r1
              | [] => [65533]
              end
            else 65533 :: utf8_decode r
        | [] => [65533]
        end
      else if in_range 240 244 b then
        let lo := if b =? 240 then 144 else 128 in
        let hi := if b =? 244 then 143 else 191 in
        match r with
        | b1 :: r1 =>
            if in_range lo hi b1 then
              match r1 with
              | b2 :: r2 =>
                  if in_range 128 191 b2 then
                    match r2 with
                    | b3 :: r3 =>
                        if in_range 128 191 b3
                        then code_units ((b - 240) * 262144 + (b1 - 128) * 4096
                                         + (b2 - 128) * 64 + (b3 - 128))
                             ++ utf8_decode r3
                        else 65533 :: utf8_decode r2
                    | [] => [65533]
                    end
                  else 65533 :: utf8_decode r1
              | [] => [65533]
              end
            else 65533 :: utf8_decode r
        | [] => [65533]
        end
      else 65533 :: utf8_decode r
  end.

(** A byte order mark at the start is not part of the text. *)
Definition TextDecoder_decode (bs : list N) : jsstring :=
  if starts_with [239; 187; 191] bs then utf8_decode (drop 3 bs)
  else utf8_decode bs.

(** *** [decodeURIComponent] *)

Definition hex_value (c : N) : option N :=
  if in_range 48 57 c then Some (c - 48)
  else if in_range 65 70 c then Some (c - 55)
  else if in_range 97 102 c then Some (c - 87)
  else None.

(** The byte written [%XY]. *)
Definition pct_byte (p h1 h2 : N) : option N :=
  if unit_eqb p 37 then
    match hex_value h1, hex_value h2 with
    | Some a, Some b => Some (16 * a + b)
    | _, _ => None
    end
  else None.

Definition is_continuation (b : N) : bool := in_range 128 191 b.

(** The code point of two, three or four octets, when they are its UTF-8
    encoding: continuation bytes where they belong, no overlong form, no
    surrogate, at most U+10FFFF. *)
Definition utf8_value (octets : list N) : option N :=
  match octets with
  | [b; b1] =>
      let v := (b - 192) * 64 + (b1 - 128) in
      if is_continuation b1 && (128 <=? v) then Some v else None
  | [b; b1; b2] =>
      let v := (b - 224) * 4096 + (b1 - 128) * 64 + (b2 - 128) in
      if is_continuation b1 && is_continuation b2 && (2048 <=? v)
         && negb (in_range 55296 57343 v)
      then Some v else None
  | [b; b1; b2; b3] =>
      let v := (b - 240) * 262144 + (b1 - 128) * 4096 + (b2 - 128) * 64
               + (b3 - 128) in
      if is_continuation b1 && is_continuation b2 && is_continuation b3
         && in_range 65536 1114111 v
      then Some v else None
  | _ => None
  end.

Definition prepend (u : jsstring) (r : result jsstring) : result jsstring :=
  s <-! r; Ok (u ++ s).

Definition decoded_point (octets : list N) (rest : result jsstring)
  : result jsstring :=
  match utf8_value octets with
  | Some v => prepend (code_units v) rest
  | None => Throw URIError
  end.

Fixpoint decodeURIComponent (s : jsstring) : result jsstring :=
  match s with
  | [] => Ok []
  | c :: t =>
      if negb (unit_eqb c 37) then prepend [c] (decodeURIComponent t)
      else
        match t with
        | h1 :: h2 :: t1 =>
            match pct_byte c h1 h2 with
            | None => Throw URIError
            | Some b =>
                if b <? 128 then prepend [b] (decodeURIComponent t1)
                else if in_range 192 223 b then
                  match t1 with
                  | p1 :: x1 :: y1 :: t2 =>
                      match pct_byte p1 x1 y1 with
                      | Some b1 => decoded_point [b; b1] (decodeURIComponent t2)
                      | None => Throw URIError
                      end
                  | _ => Throw URIError
                  end
                else if in_range 224 239 b then
                  match t1 with
                  | p1 :: x1 :: y1 :: p2 :: x2 :: y2 :: t2 =>
                      match pct_byte p1 x1 y1, pct_byte p2 x2 y2 with
                      | Some b1, Some b2 =>
                          decoded_point [b; b1; b2] (decodeURIComponent t2)
                      | _, _ => Throw URIError
                      end
                  | _ => Throw URIError
                  end
                else if in_range 240 247 b then
                  match t1 with
                  | p1 :: x1 :: y1 :: p2 :: x2 :: y2 :: p3 :: x3 :: y3 :: t2 =>
                      match pct_byte p1 x1 y1, pct_byte p2 x2 y2,
                            pct_byte p3 x3 y3 with
                      | Some b1, Some b2, Some b3 =>
                          decoded_point [b; b1; b2; b3] (decodeURIComponent t2)
                      | _, _, _ => Throw URIError
                      end
                  | _ => Throw URIError
                  end
                else Throw URIError
            end
        | _ => Throw URIError
        end
  end.

(** *** [_decompressDiagram] *)

(** [bytes[i] = decoded.charCodeAt(i)]: a [Uint8Array] keeps the low byte. *)
Definition char_codes (decoded : jsstring) : list N :=
  map (fun c => c mod 256) decoded.

(** [compressed.replace(/-/g, '+').replace(/_/g, '/')] *)
Definition url_to_std (s : jsstring) : jsstring :=
  replace_all 95 47 (replace_all 45 43 s).

Definition _decompressDiagram `{Platform} (compressed : jsstring)
  : result jsstring :=
  decoded <-! atob (url_to_std compressed);
  let bytes := char_codes decoded in
  chunks <-! read_chunks (inflate_raw bytes) [];
  result <-! join_chunks chunks;
  decodeURIComponent (TextDecoder_decode result).

(** *** The forward transform *)

Definition hex_digit (v : N) : N := if v <? 10 then 48 + v else 55 + v.

Definition pct_encode (b : N) : jsstring :=
  [37; hex_digit (b / 16); hex_digit (b mod 16)].

Definition utf8_encode (cp : N) : list N :=
  if cp <? 128 then [cp]
  else if cp <? 2048 then [192 + cp / 64; 128 + cp mod 64]
  else if cp <? 65536
       then [224 + cp / 4096; 128 + (cp / 64) mod 64; 128 + cp mod 64]
       else [240 + cp / 262144; 128 + (cp / 4096) mod 64;
             128 + (cp / 64) mod 64; 128 + cp mod 64].

(** The characters [encodeURIComponent] leaves as they are:
    letters, digits and [- _ . ! ~ * ' ( )]. *)
Definition is_unreserved (c : N) : bool :=
  in_range 65 90 c || in_range 97 122 c || in_range 48 57 c ||
  existsb (unit_eqb c) [45; 95; 46; 33; 126; 42; 39; 40; 41].

(** [encodeURIComponent], the first step of the forward transform that the
    specification describes (the widget itself only decodes).  A surrogate
    without its partner throws. *)
Fixpoint encodeURIComponent (s : jsstring) : result jsstring :=
  match s with
  | [] => Ok []
  | c :: t =>
      if is_unreserved c then prepend [c] (encodeURIComponent t)
      else if in_range 55296 56319 c then
        match t with
        | d :: t' =>
            if in_range 56320 57343 d
            then prepend
                   (concat (map pct_encode
                      (utf8_encode (65536 + (c - 55296) * 1024 + (d - 56320)))))
                   (encodeURIComponent t')
            else Throw URIError
        | [] => Throw URIError
        end
      else if in_range 56320 57343 c then Throw URIError
      else prepend (concat (map pct_encode (utf8_encode c)))
                   (encodeURIComponent t)
  end.

Definition b64url_char (v : N) : N :=
  if v <? 26 then 65 + v
  else if v <? 52 then 71 + v
  else if v <? 62 then v - 4
  else if v =? 62 then 45    (* - *)
  else 95.                   (* _ *)

Fixpoint b64url_core (bs : list N) : jsstring :=
  match bs with
  | x :: y :: z :: rest =>
      let n := x * 65536 + y * 256 + z in
      b64url_char (n / 262144) :: b64url_char ((n / 4096) mod 64)
      :: b64url_char ((n / 64) mod 64) :: b64url_char (n mod 64)
      :: b64url_core rest
  | [x; y] =>
      let n := x * 1024 + y * 4 in
      [b64url_char (n / 4096); b64url_char ((n / 64) mod 64);
       b64url_char (n mod 64)]
  | [x] => [b64url_char (x / 4); b64url_char ((x * 16) mod 64)]
  | [] => []
  end.

(** The number of [=] that pad the encoding of [n] bytes. *)
Definition padding_length (n : nat) : nat := ((3 - n mod 3) mod 3)%nat.

(** The last step of the forward transform: base64url encoding (RFC 4648,
    section 5), with or without the [=] padding, which the format leaves
    optional. *)
Definition base64url_encode (pad : bool) (bs : list N) : jsstring :=
  b64url_core bs ++
  (if pad then replicate (padding_length (length bs)) 61 else []).

(** The forward transform of the specification, for a raw-deflate
    compressor [deflate_raw]: URI-component-encode, compress the (ASCII)
    text, base64url-encode. *)
Definition forward (deflate_raw : list N -> list N) (pad : bool) (xml : jsstring)
  : result jsstring :=
  e <-! encodeURIComponent xml;
  Ok (base64url_encode pad (deflate_raw e)).

(** ** The widget: its fields and the methods that change them *)

(** What the container div shows. *)
Inductive shown :=
| Blank
| LoadingDiagram
| Diagram (s : svg).

(** The [_ready] promise. *)
Inductive promise :=
| Pending
| Resolved
| Rejected (e : exn).

(** The fields of [DrawioWidget].  [toolbar] is [None] while the toolbar is
    hidden, and the page number and page count it displays once
    [_setupPageNavigation] has filled it.  [parse_log] and [codec_log] are not
    fields of the class: they record, latest first, the arguments of the calls
    to [parseFromString] and to [_decompressDiagram]. *)
Record widget := {
  _currentPage : Z;
  _totalPages : Z;
  _diagramXml : option jsstring;
  container : shown;
  toolbar : option (Z * Z);
  error_shown : option exn;
  _ready : promise;
  parse_log : list jsstring;
  codec_log : list jsstring
}.

(** The state the constructor leaves, before its call of [_loadDiagram]. *)
Definition new_widget : widget :=
  {| _currentPage := 0; _totalPages := 1; _diagramXml := None;
     container := Blank; toolbar := None; error_shown := None;
     _ready := Pending; parse_log := []; codec_log := [] |}.

(** A method: it reads and writes the fields and returns or throws.  What it
    wrote before throwing stays written. *)
Definition M (A : Type) : Type := widget -> result A * widget.

Definition ret {A} (a : A) : M A := fun w => (Ok a, w).

Definition throw {A} (e : exn) : M A := fun w => (Throw e, w).

Definition bind {A B} (m : M A) (k : A -> M B) : M B :=
  fun w =>
    match m w with
    | (Ok a, w') => k a w'
    | (Throw e, w') => (Throw e, w')
    end.

Definition try_catch {A} (m : M A) (handler : exn -> M A) : M A :=
  fun w =>
    match m w with
    | (Ok a, w') => (Ok a, w')
    | (Throw e, w') => handler e w'
    end.

Definition get : M widget := fun w => (Ok w, w).

Definition modify (f : widget -> widget) : M unit := fun w => (Ok tt, f w).

Notation "x <- m ;; k" := (bind m (fun x => k))
  (at level 100, m at next level, right associativity).
Notation "m ;; k" := (bind m (fun _ => k))
  (at level 100, right associativity).

Definition set_currentPage (v : Z) (w : widget) : widget :=
  {| _currentPage := v; _totalPages := _totalPages w;
     _diagramXml := _diagramXml w; container := container w;
     toolbar := toolbar w; error_shown := error_shown w; _ready := _ready w;
     parse_log := parse_log w; codec_log := codec_log w |}.

Definition set_totalPages (v : Z) (w : widget) : widget :=
  {| _currentPage := _currentPage w; _totalPages := v;
     _diagramXml := _diagramXml w; container := container w;
     toolbar := toolbar w; error_shown := error_shown w; _ready := _ready w;
     parse_log := parse_log w; codec_log := codec_log w |}.

Definition set_diagramXml (v : option jsstring) (w : widget) : widget :=
  {| _currentPage := _currentPage w; _totalPages := _totalPages w;
     _diagramXml := v; container := container w;
     toolbar := toolbar w; error_shown := error_shown w; _ready := _ready w;
     parse_log := parse_log w; codec_log := codec_log w |}.

Definition set_container (v : shown) (w : widget) : widget :=
  {| _currentPage := _currentPage w; _totalPages := _totalPages w;
     _diagramXml := _diagramXml w; container := v;
     toolbar := toolbar w; error_shown := error_shown w; _ready := _ready w;
     parse_log := parse_log w; codec_log := codec_log w |}.

Definition set_toolbar (v : option (Z * Z)) (w : widget) : widget :=
  {| _currentPage := _currentPage w; _totalPages := _totalPages w;
     _diagramXml := _diagramXml w; container := container w;
     toolbar := v; error_shown := error_shown w; _ready := _ready w;
     parse_log := parse_log w; codec_log := codec_log w |}.

Definition set_error_shown (v : option exn) (w : widget) : widget :=
  {| _currentPage := _currentPage w; _totalPages := _totalPages w;
     _diagramXml := _diagramXml w; container := container w;
     toolbar := toolbar w; error_shown := v; _ready := _ready w;
     parse_log := parse_log w; codec_log := codec_log w |}.

(** Settling a promise that is settled already changes nothing. *)
Definition settle (v : promise) (w : widget) : widget :=
  {| _currentPage := _currentPage w; _totalPages := _totalPages w;
     _diagramXml := _diagramXml w; container := container w;
     toolbar := toolbar w; error_shown := error_shown w;
     _ready := match _ready w with Pending => v | p => p end;
     parse_log := parse_log w; codec_log := codec_log w |}.

Definition log_parse (s : jsstring) (w : widget) : widget :=
  {| _currentPage := _currentPage w; _totalPages := _totalPages w;
     _diagramXml := _diagramXml w; container := container w;
     toolbar := toolbar w; error_shown := error_shown w; _ready := _ready w;
     parse_log := s :: parse_log w; codec_log := codec_log w |}.

Definition log_codec (s : jsstring) (w : widget) : widget :=
  {| _currentPage := _currentPage w; _totalPages := _totalPages w;
     _diagramXml := _diagramXml w; container := container w;
     toolbar := toolbar w; error_shown := error_shown w; _ready := _ready w;
     parse_log := parse_log w; codec_log := s :: codec_log w |}.

(** [parser.parseFromString(s, 'text/xml')] *)
Definition parse `{Platform} (s : jsstring) : M node :=
  modify (log_parse s);; ret (parseFromString s).

(** [await this._decompressDiagram(s)] *)
Definition decompress `{Platform} (s : jsstring) : M jsstring :=
  modify (log_codec s);;
  match _decompressDiagram s with
  | Ok text => ret text
  | Throw e => throw e
  end.

Definition _renderMxGraphModel `{Platform} (model : node) : M unit :=
  modify (set_container (Diagram (_mxGraphToSvg model))).

(** [diagrams[pageIndex]] *)
Definition item (l : list node) (i : Z) : option node :=
  if (i <? 0)%Z then None else l !! Z.to_nat i.

Definition mxGraphModel_tag : jsstring := lit "<mxGraphModel".

(** The end of [_renderPage]: the model is looked for in the text of the
    page, and the page is given up when there is none. *)
Definition extract_model `{Platform} (diagramContent : jsstring) : M unit :=
  if includes mxGraphModel_tag diagramContent then
    innerDoc <- parse diagramContent;;
    match querySelector (ByTag (lit "mxGraphModel")) innerDoc with
    | Some mxGraphModel => _renderMxGraphModel mxGraphModel
    | None => throw CouldNotParseDiagramContent
    end
  else throw CouldNotParseDiagramContent.

Definition _renderPage `{Platform} (pageIndex : Z) : M unit :=
  w <- get;;
  match _diagramXml w with
  | None => ret tt
  | Some xml =>
      if negb (truthy_str xml) then ret tt
      else
        doc <- parse xml;;
        let diagrams := querySelectorAll (ByTag (lit "diagram")) doc in
        match diagrams with
        | [] =>
            match querySelector (ByTag (lit "mxGraphModel")) doc with
            | Some mxGraphModel => _renderMxGraphModel mxGraphModel
            | None => throw NoDiagramContentFound
            end
        | _ =>
            match item diagrams pageIndex with
            | None => throw (PageNNotFound (pageIndex + 1))
            | Some diagram =>
                match querySelector (ByTag (lit "mxGraphModel")) diagram with
                | Some embeddedModel => _renderMxGraphModel embeddedModel
                | None =>
                    let payload := or_str (Some (textContent diagram)) [] in
                    diagramContent <-
                      (if truthy_str payload
                          && negb (includes mxGraphModel_tag payload)
                       then try_catch (decompress payload)
                                      (fun e => ret payload)
                       else ret payload);;
                    extract_model diagramContent
                end
            end
        end
  end.

(** The toolbar shows [Page ${_currentPage + 1} of ${_totalPages}]; the two
    click listeners are [prevPage_click] and [nextPage_click] below. *)
Definition _setupPageNavigation : M unit :=
  modify (fun w => set_toolbar (Some (_currentPage w + 1, _totalPages w)%Z) w).

(** [void p]: the promise is dropped, and so is what it throws. *)
Definition void (m : M unit) : M unit := try_catch m (fun _ => ret tt).

Definition _updatePageDisplay `{Platform} : M unit :=
  modify (fun w =>
            match toolbar w with
            | Some (_, total) => set_toolbar (Some (_currentPage w + 1, total)%Z) w
            | None => w
            end);;
  w <- get;;
  void (_renderPage (_currentPage w)).

Definition prevPage_click `{Platform} : M unit :=
  w <- get;;
  if (_currentPage w >? 0)%Z
  then modify (set_currentPage (_currentPage w - 1)%Z);; _updatePageDisplay
  else ret tt.

Definition nextPage_click `{Platform} : M unit :=
  w <- get;;
  if (_currentPage w <? _totalPages w - 1)%Z
  then modify (set_currentPage (_currentPage w + 1)%Z);; _updatePageDisplay
  else ret tt.

(** [diagrams.length || 1] *)
Definition page_count (diagrams : list node) : Z :=
  match diagrams with
  | [] => 1
  | _ => Z.of_nat (length diagrams)
  end.

Definition _renderDiagram `{Platform} (xmlContent : jsstring) : M unit :=
  doc <- parse xmlContent;;
  match querySelector (ByTag (lit "parsererror")) doc with
  | Some parseError => throw (InvalidXML (textContent parseError))
  | None =>
      modify (set_diagramXml (Some xmlContent));;
      let diagrams := querySelectorAll (ByTag (lit "diagram")) doc in
      modify (set_totalPages (page_count diagrams));;
      w <- get;;
      (if (_totalPages w >? 1)%Z then _setupPageNavigation else ret tt);;
      w <- get;;
      _renderPage (_currentPage w)
  end.

Definition _showError (e : exn) : M unit :=
  modify (set_error_shown (Some e)).

(** The body of the [try] of [_loadDiagram]; [content] is
    [this._context.model.toString()]. *)
Definition load_body `{Platform} (content : jsstring) : M unit :=
  modify (set_container LoadingDiagram);;
  (if negb (truthy_str content) || str_eqb (trim content) []
   then throw EmptyDiagramFile else ret tt);;
  _renderDiagram content;;
  modify (settle Resolved).

Definition _loadDiagram `{Platform} (content : jsstring) : M unit :=
  try_catch (load_body content)
            (fun error => _showError error;; modify (settle (Rejected error))).

(** ** The page controller *)

(** What happens to a widget: its document is (re)loaded with some text,
    or one of the two buttons of the toolbar is clicked.  The buttons exist
    once the toolbar has been filled. *)
Inductive event :=
| Load (content : jsstring)
| ClickPrev
| ClickNext.

Definition run (m : M unit) (w : widget) : widget := snd (m w).

Definition step `{Platform} (w : widget) (e : event) : widget :=
  match e with
  | Load content => run (_loadDiagram content) w
  | ClickPrev =>
      match toolbar w with
      | Some _ => run prevPage_click w
      | None => w
      end
  | ClickNext =>
      match toolbar w with
      | Some _ => run nextPage_click w
      | None => w
      end
  end.

Definition steps `{Platform} (w : widget) (es : list event) : widget :=
  fold_left step es w.

(** The states a widget can be in: the constructor loads the document, and
    events follow. *)
Definition reachable `{Platform} (w : widget) : Prop :=
  exists content es, w = steps new_widget (Load content :: es).

(** The invariant of the page index. *)
Definition page_in_range (w : widget) : Prop :=
  (0 <= _currentPage w <= _totalPages w - 1)%Z.

(** The error kinds of the specification and the exceptions they name. *)
Inductive RenderError :=
| EmptyDocument
| InvalidDocument
| DecodeError
| UnparsableContent
| PageNotFound.

Definition error_kind (e : exn) : RenderError :=
  match e with
  | EmptyDiagramFile => EmptyDocument
  | InvalidXML _ => InvalidDocument
  | NoDiagramContentFound | CouldNotParseDiagramContent => UnparsableContent
  | PageNNotFound _ => PageNotFound
  | InvalidCharacterError | StreamError | RangeError | URIError => DecodeError
  end.

(** ** The vocabulary of the statements

    What follows names what the statements below talk about; nothing in
    it is part of the widget. *)

(** [p] occurs in [s]. *)
Definition occurs_in (p s : jsstring) : Prop := exists a b, s = a ++ p ++ b.

Definition is_blank (content : jsstring) : Prop :=
  Forall (fun c => is_js_space c = true) content.

(** The pairs a style string declares, in the order of declaration: what
    [parse_part] stores for each part. *)
Definition declared (part : jsstring) : option (jsstring * jsstring) :=
  match split_on 61 part with
  | key :: v :: _ =>
      if truthy_str key && negb (str_eqb (trim key) (lit "__proto__"))
      then Some (trim key, trim v) else None
  | _ => None
  end.

Definition style_entries (style : jsstring) : list (jsstring * jsstring) :=
  omap declared (split_on 59 style).

(** The keywords in their order of priority. *)
Definition shape_keywords : list (string * ShapeKind) :=
  [("ellipse"%string, Ellipse); ("rhombus"%string, Rhombus);
   ("hexagon"%string, Hexagon); ("triangle"%string, Triangle);
   ("cylinder"%string, Cylinder)].

(** The kind of the first keyword that [matches], a rectangle when none
    does. *)
Definition first_keyword (matches : jsstring -> bool) : ShapeKind :=
  match List.find (fun p => matches (lit (fst p))) shape_keywords with
  | Some (_, k) => k
  | None => Rect
  end.

(** The sign of what [Math.abs] returns and of a positive literal. *)
Definition plus_sign (a : number) : bool :=
  match a with
  | S754_zero s | S754_infinity s | S754_finite s _ _ => negb s
  | NaN => true
  end.

(** A cell that is flagged as a vertex and has a geometry. *)
Definition is_vertex (cell : node) : bool :=
  attr_is_1 (lit "vertex") cell &&
  match querySelector (ByTag (lit "mxGeometry")) cell with
  | Some _ => true
  | None => false
  end.

(** The [shape] of [_createShape]: [styles.shape || '']. *)
Definition shape_of (style : jsstring) : jsstring :=
  style_or (_parseStyle style) "shape" "".

(** The shape element of the group [_createShape] returns. *)
Definition shape_of_group (g : svg) : option svg := head (svg_children g).

(** The label of the group [_createShape] returns, when it has one. *)
Definition label_of_group (g : svg) : option svg := svg_children g !! 1%nat.

(** *** Layout and edges *)

(** The boxes of the vertices of a list of cells, in document order, and
    the running bounds over them. *)
Definition vertex_boxes (cells : list node) : list box := omap cell_box cells.

Definition cell_id (cell : node) : jsstring :=
  or_str (getAttribute (lit "id") cell) [].

Definition bound_minX (boxes : list box) : number :=
  fold_left nmin (map box_x boxes) PInf.

Definition bound_minY (boxes : list box) : number :=
  fold_left nmin (map box_y boxes) PInf.

Definition bound_maxX (boxes : list box) : number :=
  fold_left nmax (map (fun b => box_x b + box_width b)%num boxes) NInf.

Definition bound_maxY (boxes : list box) : number :=
  fold_left nmax (map (fun b => box_y b + box_height b)%num boxes) NInf.

(** The [viewBox] of the picture of a model, when it has one. *)
Definition published_viewBox `{Platform} (model : node) : option attr :=
  svg_attr "viewBox" (svg_attrs (_mxGraphToSvg model)).

Definition canvas : attr := AViewBox (num 0) (num 0) (num 400) (num 300).

(** The ids an edge cell names. *)
Definition source_id (cell : node) : jsstring :=
  or_str (getAttribute (lit "source") cell) [].

Definition target_id (cell : node) : jsstring :=
  or_str (getAttribute (lit "target") cell) [].

(** An edge has points of its own when its geometry holds both a source
    point and a target point. *)
Definition has_own_points (cell : node) : bool :=
  let geometry := querySelector (ByTag (lit "mxGeometry")) cell in
  match opt_querySelector
          (ByTagAttr (lit "mxPoint") (lit "as") (lit "sourcePoint")) geometry,
        opt_querySelector
          (ByTagAttr (lit "mxPoint") (lit "as") (lit "targetPoint")) geometry
  with
  | Some _, Some _ => true
  | _, _ => false
  end.

(** The path of the group [_createEdge] returns. *)
Definition path_of_group (g : svg) : option path_data :=
  match head (svg_children g) with
  | Some (SElem _ attrs _) =>
      match svg_attr "d" attrs with
      | Some (APath d) => Some d
      | _ => None
      end
  | _ => None
  end.

Definition centre_x (b : box) : number := (box_x b + box_width b / two)%num.
Definition centre_y (b : box) : number := (box_y b + box_height b / two)%num.


(** *** Pages *)

(** The pages of the document a widget holds, and the text of a page. *)
Definition pages_of `{Platform} (xml : jsstring) : list node :=
  querySelectorAll (ByTag (lit "diagram")) (parseFromString xml).

Definition payload_of (diagram : node) : jsstring :=
  or_str (Some (textContent diagram)) [].

(** A page whose model is not embedded and whose text is not plain: the
    case in which [_renderPage] calls the codec. *)
Definition needs_codec (diagram : node) : bool :=
  match querySelector (ByTag (lit "mxGraphModel")) diagram with
  | Some _ => false
  | None => truthy_str (payload_of diagram)
            && negb (includes mxGraphModel_tag (payload_of diagram))
  end.

Definition is_click (e : event) : Prop := e = ClickPrev \/ e = ClickNext.

(** Two states with the same page index, page count and toolbar state. *)
Definition same_pages (w w' : widget) : Prop :=
  _currentPage w' = _currentPage w /\ _totalPages w' = _totalPages w /\
  (toolbar w' = None <-> toolbar w = None).

(** The picture a widget shows, and the groups drawn in a picture. *)
Definition picture (w : widget) : option svg :=
  match container w with
  | Diagram s => Some s
  | _ => None
  end.

Definition groups_of (s : svg) : list svg :=
  match svg_children s with
  | [_; g] => svg_children g
  | _ => []
  end.

(** *** The codec *)

(** The chunks a stream delivers before it ends, [None] when it fails. *)
Fixpoint stream_chunks (st : stream) : option (list (list N)) :=
  match st with
  | Chunk value rest => cons value <$> stream_chunks rest
  | Done => Some []
  | Errored => None
  end.

Definition is_bytes (bs : list N) : Prop := Forall (fun b => b < 256) bs.

Definition is_ascii (s : jsstring) : Prop := Forall (fun c => c < 128) s.

(** The code units of a JavaScript string are below 2^16. *)
Definition is_js_string (s : jsstring) : Prop := Forall (fun c => c < 65536) s.

(** A string without a surrogate that lacks its partner. *)
Fixpoint well_formed (s : jsstring) : bool :=
  match s with
  | [] => true
  | c :: t =>
      if in_range 55296 56319 c then
        match t with
        | d :: t' => in_range 56320 57343 d && well_formed t'
        | [] => false
        end
      else negb (in_range 56320 57343 c) && well_formed t
  end.

(** The decompression stream of the platform undoes the compressor
    [deflate_raw]: bytes in, bytes out, and the chunks delivered for a
    compressed text join to the text. *)
Definition inflates `{Platform} (deflate_raw : list N -> list N) : Prop :=
  forall bs, is_bytes bs ->
    is_bytes (deflate_raw bs) /\
    exists chunks,
      stream_chunks (inflate_raw (deflate_raw bs)) = Some chunks /\
      concat chunks = bs.

(** What the two replacements do to one code unit. *)
Definition std_char (c : N) : N :=
  let c' := if unit_eqb c 45 then 43 else c in
  if unit_eqb c' 95 then 47 else c'.

(** The characters of the encoding, as the decoder reads them. *)
Definition decodable (c : jsstring) : Prop :=
  Forall (fun ch => is_ascii_whitespace ch = false /\ unit_eqb ch 61 = false) c.

(** ** The wording of the specification

    Four sentences of the specification, as they are worded, for
    comparison with what the widget does. *)

(** The selection as the specification words it: the [shape] key decides
    when it is present, the substrings of the style only when it is absent. *)
Definition claimed_shape_kind (style : jsstring) : ShapeKind :=
  match _parseStyle style !! lit "shape" with
  | Some v => first_keyword (fun kw => str_eqb v kw)
  | None => first_keyword (fun kw => includes kw style)
  end.

(** The view box as the specification words it: the bounds of the vertex
    boxes widened by 30 on every side, and the fixed canvas for a model
    without vertex. *)
Definition claimed_viewBox (boxes : list box) : attr :=
  match boxes with
  | [] => canvas
  | _ =>
      AViewBox (bound_minX boxes - num 30) (bound_minY boxes - num 30)
               (bound_maxX boxes - bound_minX boxes + two * num 30)
               (bound_maxY boxes - bound_minY boxes + two * num 30)%num
  end.

Definition claimed_layout : Prop :=
  forall (P : Platform) (model : node),
    published_viewBox model =
    Some (claimed_viewBox
            (vertex_boxes (querySelectorAll (ByTag (lit "mxCell")) model))).

(** The ratio as the specification words it:
    [min(halfWidth/|dx|, halfHeight/|dy|)] capped at 0.5. *)
Definition claimed_ratio (b : box) (dx dy : number) : number :=
  nmin (nmin (box_width b / two / nabs dx) (box_height b / two / nabs dy))%num
       half.

Definition claimed_connect (source target : box)
  : (number * number) * (number * number) :=
  let dx := (centre_x target - centre_x source)%num in
  let dy := (centre_y target - centre_y source)%num in
  ((centre_x source + dx * claimed_ratio source dx dy,
    centre_y source + dy * claimed_ratio source dx dy),
   (centre_x target - dx * claimed_ratio target dx dy,
    centre_y target - dy * claimed_ratio target dx dy))%num.

Definition claimed_clipping : Prop :=
  forall source target : box,
    connect source target = claimed_connect source target.

(** The drawing of a page as the specification words it: a page that holds
    a model element, or whose text is not empty and holds the model tag, is
    drawn without a call of the codec. *)
Definition claimed_direct_rendering : Prop :=
  forall (P : Platform) (w : widget) (i : Z) (xml : jsstring) (diagram : node),
    _diagramXml w = Some xml ->
    xml <> [] ->
    item (querySelectorAll (ByTag (lit "diagram")) (parseFromString xml)) i
      = Some diagram ->
    is_Some (querySelector (ByTag (lit "mxGraphModel")) diagram) \/
    (textContent diagram <> [] /\
     includes (lit "<mxGraphModel") (textContent diagram) = true) ->
    codec_log (snd (_renderPage i w)) = codec_log w /\
    fst (_renderPage i w) = Ok tt /\
    exists picture, container (snd (_renderPage i w)) = Diagram picture.

(** ** A small platform for examples

    The statements below hold for every [Platform].  The examples need one
    to compute with: [demo_text] drops tags and reads the entities [&lt;],
    [&gt;] and [&amp;]; [inflate] decodes raw deflate (RFC 1951); [parse_xml]
    is a small XML parser. *)

Definition is_letter (c : N) : bool := in_range 65 90 c || in_range 97 122 c.

Fixpoint demo_text_from (skip : nat) (in_tag : bool) (s : jsstring) : jsstring :=
  match s with
  | [] => []
  | c :: s' =>
      match skip with
      | S k => demo_text_from k in_tag s'
      | O =>
          if in_tag then demo_text_from O (negb (unit_eqb c 62)) s'
          else if starts_with (lit "&lt;") s then 60 :: demo_text_from 3 false s'
          else if starts_with (lit "&gt;") s then 62 :: demo_text_from 3 false s'
          else if starts_with (lit "&amp;") s then 38 :: demo_text_from 4 false s'
          else if unit_eqb c 60 &&
                  match s' with
                  | d :: _ => is_letter d || unit_eqb d 47
                  | [] => false
                  end
               then demo_text_from O true s'
               else c :: demo_text_from O false s'
      end
  end.

Definition demo_text (html : jsstring) : jsstring := demo_text_from O false html.

(** *** Raw deflate (RFC 1951)

    The decompression stream of the examples: stored blocks, blocks with
    the fixed codes and blocks with dynamic codes.  A reader is the list of
    the bytes that are not consumed yet and the position, 0 to 7, of the next
    bit in the first of them.  One chunk is delivered for each block. *)

Definition reader : Type := list N * nat.

Definition read_bit (r : reader) : option (bool * reader) :=
  match r with
  | ([], _) => None
  | (b :: bs, p) =>
      Some (N.testbit b (N.of_nat p),
            if Nat.eqb p 7 then (bs, O) else (b :: bs, S p))
  end.

(** [n] bits, least significant first. *)
Fixpoint read_bits (n : nat) (r : reader) : option (N * reader) :=
  match n with
  | O => Some (0, r)
  | S n' =>
      '(bit, r1) ← read_bit r;
      '(v, r2) ← read_bits n' r1;
      Some ((if bit : bool then 1 else 0) + 2 * v, r2)
  end.

(** The rest of a byte that was begun is skipped. *)
Definition align (r : reader) : list N :=
  match r with
  | (bs, O) => bs
  | (_ :: bs, _) => bs
  | ([], _) => []
  end.

(** A Huffman code: for each length from 1 on, the number of symbols with a
    code of that length, and the symbols ordered by length and value. *)
Record huffman := {
  counts : list N;
  symbols : list N
}.

Definition huffman_of (lengths : list N) : huffman :=
  let numbered := imap (fun i len => (N.of_nat i, len)) lengths in
  let with_length (len : N) :=
    map fst (List.filter (fun p => snd p =? len) numbered) in
  let all := map (fun len => with_length (N.of_nat len)) (seq 1 15) in
  {| counts := map (fun syms => N.of_nat (length syms)) all;
     symbols := concat all |}.

(** One symbol: the code is read bit by bit, most significant first, until
    it falls among the codes of the current length. *)
Fixpoint decode_from (cs : list N) (syms : list N) (code first index : N)
    (r : reader) : option (N * reader) :=
  match cs with
  | [] => None
  | count :: cs' =>
      '(bit, r') ← read_bit r;
      let code := code + (if bit : bool then 1 else 0) in
      if code <? first + count
      then sym ← syms !! N.to_nat (index + (code - first)); Some (sym, r')
      else decode_from cs' syms (2 * code) (2 * (first + count)) (index + count) r'
  end.

Definition decode_symbol (h : huffman) (r : reader) : option (N * reader) :=
  decode_from (counts h) (symbols h) 0 0 0 r.

Definition length_base : list N :=
  [3; 4; 5; 6; 7; 8; 9; 10; 11; 13; 15; 17; 19; 23; 27; 31; 35; 43; 51; 59;
   67; 83; 99; 115; 131; 163; 195; 227; 258].

Definition length_extra : list nat :=
  [0; 0; 0; 0; 0; 0; 0; 0; 1; 1; 1; 1; 2; 2; 2; 2; 3; 3; 3; 3; 4; 4; 4; 4;
   5; 5; 5; 5; 0]%nat.

Definition distance_base : list N :=
  [1; 2; 3; 4; 5; 7; 9; 13; 17; 25; 33; 49; 65; 97; 129; 193; 257; 385; 513;
   769; 1025; 1537; 2049; 3073; 4097; 6145; 8193; 12289; 16385; 24577].

Definition distance_extra : list nat :=
  [0; 0; 0; 0; 1; 1; 2; 2; 3; 3; 4; 4; 5; 5; 6; 6; 7; 7; 8; 8; 9; 9; 10; 10;
   11; 11; 12; 12; 13; 13]%nat.

(** [n] bytes are copied from [distance] bytes back; [history] holds the
    output so far, latest byte first. *)
Fixpoint copy_back (n : nat) (distance : nat) (history : list N)
  : option (list N) :=
  match n with
  | O => Some history
  | S n' =>
      b ← history !! pred distance;
      copy_back n' distance (b :: history)
  end.

(** The symbols of a block, up to the end-of-block symbol 256. *)
Fixpoint inflate_codes (fuel : nat) (lit dist : huffman) (r : reader)
    (history : list N) : option (list N * reader) :=
  match fuel with
  | O => None
  | S fuel' =>
      '(sym, r1) ← decode_symbol lit r;
      if sym <? 256 then inflate_codes fuel' lit dist r1 (sym :: history)
      else if sym =? 256 then Some (history, r1)
      else
        let i := N.to_nat (sym - 257) in
        base ← length_base !! i;
        extra ← length_extra !! i;
        '(more, r2) ← read_bits extra r1;
        '(dsym, r3) ← decode_symbol dist r2;
        dbase ← distance_base !! N.to_nat dsym;
        dextra ← distance_extra !! N.to_nat dsym;
        '(dmore, r4) ← read_bits dextra r3;
        history' ← copy_back (N.to_nat (base + more)) (N.to_nat (dbase + dmore))
                     history;
        inflate_codes fuel' lit dist r4 history'
  end.

Definition fixed_literals : huffman :=
  huffman_of (replicate 144 8 ++ replicate 112 9 ++ replicate 24 7
              ++ replicate 8 8).

Definition fixed_distances : huffman := huffman_of (replicate 30 5).

(** The order in which the lengths of the code length codes are stored. *)
Definition length_order : list nat :=
  [16; 17; 18; 0; 8; 7; 9; 6; 10; 5; 11; 4; 12; 3; 13; 2; 14; 1; 15]%nat.

Fixpoint read_many (n bits : nat) (r : reader) : option (list N * reader) :=
  match n with
  | O => Some ([], r)
  | S n' =>
      '(v, r1) ← read_bits bits r;
      '(vs, r2) ← read_many n' bits r1;
      Some (v :: vs, r2)
  end.

(** The code lengths of a dynamic block, [total] of them, latest first in
    [done]: symbols 16, 17 and 18 repeat a length. *)
Fixpoint read_lengths (fuel : nat) (h : huffman) (total : nat) (done : list N)
    (r : reader) : option (list N * reader) :=
  if (total <=? length done)%nat then Some (rev done, r)
  else
    match fuel with
    | O => None
    | S fuel' =>
        '(sym, r1) ← decode_symbol h r;
        if sym <? 16 then read_lengths fuel' h total (sym :: done) r1
        else if sym =? 16 then
          previous ← head done;
          '(n, r2) ← read_bits 2 r1;
          read_lengths fuel' h total
            (replicate (N.to_nat (3 + n)) previous ++ done) r2
        else if sym =? 17 then
          '(n, r2) ← read_bits 3 r1;
          read_lengths fuel' h total (replicate (N.to_nat (3 + n)) 0 ++ done) r2
        else
          '(n, r2) ← read_bits 7 r1;
          read_lengths fuel' h total (replicate (N.to_nat (11 + n)) 0 ++ done) r2
    end.

Definition dynamic_codes (fuel : nat) (r : reader)
  : option (huffman * huffman * reader) :=
  '(hlit, r1) ← read_bits 5 r;
  '(hdist, r2) ← read_bits 5 r1;
  '(hclen, r3) ← read_bits 4 r2;
  '(cls, r4) ← read_many (N.to_nat (hclen + 4)) 3 r3;
  let table :=
    fold_left (fun t p => <[fst p := snd p]> t) (zip length_order cls)
              (replicate 19 0) in
  '(lens, r5) ← read_lengths fuel (huffman_of table)
                  (N.to_nat (hlit + 257) + N.to_nat (hdist + 1)) [] r4;
  if (N.to_nat (hlit + 257) + N.to_nat (hdist + 1) <? length lens)%nat then None
  else
    Some (huffman_of (take (N.to_nat (hlit + 257)) lens),
          huffman_of (drop (N.to_nat (hlit + 257)) lens), r5).

(** What a block added to the history, in the order of the output. *)
Definition produced (before after : list N) : list N :=
  rev (take (length after - length before) after).

Fixpoint inflate_blocks (fuel : nat) (r : reader) (history : list N) : stream :=
  match fuel with
  | O => Errored
  | S fuel' =>
      match read_bits 1 r with
      | None => Errored
      | Some (final, r1) =>
          match read_bits 2 r1 with
          | None => Errored
          | Some (btype, r2) =>
              let finish (r' : reader) (history' : list N) : stream :=
                Chunk (produced history history')
                  (if final =? 1
                   then match align r' with [] => Done | _ => Errored end
                   else inflate_blocks fuel' r' history') in
              if btype =? 0 then
                match align r2 with
                | l0 :: l1 :: n0 :: n1 :: data =>
                    let len := l0 + 256 * l1 in
                    if negb (len + (n0 + 256 * n1) =? 65535) then Errored
                    else if N.of_nat (length data) <? len then Errored
                    else finish (drop (N.to_nat len) data, O)
                                (rev (take (N.to_nat len) data) ++ history)
                | _ => Errored
                end
              else if btype =? 1 then
                match inflate_codes fuel' fixed_literals fixed_distances r2
                        history with
                | Some (history', r') => finish r' history'
                | None => Errored
                end
              else if btype =? 2 then
                match dynamic_codes fuel' r2 with
                | Some (lit, dist, r3) =>
                    match inflate_codes fuel' lit dist r3 history with
                    | Some (history', r') => finish r' history'
                    | None => Errored
                    end
                | None => Errored
                end
              else Errored
          end
      end
  end.

Definition inflate (bs : list N) : stream :=
  inflate_blocks (S (8 * length bs)) (bs, O) [].

(** *** A small XML parser

    Elements, attributes in single or double quotes, text, the five named
    entities and numeric character references, comments, processing
    instructions and CDATA sections.  A text that is not well formed gives
    a document with a [parsererror] element, as browsers do. *)

Inductive token :=
| TOpen (name : jsstring) (attrs : list (jsstring * jsstring)) (empty : bool)
| TClose (name : jsstring)
| TText (data : jsstring).

Definition is_xml_space (c : N) : bool :=
  unit_eqb c 32 || unit_eqb c 9 || unit_eqb c 10 || unit_eqb c 13.

Definition is_name_char (c : N) : bool :=
  is_letter c || is_digit c ||
  existsb (unit_eqb c) [95; 45; 46; 58] || (128 <=? c).

Fixpoint span (f : N -> bool) (s : jsstring) : jsstring * jsstring :=
  match s with
  | c :: s' => if f c then let '(a, b) := span f s' in (c :: a, b) else ([], s)
  | [] => ([], [])
  end.

(** The text up to the first occurrence of [stop], and the text after it. *)
Fixpoint split_at (stop : jsstring) (s : jsstring) : option (jsstring * jsstring) :=
  if starts_with stop s then Some ([], drop (length stop) s)
  else match s with
       | c :: s' => '(a, b) ← split_at stop s'; Some (c :: a, b)
       | [] => None
       end.

Definition hex_number (s : jsstring) : option N :=
  foldl (fun acc c => a ← acc; d ← hex_value c; Some (16 * a + d)) (Some 0) s.

Definition decimal_number (s : jsstring) : option N :=
  foldl (fun acc c => a ← acc;
                      if is_digit c then Some (10 * a + (c - 48)) else None)
        (Some 0) s.

(** The characters of a reference [&name;], [name] given. *)
Definition reference (name : jsstring) : option jsstring :=
  if str_eqb name (lit "lt") then Some [60]
  else if str_eqb name (lit "gt") then Some [62]
  else if str_eqb name (lit "amp") then Some [38]
  else if str_eqb name (lit "quot") then Some [34]
  else if str_eqb name (lit "apos") then Some [39]
  else match name with
       | 35 :: 120 :: digits => code_units <$> hex_number digits
       | 35 :: digits => code_units <$> decimal_number digits
       | _ => None
       end.

Fixpoint unescape (skip : nat) (s : jsstring) : option jsstring :=
  match s with
  | [] => Some []
  | c :: s' =>
      match skip with
      | S k => unescape k s'
      | O =>
          if unit_eqb c 38 then
            '(name, _) ← split_at [59] s';
            text ← reference name;
            rest ← unescape (S (length name)) s';
            Some (text ++ rest)
          else cons c <$> unescape O s'
      end
  end.

Fixpoint lex_attrs (fuel : nat) (s : jsstring)
  : option (list (jsstring * jsstring) * jsstring) :=
  match fuel with
  | O => None
  | S fuel' =>
      let s1 := snd (span is_xml_space s) in
      let '(name, s2) := span is_name_char s1 in
      match name with
      | [] => Some ([], s1)
      | _ =>
          match snd (span is_xml_space s2) with
          | 61 :: s3 =>
              match snd (span is_xml_space s3) with
              | q :: s4 =>
                  if unit_eqb q 34 || unit_eqb q 39 then
                    '(raw, s5) ← split_at [q] s4;
                    value ← unescape O raw;
                    '(attrs, s6) ← lex_attrs fuel' s5;
                    Some ((name, value) :: attrs, s6)
                  else None
              | [] => None
              end
          | _ => None
          end
      end
  end.

Fixpoint lex (fuel : nat) (s : jsstring) : option (list token) :=
  match fuel with
  | O => None
  | S fuel' =>
      match s with
      | [] => Some []
      | 60 :: s' =>
          if starts_with (lit "!--") s' then
            '(_, rest) ← split_at (lit "-->") s'; lex fuel' rest
          else if starts_with (lit "![CDATA[") s' then
            '(data, rest) ← split_at (lit "]]>") (drop 8 s');
            cons (TText data) <$> lex fuel' rest
          else if starts_with (lit "?") s' then
            '(_, rest) ← split_at (lit "?>") s'; lex fuel' rest
          else if starts_with (lit "/") s' then
            let '(name, s1) := span is_name_char (drop 1 s') in
            match name, snd (span is_xml_space s1) with
            | _ :: _, 62 :: rest => cons (TClose name) <$> lex fuel' rest
            | _, _ => None
            end
          else
            let '(name, s1) := span is_name_char s' in
            match name with
            | [] => None
            | _ =>
                '(attrs, s2) ← lex_attrs fuel' s1;
                match s2 with
                | 47 :: 62 :: rest => cons (TOpen name attrs true) <$> lex fuel' rest
                | 62 :: rest => cons (TOpen name attrs false) <$> lex fuel' rest
                | _ => None
                end
            end
      | _ =>
          let '(raw, rest) := span (fun c => negb (unit_eqb c 60)) s in
          data ← unescape O raw;
          cons (TText data) <$> lex fuel' rest
      end
  end.

(** The elements that are open, innermost first, each with the children it
    has so far, latest first. *)
Definition open_elements : Type :=
  list (jsstring * list (jsstring * jsstring) * list node).

Definition add_child (n : node) (stack : open_elements) : option open_elements :=
  match stack with
  | (name, attrs, kids) :: stack' => Some ((name, attrs, n :: kids) :: stack')
  | [] => None
  end.

Definition all_space (s : jsstring) : bool := forallb is_xml_space s.

(** The tree of a list of tokens; [root] is the document element once it
    is closed. *)
Fixpoint build (tokens : list token) (stack : open_elements) (root : option node)
  : option node :=
  match tokens with
  | [] => match stack with [] => root | _ => None end
  | TText data :: rest =>
      match stack with
      | [] => if all_space data then build rest stack root else None
      | _ => stack' ← add_child (Text data) stack; build rest stack' root
      end
  | TOpen name attrs true :: rest =>
      match stack, root with
      | [], None => build rest [] (Some (Elem name attrs []))
      | [], Some _ => None
      | _, _ => stack' ← add_child (Elem name attrs []) stack; build rest stack' root
      end
  | TOpen name attrs false :: rest =>
      match stack, root with
      | [], Some _ => None
      | _, _ => build rest ((name, attrs, []) :: stack) root
      end
  | TClose name :: rest =>
      match stack with
      | (name', attrs, kids) :: stack' =>
          if str_eqb name name' then
            let element := Elem name attrs (rev kids) in
            match stack' with
            | [] => build rest [] (Some element)
            | _ => stack'' ← add_child element stack'; build rest stack'' root
            end
          else None
      | [] => None
      end
  end.

Definition document_node (root : node) : node := Elem (lit "#document") [] [root].

Definition parsererror_document : node :=
  document_node
    (Elem (lit "parsererror") [] [Text (lit "XML Parsing Error: not well-formed")]).

Definition parse_xml (s : jsstring) : node :=
  match lex (S (length s)) s ≫= (fun tokens => build tokens [] None) with
  | Some root => document_node root
  | None => parsererror_document
  end.

(** A compressor that [inflate] undoes: every byte in a stored block of
    its own, and an empty last block. *)
Fixpoint stored_deflate (bs : list N) : list N :=
  match bs with
  | [] => [1; 0; 0; 255; 255]
  | b :: bs' => [0; 1; 0; 254; 255; b] ++ stored_deflate bs'
  end.

Definition demo_platform : Platform :=
  {| parseFromString := parse_xml;
     innerHTML_text := demo_text;
     inflate_raw := inflate |}.

(** *** Models and files for the examples *)

(** [<mxGraphModel/>]: a model without [root] element. *)
Definition rootless_model : node := Elem (lit "mxGraphModel") [] [].

(** A vertex cell with the given id and geometry attributes. *)
Definition vertex_cell (id : string) (geometry : list (string * string)) : node :=
  Elem (lit "mxCell") [(lit "id", lit id); (lit "vertex", lit "1")]
    [Elem (lit "mxGeometry")
       (map (fun kv => (lit (fst kv), lit (snd kv))) geometry
        ++ [(lit "as", lit "geometry")]) []].

(** An edge cell between two ids, without points of its own. *)
Definition edge_cell (id source target : string) : node :=
  Elem (lit "mxCell")
    [(lit "id", lit id); (lit "edge", lit "1");
     (lit "source", lit source); (lit "target", lit target)]
    [Elem (lit "mxGeometry") [(lit "relative", lit "1"); (lit "as", lit "geometry")] []].

Definition model_of (cells : list node) : node :=
  Elem (lit "mxGraphModel") [] [Elem (lit "root") [] cells].

(** One vertex whose [x] reads [Infinity]. *)
Definition far_model : node :=
  model_of [vertex_cell "a" [("x", "Infinity"); ("y", "0");
                             ("width", "100"); ("height", "40")]%string].

(** One vertex whose [x] reads [1e400]. *)
Definition overflow_model : node :=
  model_of [vertex_cell "a" [("x", "1e400"); ("y", "0");
                             ("width", "100"); ("height", "40")]%string].

(** One vertex without [width] and [height]. *)
Definition bare_model : node :=
  model_of [vertex_cell "a" [("x", "10"); ("y", "20")]%string].

(** Two boxes 100 wide and 0.4 high whose centres are 200 apart on a
    horizontal line. *)
Definition flat_box (x : Z) : box :=
  {| box_x := num x; box_y := num 0; box_width := num 100;
     box_height := parseFloat (lit "0.4") |}.

(** The example of the specification: boxes [a] and [b], 100 by 40, at
    (0, 0) and (200, 0), and an edge between them. *)
Definition two_boxes : list node :=
  [vertex_cell "a" [("x", "0"); ("y", "0"); ("width", "100"); ("height", "40")];
   vertex_cell "b" [("x", "200"); ("y", "0"); ("width", "100"); ("height", "40")];
   edge_cell "e" "a" "b"]%string.

(** A page with its model element inside, as text and as element, and the
    text of a file of several such pages. *)
Definition page_text : string :=
  "<diagram><mxGraphModel><root/></mxGraphModel></diagram>".

Definition page_element : node :=
  Elem (lit "diagram") []
    [Elem (lit "mxGraphModel") [] [Elem (lit "root") [] []]].

Definition file_text (pages : nat) : jsstring :=
  lit "<mxfile>" ++ concat (replicate pages (lit page_text)) ++ lit "</mxfile>".

(** The text of a model, and the same text as the payload of a page: the
    result of the forward transform with [stored_deflate]. *)
Definition model_text : jsstring := lit "<mxGraphModel><root/></mxGraphModel>".

Definition compressed_model_text : jsstring :=
  match forward stored_deflate true model_text with
  | Ok compressed => compressed
  | Throw _ => []
  end.

(** A file of one page whose [diagram] element holds the given text, and
    that element. *)
Definition text_file (payload : jsstring) : jsstring :=
  lit "<mxfile><diagram>" ++ payload ++ lit "</diagram></mxfile>".

Definition text_page (payload : jsstring) : node :=
  Elem (lit "diagram") [] [Text payload].

(** A page payload that holds [model_text] as plain text, and the text and
    payload of a page that holds the model tag as the beginning of another
    name. *)
Definition plain_model_payload : jsstring :=
  lit "&lt;mxGraphModel&gt;&lt;root/&gt;&lt;/mxGraphModel&gt;".

Definition other_name_text : jsstring := lit "<mxGraphModelX/>".

Definition other_name_payload : jsstring := lit "&lt;mxGraphModelX/&gt;".

(** The model of a drawing: a rounded box [a], an ellipse [b] and an edge
    from [a] to [b]. *)
Definition drawing_text : jsstring :=
  lit "<mxGraphModel><root><mxCell id='0'/><mxCell id='1' parent='0'/><mxCe" ++
  lit "ll id='a' value='A' style='rounded=1;' vertex='1' parent='1'><mxGeom" ++
  lit "etry x='0' y='0' width='100' height='40' as='geometry'/></mxCell><mx" ++
  lit "Cell id='b' value='B' style='ellipse;' vertex='1' parent='1'><mxGeom" ++
  lit "etry x='200' y='0' width='100' height='40' as='geometry'/></mxCell><" ++
  lit "mxCell id='e' edge='1' source='a' target='b' parent='1'><mxGeometry " ++
  lit "relative='1' as='geometry'/></mxCell></root></mxGraphModel>".

(** The same model as a page payload: URI-component-encoded, compressed by
    zlib (raw deflate, one block with dynamic codes) and written in
    base64url. *)
Definition drawing_payload : jsstring :=
  lit "vVLBroIwEPyaxmul7wcUn57eR1Q7gSbFkmVB-HvbihASouYdvM1kZ6cz6QqVV_2JdF3-" ++
  lit "eQMn1K9QOXnPD1T1OZwTmbRGqMNGbkR2XJ1sw0TWmnDl10IdhZ12LSLbRdbw4BIj314N" ++
  lit "omwr1D4JQYx-5YFAR_cTfAWmIYz759NymNDNGi7Thky8hC3KZPGTuG4iLkaTOXYAY_K1" ++
  lit "FudFi_2iRdDZusH_G2TyKx0QV2EKTOEa39IF0y-xpgI81X0TneA02252-zBVoPO9pdni" ++
  lit "HO8=".

(** A widget that holds the given file. *)
Definition widget_with (xml : jsstring) : widget :=
  set_diagramXml (Some xml) new_widget.

(** The three-page file is opened, the last page is reached, and the file
    changes to the one-page file. *)
Definition shrinking_reload : list event :=
  [Load (file_text 3); ClickNext; ClickNext; Load (file_text 1)].


(** ** More vocabulary: what the methods of the widget leave alone *)

(** Two states that differ at most in what the container shows and in the
    two logs. *)
Definition same_but_container (w w' : widget) : Prop :=
  _currentPage w' = _currentPage w /\ _totalPages w' = _totalPages w /\
  _diagramXml w' = _diagramXml w /\ toolbar w' = toolbar w /\
  error_shown w' = error_shown w /\ _ready w' = _ready w.

(** The toolbar agrees with the page fields: while it is hidden the index
    is 0 and the count 1; once filled, it shows the index plus one, and a
    count of at least two that is the page count unless a later document
    had one page. *)
Definition toolbar_consistent (w : widget) : Prop :=
  match toolbar w with
  | Some (shownPage, shownTotal) =>
      shownPage = (_currentPage w + 1)%Z /\ (2 <= shownTotal)%Z /\
      (_totalPages w = shownTotal \/ _totalPages w = 1%Z)
  | None => _currentPage w = 0%Z /\ _totalPages w = 1%Z
  end.

(** The page index is a valid index into a list of pages. *)
Definition is_page_of (pages : list node) (i : Z) : Prop :=
  (0 <= i < Z.of_nat (length pages))%Z.

(** What a run of [_renderPage] can be. *)
Inductive page_run `{Platform} (i : Z) (w : widget) : result unit * widget -> Prop :=
| run_nothing :
    _diagramXml w = None \/ _diagramXml w = Some [] ->
    page_run i w (Ok tt, w)
| run_drawn xml m w1 :
    _diagramXml w = Some xml -> xml <> [] ->
    same_but_container w w1 ->
    page_run i w (Ok tt, set_container (Diagram (_mxGraphToSvg m)) w1)
| run_no_content xml :
    _diagramXml w = Some xml -> xml <> [] ->
    pages_of xml = [] ->
    querySelector (ByTag (lit "mxGraphModel")) (parseFromString xml) = None ->
    page_run i w (Throw NoDiagramContentFound, log_parse xml w)
| run_no_page xml :
    _diagramXml w = Some xml -> xml <> [] ->
    pages_of xml <> [] -> ~ is_page_of (pages_of xml) i ->
    page_run i w (Throw (PageNNotFound (i + 1)), log_parse xml w)
| run_unparsable xml diagram w1 :
    _diagramXml w = Some xml -> xml <> [] ->
    item (pages_of xml) i = Some diagram ->
    querySelector (ByTag (lit "mxGraphModel")) diagram = None ->
    same_but_container w w1 -> container w1 = container w ->
    page_run i w (Throw CouldNotParseDiagramContent, w1).


(** The state in which [_renderDiagram] calls [_renderPage]: the document
    and the page count are stored, and the toolbar is filled when there is
    more than one page. *)
Definition prepared `{Platform} (content : jsstring) (w : widget) : widget :=
  let total := page_count (pages_of content) in
  let w1 := set_totalPages total
              (set_diagramXml (Some content) (log_parse content w)) in
  if (total >? 1)%Z
  then set_toolbar (Some (_currentPage w + 1, total)%Z) w1
  else w1.

(** The errors the widget raises itself. *)
Definition is_widget_error (e : exn) : Prop :=
  match e with
  | EmptyDiagramFile | InvalidXML _ | NoDiagramContentFound
  | PageNNotFound _ | CouldNotParseDiagramContent => True
  | _ => False
  end.

(** A file of two pages whose second page holds neither a model nor
    base64 text. *)
Definition broken_second_page : jsstring :=
  lit "<mxfile>" ++ lit page_text ++ lit "<diagram>!!!</diagram>"
  ++ lit "</mxfile>".

(** *** Edges, continued *)

(** An edge cell whose geometry holds a source point and a target point. *)
Definition pointed_edge : node :=
  Elem (lit "mxCell") [(lit "id", lit "e"); (lit "edge", lit "1")]
    [Elem (lit "mxGeometry") [(lit "relative", lit "1"); (lit "as", lit "geometry")]
       [Elem (lit "mxPoint")
          [(lit "x", lit "10"); (lit "y", lit "20"); (lit "as", lit "sourcePoint")] [];
        Elem (lit "mxPoint")
          [(lit "x", lit "30"); (lit "y", lit "40"); (lit "as", lit "targetPoint")] []]].

(** *** The layout, continued *)

(** The ids under which the first pass stores a box, in document order. *)
Definition vertex_ids (cells : list node) : list jsstring :=
  omap (fun cell => (fun _ => cell_id cell) <$> cell_box cell) cells.

(** The entries the first pass stores, in document order. *)
Definition vertex_entries (cells : list node) : list (jsstring * box) :=
  omap (fun cell => (fun b => (cell_id cell, b)) <$> cell_box cell) cells.



(** An edge whose own points lie far from any box. *)
Definition far_edge : node :=
  Elem (lit "mxCell") [(lit "id", lit "f"); (lit "edge", lit "1")]
    [Elem (lit "mxGeometry") [(lit "relative", lit "1"); (lit "as", lit "geometry")]
       [Elem (lit "mxPoint")
          [(lit "x", lit "-5000"); (lit "y", lit "0"); (lit "as", lit "sourcePoint")] [];
        Elem (lit "mxPoint")
          [(lit "x", lit "5000"); (lit "y", lit "9000"); (lit "as", lit "targetPoint")] []]].

(** *** The codec, continued *)

(** The characters of the two base64 alphabets: letters, digits,
    [+ / - _]. *)
Definition is_base64_char (c : N) : bool :=
  in_range 65 90 c || in_range 97 122 c || in_range 48 57 c ||
  existsb (unit_eqb c) [43; 47; 45; 95].

(** A text with its ASCII white space removed. *)
Definition without_whitespace (s : jsstring) : jsstring :=
  filter (fun c => is_ascii_whitespace c = false) s.


(** * Properties *)

(** ** The functions of the browser at work *)

Example parseFloat_examples :
  map parseFloat [lit "100"; lit " -12.50e1px"; lit ".5"; lit "5."; lit "1e";
                  lit "abc"; lit "."; lit "-Infinity"; lit "-0"] =
  [num 100; num (-125); half; num 5; num 1; NaN; NaN; NInf; S754_zero true].
Proof. vm_compute. reflexivity. Qed.

(** [parseFloat] rounds to the nearest double, overflows to [Infinity] and
    underflows to zero. *)
Example parseFloat_rounding :
  parseFloat (lit "1.2") = one_point_two /\
  parseFloat (lit "0.1") = S754_finite false 7205759403792794 (-56) /\
  parseFloat (lit "9007199254740993") = num 9007199254740992 /\
  parseFloat (lit "1.7976931348623157e308")
    = S754_finite false 9007199254740991 971 /\
  parseFloat (lit "1e400") = PInf /\
  parseFloat (lit "5e-324") = S754_finite false 1 (-1074) /\
  parseFloat (lit "2.47e-324") = S754_zero false /\
  parseFloat (lit "1e-400") = S754_zero false.
Proof. repeat split; vm_compute; reflexivity. Qed.

(** The arithmetic is the one of doubles: [12 * 1.2] is
    [14.399999999999999] and [0.1 + 0.2] is [0.30000000000000004]. *)
Example number_examples :
  (num 20 / nabs (num 0) = PInf /\ num 0 / num 0 = NaN /\
   nmin PInf NaN = NaN /\ nmin (num 0) (S754_zero true) = S754_zero true /\
   nmax (S754_zero true) (num 0) = num 0 /\
   or_num (num 0) (num 1) = num 1 /\ or_num (S754_zero true) (num 1) = num 1 /\
   or_num NaN (num 0) = num 0 /\
   num 12 * one_point_two = parseFloat (lit "14.399999999999999") /\
   num 12 * one_point_two <> parseFloat (lit "14.4") /\
   parseFloat (lit "0.1") + parseFloat (lit "0.2")
     = parseFloat (lit "0.30000000000000004") /\
   num 1 / num 3 = parseFloat (lit "0.3333333333333333") /\
   nsqrt (num 2) = parseFloat (lit "1.4142135623730951") /\
   parseFloat (lit "1e308") * num 10 = PInf /\
   parseFloat (lit "5e-324") / num 2 = num 0)%num.
Proof. repeat split; vm_compute; (reflexivity || discriminate). Qed.

Example trim_example : trim (lit "  a b" ++ [9; 160; 8232]) = lit "a b".
Proof. vm_compute. reflexivity. Qed.

Example split_examples :
  split_on 59 (lit "a=1;;b") = [lit "a=1"; []; lit "b"] /\
  split_on 61 (lit "a=b=c") = [lit "a"; lit "b"; lit "c"] /\
  split_on 59 [] = [[]].
Proof. repeat split. Qed.

Example split_breaks_examples :
  split_breaks O (lit "one<br>two<BR  />three" ++ [10] ++ lit "four<br/five") =
  [lit "one"; lit "two"; lit "three"; lit "four<br/five"] /\
  split_breaks O [] = [[]].
Proof. split; vm_compute; reflexivity. Qed.

Example atob_examples :
  atob (lit "aGVsbG8=") = Ok (lit "hello") /\
  atob (lit "aGVs bG8") = Ok (lit "hello") /\
  atob (lit "aGVsb") = Throw InvalidCharacterError /\
  atob (lit "aGVsbG8_") = Throw InvalidCharacterError.
Proof. repeat split; vm_compute; reflexivity. Qed.

Example TextDecoder_examples :
  TextDecoder_decode [239; 187; 191; 97; 195; 169; 226; 130; 172;
                      240; 159; 152; 128; 255; 226; 130] =
  [97; 233; 8364; 55357; 56832; 65533; 65533].
Proof. vm_compute. reflexivity. Qed.

Example decodeURIComponent_examples :
  decodeURIComponent (lit "a%20%E2%82%AC%F0%9F%98%80") =
    Ok [97; 32; 8364; 55357; 56832] /\
  decodeURIComponent (lit "100%") = Throw URIError /\
  decodeURIComponent (lit "%C0%80") = Throw URIError /\
  decodeURIComponent (lit "%ED%A0%80") = Throw URIError.
Proof. repeat split; vm_compute; reflexivity. Qed.

Example encodeURIComponent_examples :
  encodeURIComponent (lit "<a b='c'/> " ++ [233; 55357; 56832]) =
    Ok (lit "%3Ca%20b%3D'c'%2F%3E%20%C3%A9%F0%9F%98%80") /\
  encodeURIComponent [55357] = Throw URIError.
Proof. split; vm_compute; reflexivity. Qed.

(** Output of zlib for [hello hello hello hello] (one block with the fixed
    codes and a copy from 6 bytes back). *)
Example inflate_fixed_block :
  stream_chunks (inflate [203; 72; 205; 201; 201; 87; 200; 64; 39; 1]) =
  Some [lit "hello hello hello hello"].
Proof. vm_compute. reflexivity. Qed.

(** ** Strings *)

Lemma unit_eqb_eq a b : unit_eqb a b = true <-> a = b.
Proof. unfold unit_eqb. apply N.eqb_eq. Qed.

Lemma unit_eqb_refl a : unit_eqb a a = true.
Proof. apply unit_eqb_eq. reflexivity. Qed.

Lemma str_eqb_eq s t : str_eqb s t = true <-> s = t.
Proof.
  revert t. induction s as [|a s IH]; intros [|b t]; simpl; try (split; congruence).
  rewrite andb_true_iff, unit_eqb_eq, IH. split.
  - intros [-> ->]. reflexivity.
  - intros [= -> ->]. auto.
Qed.

Lemma str_eqb_refl s : str_eqb s s = true.
Proof. apply str_eqb_eq. reflexivity. Qed.

Lemma str_eqb_neq s t : str_eqb s t = false <-> s <> t.
Proof.
  rewrite <- str_eqb_eq. destruct (str_eqb s t); split; congruence.
Qed.

Lemma starts_with_spec p s : starts_with p s = true <-> exists r, s = p ++ r.
Proof.
  revert s. induction p as [|a p IH]; intros s; simpl.
  - split; eauto.
  - destruct s as [|b s].
    + split; [discriminate | intros [r Hr]; discriminate].
    + rewrite andb_true_iff, unit_eqb_eq, IH. split.
      * intros [-> [r ->]]. eauto.
      * intros [r [= -> ->]]. eauto.
Qed.

Lemma includes_spec p s : includes p s = true <-> occurs_in p s.
Proof.
  induction s as [|c s IH].
  - simpl. rewrite orb_false_r, starts_with_spec. split.
    + intros [r Hr]. exists [], r. exact Hr.
    + intros [a [b Hab]]. symmetry in Hab.
      apply app_eq_nil in Hab as [-> Hab]. apply app_eq_nil in Hab as [-> ->].
      exists []. reflexivity.
  - cbn [includes]. rewrite orb_true_iff, starts_with_spec, IH. split.
    + intros [[r Hr] | [a [b Hab]]].
      * exists [], r. exact Hr.
      * exists (c :: a), b. rewrite Hab. reflexivity.
    + intros [[|x a] [b Hab]].
      * left. exists b. exact Hab.
      * right. injection Hab as -> ->. exists a, b. reflexivity.
Qed.

Lemma occurs_in_refl s : occurs_in s s.
Proof. exists [], []. rewrite app_nil_r. reflexivity. Qed.

Lemma occurs_in_trans p q s : occurs_in p q -> occurs_in q s -> occurs_in p s.
Proof.
  intros [a [b ->]] [c [d ->]]. exists (c ++ a), (b ++ d).
  rewrite <- !app_assoc. reflexivity.
Qed.

Lemma trim_start_suffix s : exists a, s = a ++ trim_start s.
Proof.
  induction s as [|c s [a IH]]; simpl.
  - exists []. reflexivity.
  - destruct (is_js_space c).
    + exists (c :: a). simpl. congruence.
    + exists []. reflexivity.
Qed.

Lemma trim_occurs s : occurs_in (trim s) s.
Proof.
  unfold trim, trim_end.
  destruct (trim_start_suffix s) as [a Ha].
  destruct (trim_start_suffix (rev (trim_start s))) as [b Hb].
  exists a, (rev b). rewrite Ha at 1. f_equal.
  rewrite <- (rev_involutive (trim_start s)) at 1. rewrite Hb at 1.
  rewrite rev_app_distr. reflexivity.
Qed.

Lemma split_on_nonempty sep s : split_on sep s <> [].
Proof.
  destruct s as [|c s]; simpl; [discriminate|].
  destruct (unit_eqb c sep); [discriminate|].
  destruct (split_on sep s); discriminate.
Qed.

Lemma split_on_head_prefix sep s seg segs :
  split_on sep s = seg :: segs -> exists b, s = seg ++ b.
Proof.
  revert seg segs. induction s as [|c s IH]; intros seg segs; simpl.
  - intros [= <- <-]. exists []. reflexivity.
  - destruct (unit_eqb c sep).
    + intros [= <- <-]. exists (c :: s). reflexivity.
    + destruct (split_on sep s) as [|seg0 segs0] eqn:E.
      * intros [= <- <-]. exfalso. exact (split_on_nonempty _ _ E).
      * intros [= <- <-]. destruct (IH _ _ eq_refl) as [b ->].
        exists b. reflexivity.
Qed.

Lemma split_on_occurs sep s seg : In seg (split_on sep s) -> occurs_in seg s.
Proof.
  revert seg. induction s as [|c s IH]; intros seg; simpl.
  - intros [<- | []]. apply occurs_in_refl.
  - destruct (unit_eqb c sep).
    + intros [<- | Hin].
      * exists [], (c :: s). reflexivity.
      * destruct (IH _ Hin) as [a [b ->]]. exists (c :: a), b. reflexivity.
    + destruct (split_on sep s) as [|seg0 segs] eqn:E.
      * exfalso. exact (split_on_nonempty _ _ E).
      * intros [<- | Hin].
        -- destruct (split_on_head_prefix _ _ _ _ E) as [b ->].
           exists [], b. reflexivity.
        -- destruct (IH seg (or_intror Hin)) as [a [b ->]].
           exists (c :: a), b. reflexivity.
Qed.

(** ** The style micro-parser *)

Lemma parse_part_declared result part :
  parse_part result part =
  match declared part with
  | Some (k, v) => <[k := v]> result
  | None => result
  end.
Proof.
  unfold parse_part, declared, obj_set.
  destruct (split_on 61 part) as [|key [|v rest]]; simpl; try reflexivity.
  destruct (truthy_str key); simpl; [|reflexivity].
  destruct (str_eqb (trim key) (lit "__proto__")); reflexivity.
Qed.

Lemma fold_parse_part (parts : list jsstring) (m : gmap jsstring jsstring) :
  fold_left parse_part parts m =
  list_to_map (rev (omap declared parts)) ∪ m.
Proof.
  revert m. induction parts as [|p parts IH]; intros m; simpl.
  - rewrite (left_id_L ∅ (∪)). reflexivity.
  - rewrite IH, parse_part_declared.
    destruct (declared p) as [[k v]|]; [|reflexivity].
    cbn [rev]. rewrite list_to_map_app. cbn [list_to_map foldr fst snd curry].
    rewrite <- (assoc_L (∪)). f_equal.
    rewrite insert_union_singleton_l.
    rewrite insert_empty. reflexivity.
Qed.

(** The parser is total, and its result holds for each key the value of
    the last pair that declares it. *)
Lemma parseStyle_entries style :
  _parseStyle style = list_to_map (rev (style_entries style)).
Proof.
  unfold _parseStyle, style_entries.
  destruct style as [|c s]; [reflexivity|].
  cbn [truthy_str]. rewrite fold_parse_part.
  rewrite (right_id_L ∅ (∪)). reflexivity.
Qed.

Lemma parseStyle_empty : _parseStyle [] = ∅.
Proof. reflexivity. Qed.

Lemma split_on_absent sep s :
  Forall (fun c => c <> sep) s -> split_on sep s = [s].
Proof.
  induction 1 as [|c s Hc _ IH]; simpl; [reflexivity|].
  destruct (unit_eqb c sep) eqn:E.
  - apply unit_eqb_eq in E. contradiction.
  - rewrite IH. reflexivity.
Qed.

(** White space alone declares nothing. *)
Lemma parseStyle_blank style :
  Forall (fun c => is_js_space c = true) style -> _parseStyle style = ∅.
Proof.
  intros Hs. rewrite parseStyle_entries. unfold style_entries.
  rewrite (split_on_absent 59).
  - cbn [omap list_omap]. unfold declared. rewrite (split_on_absent 61).
    + reflexivity.
    + eapply Forall_impl; [exact Hs|]. intros c Hc ->. discriminate.
  - eapply Forall_impl; [exact Hs|]. intros c Hc ->. discriminate.
Qed.

Example parseStyle_last_wins :
  _parseStyle (lit "a=1;a=2") = {[ lit "a" := lit "2" ]}.
Proof. vm_compute. reflexivity. Qed.

(** C2 (the code departs from the claim): for the part [a=b=c] the parser
    keeps the text between the first and the second [=] as the value, [b],
    and not everything after the first [=], [b=c]. *)
Theorem parseStyle_value_stops_at_second_equals :
  _parseStyle (lit "a=b=c") !! lit "a" = Some (lit "b") /\
  _parseStyle (lit "a=b=c") !! lit "a" <> Some (lit "b=c").
Proof. split; [vm_compute; reflexivity | vm_compute; discriminate]. Qed.

Lemma declared_value_occurs part k v :
  declared part = Some (k, v) -> occurs_in v part.
Proof.
  unfold declared.
  destruct (split_on 61 part) as [|key [|v0 rest]] eqn:E; try discriminate.
  destruct (truthy_str key && negb (str_eqb (trim key) (lit "__proto__")));
    [|discriminate].
  intros [= <- <-].
  apply occurs_in_trans with v0; [apply trim_occurs|].
  apply (split_on_occurs 61). rewrite E. right. left. reflexivity.
Qed.

(** Every value of the parsed style is a piece of the style string. *)
Lemma parseStyle_value_occurs style k v :
  _parseStyle style !! k = Some v -> occurs_in v style.
Proof.
  rewrite parseStyle_entries. intros Hk.
  apply elem_of_list_to_map_2 in Hk.
  apply list_elem_of_In, in_rev, list_elem_of_In in Hk.
  unfold style_entries in Hk. apply list_elem_of_omap in Hk as [part [Hin Hd]].
  apply occurs_in_trans with part; [eapply declared_value_occurs; eauto|].
  apply (split_on_occurs 59). apply list_elem_of_In. exact Hin.
Qed.

(** ** Shape selection *)

Lemma shape_kind_first_keyword shape style :
  shape_kind shape style =
  first_keyword (fun kw => str_eqb shape kw || includes kw style).
Proof.
  unfold shape_kind, first_keyword, shape_keywords. cbn [List.find fst].
  repeat match goal with
         | |- context [if ?b then _ else _] => destruct b; try reflexivity
         end.
Qed.

Lemma shape_of_occurs style kw :
  kw <> [] -> str_eqb (shape_of style) kw = true -> includes kw style = true.
Proof.
  unfold shape_of, style_or, or_str. intros Hne Heq.
  destruct (_parseStyle style !! lit "shape") as [v|] eqn:Hv.
  - destruct (truthy_str v).
    + apply str_eqb_eq in Heq. subst v. apply includes_spec.
      eapply parseStyle_value_occurs; eauto.
    + apply str_eqb_eq in Heq. exfalso. apply Hne. rewrite <- Heq. reflexivity.
  - apply str_eqb_eq in Heq. exfalso. apply Hne. rewrite <- Heq. reflexivity.
Qed.

(** The [shape] key never changes the selection: a keyword it names occurs
    in the style string. *)
Lemma shape_kind_by_substring style :
  shape_kind (shape_of style) style = first_keyword (fun kw => includes kw style).
Proof.
  unfold shape_kind, first_keyword, shape_keywords. cbn [List.find fst].
  repeat match goal with
         | |- context [str_eqb (shape_of style) ?kw || includes ?kw style] =>
             let E := fresh "E" in
             let I := fresh "I" in
             destruct (includes kw style) eqn:I;
             [rewrite orb_true_r; try reflexivity
             |rewrite orb_false_r;
              destruct (str_eqb (shape_of style) kw) eqn:E;
              [apply shape_of_occurs in E; [congruence | discriminate]|]]
         end.
  reflexivity.
Qed.

Lemma style_is_1_spec styles key :
  style_is_1 styles key = true <-> styles !! lit key = Some (lit "1").
Proof.
  unfold style_is_1. destruct (styles !! lit key) as [v|].
  - rewrite str_eqb_eq. split; congruence.
  - split; discriminate.
Qed.

(** C4 (as amended): the keywords are tried in the order ellipse, rhombus,
    hexagon, triangle, cylinder; a keyword matches when the [shape] key
    equals it or the whole style string contains it, whether the key is
    present or not (and a key that names a keyword makes the string contain
    it, so the first keyword the string contains wins); without a match the
    shape is a rectangle, which is rounded exactly when the [rounded] key
    is ["1"]. *)
Theorem createShape_selection `{Platform} x y width height style value :
  let styles := _parseStyle style in
  let k := first_keyword
             (fun kw => str_eqb (shape_of style) kw || includes kw style) in
  k = first_keyword (fun kw => includes kw style) /\
  (exists paint,
     shape_of_group (_createShape x y width height style value) =
     Some (SElem (fst (shape_element k x y width height styles))
                 (snd (shape_element k x y width height styles) ++ paint) [])) /\
  (k = Rect ->
   exists corners,
     shape_element k x y width height styles =
       ("rect"%string,
        [("x"%string, ANum x); ("y"%string, ANum y);
         ("width"%string, ANum width); ("height"%string, ANum height)]
        ++ corners) /\
     (styles !! lit "rounded" = Some (lit "1") ->
      corners = [("rx"%string, AStr (lit "5")); ("ry"%string, AStr (lit "5"))]) /\
     (styles !! lit "rounded" <> Some (lit "1") -> corners = [])).
Proof.
  intros styles k. subst k.
  rewrite <- shape_kind_first_keyword.
  split; [apply shape_kind_by_substring|]. split.
  - unfold _createShape, shape_of_group, shape_of. fold styles.
    destruct (shape_element _ x y width height styles) as [tag geom].
    cbn [svg_children head fst snd]. eauto.
  - intros ->. cbn [shape_element].
    eexists. split; [reflexivity|]. split.
    + intros Hr. apply style_is_1_spec in Hr. rewrite Hr. reflexivity.
    + intros Hr. destruct (style_is_1 styles "rounded") eqn:E; [|reflexivity].
      apply style_is_1_spec in E. contradiction.
Qed.

(** C4 (counterexample): with the style [shape=rhombus;a=ellipse] the [shape]
    key is present and names the rhombus, yet the ellipse is selected. *)
Lemma createShape_shape_key_does_not_decide :
  ~ (forall style, shape_kind (shape_of style) style = claimed_shape_kind style).
Proof.
  intros Hall. specialize (Hall (lit "shape=rhombus;a=ellipse")).
  vm_compute in Hall. discriminate.
Qed.

(** ** Numbers *)

(** What [a || 0] and the cap at 0.5 leave: a number that is not [NaN]
    and not above 0.5. *)
Lemma or_num_zero_number a : or_num a (num 0) <> NaN.
Proof. unfold or_num. destruct a; cbn; discriminate. Qed.

Lemma nmin_half a :
  a <> NaN -> nmin a half = half \/ nmin a half = a /\ nlt half a = false.
Proof.
  intros Ha. unfold nmin.
  destruct (nlt half a) eqn:E; destruct a as [[]|[]| |[] m e];
    try contradiction; auto.
Qed.

Lemma nmin_half_capped a :
  a <> NaN -> nmin a half <> NaN /\ nlt half (nmin a half) = false.
Proof.
  intros Ha. destruct (nmin_half a Ha) as [-> | [-> E]].
  - split; [discriminate | reflexivity].
  - split; assumption.
Qed.

(** The sign of a rounded result is the sign that was asked for. *)
Lemma binary_round_aux_sign sx mx ex lx :
  match binary_round_aux prec emax sx mx ex lx with
  | S754_zero s | S754_infinity s | S754_finite s _ _ => s = sx
  | NaN => True
  end.
Proof.
  unfold binary_round_aux.
  destruct (shr_fexp prec emax mx ex lx) as [mrs' e'].
  destruct (shr_fexp prec emax _ e' loc_Exact) as [mrs'' e''].
  destruct (shr_m mrs''); [reflexivity | | exact I].
  destruct (Z.leb e'' (emax - prec)); reflexivity.
Qed.

(** A quotient is not below zero when the dividend is not and the divisor
    has the sign of [Math.abs] or of a positive literal. *)
Lemma ndiv_not_negative a b :
  nlt a (num 0) = false -> plus_sign b = true -> nlt (a / b)%num (num 0) = false.
Proof.
  intros Ha Hb.
  destruct b as [sb|sb| |sb mb eb]; cbn in Hb;
    try (apply negb_true_iff in Hb; subst sb);
    destruct a as [sa|sa| |sa ma ea];
    try reflexivity;
    try (destruct sa; [discriminate Ha | reflexivity]);
    try (destruct sa; reflexivity).
  destruct sa; [discriminate Ha|].
  unfold ndiv, SFdiv.
  destruct (SFdiv_core_binary prec emax (Z.pos ma) ea (Z.pos mb) eb)
    as [[mz ez] lz].
  pose proof (binary_round_aux_sign (xorb false false) mz ez lz) as Hs.
  destruct (binary_round_aux prec emax (xorb false false) mz ez lz);
    cbn in Hs; subst; reflexivity.
Qed.

Lemma nabs_plus_sign a : plus_sign (nabs a) = true.
Proof. destruct a; reflexivity. Qed.

Lemma nmin_cases a b : nmin a b = a \/ nmin a b = b \/ nmin a b = NaN.
Proof.
  unfold nmin. destruct (nlt b a);
    destruct a as [[]|[]| |[] ma ea]; destruct b as [[]|[]| |[] mb eb]; auto.
Qed.

Lemma nmin_not_negative a b :
  nlt a (num 0) = false -> nlt b (num 0) = false ->
  nlt (nmin a b) (num 0) = false.
Proof.
  intros Ha Hb. destruct (nmin_cases a b) as [-> | [-> | ->]];
    [exact Ha | exact Hb | reflexivity].
Qed.

Lemma or_num_not_negative a :
  nlt a (num 0) = false -> nlt (or_num a (num 0)) (num 0) = false.
Proof. intros Ha. unfold or_num. destruct (truthy_num a); [exact Ha | reflexivity]. Qed.

(** ** Labels *)

Lemma imap_tspan_lookup x width startY lineHeight (lines : list jsstring) i line :
  lines !! i = Some line ->
  imap (tspan x width startY lineHeight) lines !! i =
  Some (tspan x width startY lineHeight i line).
Proof. intros Hl. rewrite list_lookup_imap, Hl. reflexivity. Qed.

(** C6: a label that splits into [n >= 2] lines is drawn as [n] [tspan]
    elements inside a [text] element anchored in the middle; line [i] is
    placed at the horizontal centre of the box, [x + width / 2], and at
    [startY + i * lineHeight], where [lineHeight = fontSize * 1.2] and
    [startY = y + height / 2 - ((n - 1) * lineHeight) / 2] puts the block of
    lines around the vertical centre, every operation being the one of
    doubles.  A label of one line is the text of the [text] element itself,
    without [tspan]. *)
Theorem createShape_label_lines `{Platform} x y width height style value :
  truthy_str value = true ->
  let fontSize := style_or (_parseStyle style) "fontSize" "12" in
  let lines := split_breaks O (_stripHtml value) in
  let n := length lines in
  let lineHeight := (parseFloat fontSize * one_point_two)%num in
  let startY :=
    (y + height / two - (num (Z.of_nat n - 1) * lineHeight) / two)%num in
  exists attrs kids,
    label_of_group (_createShape x y width height style value) =
      Some (SElem "text" attrs kids) /\
    svg_attr "text-anchor" attrs = Some (AStr (lit "middle")) /\
    svg_attr "x" attrs = Some (ANum (x + width / two)) /\
    ((2 <= n)%nat ->
     length kids = n /\
     forall i line, lines !! i = Some line ->
       kids !! i =
       Some (SElem "tspan"
               [("x"%string, ANum (x + width / two));
                ("y"%string, ANum (startY + num (Z.of_nat i) * lineHeight))]%num
               (text_children (trim line)))) /\
    (n = 1%nat -> kids = text_children (_stripHtml value)).
Proof.
  intros Hv fontSize lines n lineHeight startY.
  unfold _createShape, label_of_group.
  destruct (shape_element _ x y width height (_parseStyle style)) as [tag geom].
  rewrite Hv. cbn [svg_children lookup list_lookup]. unfold shape_label.
  fold fontSize. fold lines. fold n.
  do 2 eexists. split; [reflexivity|].
  split; [reflexivity|]. split; [reflexivity|]. split.
  - intros Hn. replace (Nat.eqb n 1) with false
      by (symmetry; apply Nat.eqb_neq; lia).
    fold lineHeight. fold startY. split.
    + apply length_imap.
    + intros i line Hl. apply imap_tspan_lookup. exact Hl.
  - intros Hn. rewrite Hn. reflexivity.
Qed.

(** C6 (witness): the label [one], line feed, [two] in the box 120 by 60
    at (40, 40), with the font size 12: the line height is
    [14.399999999999999], and the two lines are drawn at [x = 100] and at
    [y = 62.8] and [y = 77.19999999999999]. *)
Lemma createShape_label_lines_witness :
  exists attrs,
    label_of_group
      (@_createShape demo_platform (num 40) (num 40) (num 120) (num 60) []
         (lit "one" ++ [10] ++ lit "two"))
    = Some (SElem "text" attrs
              [SElem "tspan"
                 [("x"%string, ANum (num 100));
                  ("y"%string, ANum (parseFloat (lit "62.8")))]
                 [SText (lit "one")];
               SElem "tspan"
                 [("x"%string, ANum (num 100));
                  ("y"%string, ANum (parseFloat (lit "77.19999999999999")))]
                 [SText (lit "two")]]).
Proof.
  destruct (@createShape_label_lines demo_platform (num 40) (num 40)
              (num 120) (num 60) [] (lit "one" ++ [10] ++ lit "two") eq_refl)
    as (attrs & kids & Hlabel & _ & _ & Hmany & _).
  exists attrs. rewrite Hlabel. f_equal. f_equal.
  destruct Hmany as [Hlen Hkids]; [vm_compute; lia|].
  pose proof (Hkids 0%nat (lit "one") eq_refl) as H0.
  pose proof (Hkids 1%nat (lit "two") eq_refl) as H1.
  destruct kids as [|k0 [|k1 [|k2 kids]]]; try discriminate Hlen.
  cbn in H0, H1. injection H0 as ->. injection H1 as ->.
  vm_compute. reflexivity.
Defined.

(** ** The layout: boxes and view box *)

Lemma cell_box_vertex cell geometry :
  attr_is_1 (lit "vertex") cell = true ->
  querySelector (ByTag (lit "mxGeometry")) cell = Some geometry ->
  cell_box cell =
  Some {| box_x := parseFloat (or_str (getAttribute (lit "x") geometry) (lit "0"));
          box_y := parseFloat (or_str (getAttribute (lit "y") geometry) (lit "0"));
          box_width :=
            parseFloat (or_str (getAttribute (lit "width") geometry) (lit "100"));
          box_height :=
            parseFloat (or_str (getAttribute (lit "height") geometry) (lit "40")) |}.
Proof. intros Hv Hg. unfold cell_box. rewrite Hg, Hv. reflexivity. Qed.

Lemma cell_box_defaults cell b geometry :
  cell_box cell = Some b ->
  querySelector (ByTag (lit "mxGeometry")) cell = Some geometry ->
  (getAttribute (lit "x") geometry = None -> box_x b = num 0) /\
  (getAttribute (lit "y") geometry = None -> box_y b = num 0) /\
  (getAttribute (lit "width") geometry = None -> box_width b = num 100) /\
  (getAttribute (lit "height") geometry = None -> box_height b = num 40).
Proof.
  unfold cell_box. intros Hb Hg. rewrite Hg in Hb.
  destruct (attr_is_1 (lit "vertex") cell); [|discriminate].
  injection Hb as <-. cbn [box_x box_y box_width box_height]. unfold float_attr.
  repeat split; intros ->; vm_compute; reflexivity.
Qed.

Lemma collect_vertex_spec vertices cell :
  collect_vertex vertices cell =
  match cell_box cell with
  | Some b => <[cell_id cell := b]> vertices
  | None => vertices
  end.
Proof. reflexivity. Qed.

(** A vertex is found in the table under its id, unless a later vertex has
    taken the same id. *)
Lemma first_pass_lookup (cells : list node) i cell b :
  cells !! i = Some cell ->
  cell_box cell = Some b ->
  (forall j cell', (i < j)%nat -> cells !! j = Some cell' ->
     cell_box cell' <> None -> cell_id cell' <> cell_id cell) ->
  first_pass cells !! cell_id cell = Some b.
Proof.
  unfold first_pass. generalize (∅ : gmap jsstring box).
  revert i. induction cells as [|c cells IH]; intros i m Hi Hb Hlater.
  - discriminate.
  - cbn [fold_left]. destruct i as [|i].
    + injection Hi as ->. rewrite collect_vertex_spec, Hb.
      assert (Hkeep : forall (cs : list node) (m' : gmap jsstring box),
                 (forall j cell', cs !! j = Some cell' ->
                    cell_box cell' <> None -> cell_id cell' <> cell_id cell) ->
                 m' !! cell_id cell = Some b ->
                 fold_left collect_vertex cs m' !! cell_id cell = Some b).
      { clear. induction cs as [|c cs IHcs]; intros m' Hcs Hm'; [exact Hm'|].
        cbn [fold_left]. apply IHcs.
        - intros j cell' Hj. apply (Hcs (S j)). exact Hj.
        - rewrite collect_vertex_spec.
          destruct (cell_box c) as [b'|] eqn:Hc; [|exact Hm'].
          rewrite lookup_insert_ne; [exact Hm'|].
          apply (Hcs O c eq_refl). congruence. }
      apply Hkeep.
      * intros j cell' Hj. apply (Hlater (S j)); [lia | exact Hj].
      * apply lookup_insert_eq.
    + apply (IH i); [exact Hi | exact Hb |].
      intros j cell' Hij Hj. apply (Hlater (S j)); [lia | exact Hj].
Qed.

Lemma render_cell_bounds `{Platform} vertices st cell :
  let st' := render_cell vertices st cell in
  match cell_box cell with
  | Some b =>
      minX st' = nmin (minX st) (box_x b) /\
      minY st' = nmin (minY st) (box_y b) /\
      maxX st' = nmax (maxX st) (box_x b + box_width b)%num /\
      maxY st' = nmax (maxY st) (box_y b + box_height b)%num
  | None =>
      minX st' = minX st /\ minY st' = minY st /\
      maxX st' = maxX st /\ maxY st' = maxY st
  end.
Proof.
  unfold render_cell.
  destruct (cell_box cell) as [b|];
    destruct (attr_is_1 (lit "edge") cell);
    try destruct (_createEdge _ _ _ _); cbn; auto.
Qed.

Lemma fold_render_cell_bounds `{Platform} vertices (cells : list node) st :
  let st' := fold_left (render_cell vertices) cells st in
  minX st' = fold_left nmin (map box_x (vertex_boxes cells)) (minX st) /\
  minY st' = fold_left nmin (map box_y (vertex_boxes cells)) (minY st) /\
  maxX st' = fold_left nmax
               (map (fun b => box_x b + box_width b)%num (vertex_boxes cells))
               (maxX st) /\
  maxY st' = fold_left nmax
               (map (fun b => box_y b + box_height b)%num (vertex_boxes cells))
               (maxY st).
Proof.
  revert st. induction cells as [|c cells IH]; intros st; cbn [fold_left].
  - cbn. auto.
  - specialize (IH (render_cell vertices st c)). cbn zeta in IH.
    destruct IH as (-> & -> & -> & ->).
    pose proof (render_cell_bounds vertices st c) as Hb. cbn zeta in Hb.
    unfold vertex_boxes. cbn [omap list_omap].
    destruct (cell_box c) as [b|].
    + destruct Hb as (-> & -> & -> & ->). cbn [map fold_left]. auto.
    + destruct Hb as (-> & -> & -> & ->). auto.
Qed.

Lemma second_pass_bounds `{Platform} vertices (cells : list node) :
  let st := second_pass vertices cells in
  minX st = bound_minX (vertex_boxes cells) /\
  minY st = bound_minY (vertex_boxes cells) /\
  maxX st = bound_maxX (vertex_boxes cells) /\
  maxY st = bound_maxY (vertex_boxes cells).
Proof. apply fold_render_cell_bounds. Qed.

Lemma fold_collect_vertex_is_Some (cells : list node) (m : gmap jsstring box) id :
  is_Some (m !! id) -> is_Some (fold_left collect_vertex cells m !! id).
Proof.
  revert m. induction cells as [|c cells IH]; intros m Hm; [exact Hm|].
  cbn [fold_left]. apply IH. rewrite collect_vertex_spec.
  destruct (cell_box c) as [b|]; [|exact Hm].
  rewrite lookup_insert. destruct (decide (cell_id c = id)); eauto.
Qed.

Lemma first_pass_is_Some (cells : list node) cell b :
  cell ∈ cells -> cell_box cell = Some b ->
  is_Some (first_pass cells !! cell_id cell).
Proof.
  unfold first_pass. generalize (∅ : gmap jsstring box).
  induction cells as [|c cells IH]; intros m Hin Hb.
  - inversion Hin.
  - cbn [fold_left]. apply elem_of_cons in Hin as [<- | Hin].
    + apply fold_collect_vertex_is_Some. rewrite collect_vertex_spec, Hb.
      rewrite lookup_insert_eq. eauto.
    + apply IH; assumption.
Qed.

Lemma published_viewBox_root `{Platform} model root :
  querySelector (ByTag (lit "root")) model = Some root ->
  published_viewBox model =
  Some (viewBox (second_pass
                   (first_pass (querySelectorAll (ByTag (lit "mxCell")) root))
                   (querySelectorAll (ByTag (lit "mxCell")) root))).
Proof.
  intros Hr. unfold published_viewBox, _mxGraphToSvg. rewrite Hr. reflexivity.
Qed.

(** Only a vertex with a geometry has a box. *)
Lemma cell_box_is_vertex cell :
  (is_vertex cell = true -> is_Some (cell_box cell)) /\
  (is_vertex cell = false -> cell_box cell = None).
Proof.
  unfold is_vertex, cell_box.
  destruct (querySelector (ByTag (lit "mxGeometry")) cell);
    destruct (attr_is_1 (lit "vertex") cell); cbn; split;
    (discriminate || eauto).
Qed.

Lemma vertex_boxes_filter (cells : list node) :
  vertex_boxes cells = omap cell_box (List.filter is_vertex cells).
Proof.
  unfold vertex_boxes. induction cells as [|c cells IH]; [reflexivity|].
  cbn [List.filter omap list_omap].
  destruct (cell_box_is_vertex c) as [Hyes Hno].
  destruct (is_vertex c).
  - cbn [omap list_omap]. rewrite IH. reflexivity.
  - rewrite (Hno eq_refl). exact IH.
Qed.

Lemma fold_collect_vertex_from (cells : list node) :
  forall (m : gmap jsstring box) id b,
    fold_left collect_vertex cells m !! id = Some b ->
    m !! id = Some b \/
    exists cell, cell ∈ cells /\ cell_id cell = id /\ cell_box cell = Some b.
Proof.
  induction cells as [|c cells IH]; intros m id b Hid; [left; exact Hid|].
  cbn [fold_left] in Hid. apply IH in Hid as [Hid | (cell & Hin & Hc & Hb)].
  - rewrite collect_vertex_spec in Hid.
    destruct (cell_box c) as [b'|] eqn:Hc; [|left; exact Hid].
    destruct (decide (cell_id c = id)) as [<- | Hne].
    + rewrite lookup_insert_eq in Hid. injection Hid as ->.
      right. exists c. split; [left | split; [reflexivity | exact Hc]].
    + rewrite lookup_insert_ne in Hid by exact Hne. left. exact Hid.
  - right. exists cell. split; [right; exact Hin | split; assumption].
Qed.

(** C5 (as amended): a model without [root] element is drawn as the text
    'Empty diagram' and has no view box.  In a model with a [root] element,
    the cells that give a box are those flagged as a vertex that have a
    geometry, and no others; the box has the [x], [y], [width] and [height]
    of the geometry read by [parseFloat], 0, 0, 100 and 40 when the
    attribute is missing, and is kept in the table under the id of the cell.
    The view box is [minX - 30, minY - 30, maxX - minX + 2 * 30,
    maxY - minY + 2 * 30], computed in doubles from the running minimum of
    [x] and [y] and the running maximum of [x + width] and [y + height] of
    the boxes, whenever the running minimum of [x] is not [+Infinity]; it
    is the canvas [0 0 400 300] when it is, which is the case of a model
    without vertex. *)
Theorem mxGraphToSvg_layout `{Platform} model :
  (querySelector (ByTag (lit "root")) model = None ->
   _mxGraphToSvg model =
     SElem "svg" [("class"%string, AStr (lit "jp-DrawioWidget-svg"))]
       [arrow_defs;
        SElem "text"
          [("x"%string, AStr (lit "50")); ("y"%string, AStr (lit "50"))]
          [SText (lit "Empty diagram")]] /\
   published_viewBox model = None) /\
  (forall root,
     querySelector (ByTag (lit "root")) model = Some root ->
     let cells := querySelectorAll (ByTag (lit "mxCell")) root in
     let boxes := vertex_boxes cells in
     (forall cell geometry,
        cell ∈ cells ->
        attr_is_1 (lit "vertex") cell = true ->
        querySelector (ByTag (lit "mxGeometry")) cell = Some geometry ->
        exists b,
          cell_box cell = Some b /\ b ∈ boxes /\
          is_Some (first_pass cells !! cell_id cell) /\
          box_x b
            = parseFloat (or_str (getAttribute (lit "x") geometry) (lit "0")) /\
          box_y b
            = parseFloat (or_str (getAttribute (lit "y") geometry) (lit "0")) /\
          box_width b =
            parseFloat (or_str (getAttribute (lit "width") geometry) (lit "100")) /\
          box_height b =
            parseFloat (or_str (getAttribute (lit "height") geometry) (lit "40")) /\
          (getAttribute (lit "x") geometry = None -> box_x b = num 0) /\
          (getAttribute (lit "y") geometry = None -> box_y b = num 0) /\
          (getAttribute (lit "width") geometry = None -> box_width b = num 100) /\
          (getAttribute (lit "height") geometry = None -> box_height b = num 40)) /\
     (forall cell,
        attr_is_1 (lit "vertex") cell = false \/
        querySelector (ByTag (lit "mxGeometry")) cell = None ->
        cell_box cell = None) /\
     boxes = omap cell_box (List.filter is_vertex cells) /\
     length boxes = length (List.filter is_vertex cells) /\
     (forall id b,
        first_pass cells !! id = Some b ->
        exists cell geometry,
          cell ∈ cells /\ attr_is_1 (lit "vertex") cell = true /\
          querySelector (ByTag (lit "mxGeometry")) cell = Some geometry /\
          cell_id cell = id /\ cell_box cell = Some b) /\
     (forall i cell b,
        cells !! i = Some cell -> cell_box cell = Some b ->
        (forall j cell', (i < j)%nat -> cells !! j = Some cell' ->
           cell_box cell' <> None -> cell_id cell' <> cell_id cell) ->
        first_pass cells !! cell_id cell = Some b) /\
     (bound_minX boxes <> PInf ->
      published_viewBox model =
      Some (AViewBox (bound_minX boxes - num 30) (bound_minY boxes - num 30)
                     (bound_maxX boxes - bound_minX boxes + two * num 30)
                     (bound_maxY boxes - bound_minY boxes + two * num 30))%num) /\
     (bound_minX boxes = PInf -> published_viewBox model = Some canvas) /\
     ((forall cell, cell ∈ cells ->
         attr_is_1 (lit "vertex") cell = false \/
         querySelector (ByTag (lit "mxGeometry")) cell = None) ->
      boxes = [] /\ published_viewBox model = Some canvas)).
Proof.
  split.
  { intros Hnone. unfold published_viewBox, _mxGraphToSvg. rewrite Hnone.
    split; reflexivity. }
  intros root Hroot cells boxes.
  pose proof (published_viewBox_root model root Hroot) as Hview.
  fold cells in Hview.
  destruct (second_pass_bounds (first_pass cells) cells) as (Ha & Hb & Hc & Hd).
  cbn zeta in Ha, Hb, Hc, Hd. fold boxes in Ha, Hb, Hc, Hd.
  unfold viewBox in Hview. rewrite Ha, Hb, Hc, Hd in Hview.
  assert (Hnot : forall cell,
            attr_is_1 (lit "vertex") cell = false \/
            querySelector (ByTag (lit "mxGeometry")) cell = None ->
            is_vertex cell = false).
  { intros cell [Hv | Hg]; unfold is_vertex; rewrite ?Hv, ?Hg;
      [reflexivity | apply andb_false_r]. }
  split; [|split; [|split; [|split; [|split; [|split; [|split; [|split]]]]]]].
  - intros cell geometry Hin Hv Hg.
    pose proof (cell_box_vertex cell geometry Hv Hg) as Hbox.
    eexists. split; [exact Hbox|].
    split; [apply list_elem_of_omap; eauto|].
    split; [eapply first_pass_is_Some; eauto|].
    cbn [box_x box_y box_width box_height].
    repeat (split; [reflexivity|]).
    repeat split; intros ->; vm_compute; reflexivity.
  - intros cell Hcell. apply cell_box_is_vertex, Hnot, Hcell.
  - apply vertex_boxes_filter.
  - subst boxes. rewrite vertex_boxes_filter.
    assert (Hall : Forall (fun c => is_vertex c = true)
                     (List.filter is_vertex cells)).
    { apply Forall_forall. intros c Hin. apply list_elem_of_In in Hin.
      apply List.filter_In in Hin. apply Hin. }
    induction Hall as [|c cs Hvc _ IH]; [reflexivity|].
    cbn [omap list_omap length].
    destruct (proj1 (cell_box_is_vertex c) Hvc) as [b ->].
    cbn [length]. rewrite IH. reflexivity.
  - intros id b Hid.
    apply fold_collect_vertex_from in Hid as [Hid | (cell & Hin & Hcid & Hb')].
    { rewrite lookup_empty in Hid. discriminate. }
    unfold cell_box in Hb'.
    destruct (querySelector (ByTag (lit "mxGeometry")) cell) as [geometry|] eqn:Hg;
      [|discriminate].
    destruct (attr_is_1 (lit "vertex") cell) eqn:Hv; [|discriminate].
    exists cell, geometry. repeat split; auto.
    unfold cell_box. rewrite Hg, Hv. exact Hb'.
  - intros i cell b. apply first_pass_lookup.
  - intros Hfin. rewrite Hview.
    destruct (bound_minX boxes) as [|[]| |]; try reflexivity. contradiction.
  - intros Hinf. rewrite Hview, Hinf. reflexivity.
  - intros Hnone.
    assert (Hempty : boxes = []).
    { subst boxes. rewrite vertex_boxes_filter.
      replace (List.filter is_vertex cells) with (@nil node); [reflexivity|].
      symmetry. clear -Hnone Hnot. induction cells as [|c cells IH];
        [reflexivity|].
      cbn [List.filter]. rewrite (Hnot c (Hnone c ltac:(left))).
      apply IH. intros cell Hin. apply Hnone. right. exact Hin. }
    split; [exact Hempty|]. rewrite Hview, Hempty. reflexivity.
Qed.

(** C5 (witness): a vertex at (10, 20) without [width] and [height] is the
    box 100 by 40, and the view box is (-20, -10, 160, 100). *)
Lemma mxGraphToSvg_layout_witness :
  @published_viewBox demo_platform bare_model =
  Some (AViewBox (num (-20)) (num (-10)) (num 160) (num 100)).
Proof.
  destruct (@mxGraphToSvg_layout demo_platform bare_model) as [_ Hroot].
  destruct (Hroot (Elem (lit "root") []
                     [vertex_cell "a" [("x", "10"); ("y", "20")]%string])
              eq_refl)
    as (_ & _ & _ & _ & _ & _ & Hview & _).
  rewrite Hview; [vm_compute; reflexivity | vm_compute; discriminate].
Defined.

(** C5 (counterexample): a model without [root] element has no vertex, and
    its picture has no view box at all; and a vertex whose [x] reads
    [Infinity], or [1e400], which is [Infinity] as a double, leaves the
    running minimum at [+Infinity], so that the canvas is published although
    the model has a vertex. *)
Lemma mxGraphToSvg_viewBox_exceptions :
  ~ claimed_layout /\
  (vertex_boxes (querySelectorAll (ByTag (lit "mxCell")) rootless_model) = [] /\
   @published_viewBox demo_platform rootless_model = None) /\
  (vertex_boxes (querySelectorAll (ByTag (lit "mxCell")) far_model) <> [] /\
   @published_viewBox demo_platform far_model = Some canvas) /\
  (vertex_boxes (querySelectorAll (ByTag (lit "mxCell")) overflow_model) <> [] /\
   @published_viewBox demo_platform overflow_model = Some canvas).
Proof.
  split; [|split; [|split]]; try split.
  - intros Hall. specialize (Hall demo_platform rootless_model).
    vm_compute in Hall. discriminate.
  - vm_compute. reflexivity.
  - vm_compute. reflexivity.
  - vm_compute. discriminate.
  - vm_compute. reflexivity.
  - vm_compute. discriminate.
  - vm_compute. reflexivity.
Qed.

(** ** Edges *)

Lemma edge_ends_connect cell source target :
  has_own_points cell = false ->
  edge_ends (querySelector (ByTag (lit "mxGeometry")) cell)
            (Some source) (Some target) = Some (connect source target).
Proof.
  unfold has_own_points, edge_ends. intros Hp.
  destruct (opt_querySelector _ _) as [sp|];
    [destruct (opt_querySelector _ _) as [tp|]; [discriminate|]|]; reflexivity.
Qed.

Lemma createEdge_path `{Platform} cell style source target ends :
  edge_ends (querySelector (ByTag (lit "mxGeometry")) cell) source target
    = Some ends ->
  exists g,
    _createEdge cell style source target = Some g /\
    path_of_group g =
      Some {| path_start := fst ends;
              path_way := waypoints (querySelector (ByTag (lit "mxGeometry")) cell);
              path_end := snd ends |}.
Proof.
  intros He. unfold _createEdge. rewrite He.
  destruct ends as [[x1 y1] [x2 y2]]. eexists. split; [reflexivity|].
  reflexivity.
Qed.

Lemma render_cell_edge `{Platform} vertices st cell g :
  attr_is_1 (lit "edge") cell = true ->
  _createEdge cell (or_str (getAttribute (lit "style") cell) [])
    (vertices !! source_id cell) (vertices !! target_id cell) = Some g ->
  exists before, drawn (render_cell vertices st cell) = before ++ [g].
Proof.
  intros He Hg. unfold render_cell. rewrite He.
  fold (source_id cell). fold (target_id cell). rewrite Hg.
  cbn [drawn]. eauto.
Qed.

(** The capped ratio is a number between 0 and 0.5: never [NaN], never
    above 0.5, and not below 0 for a box whose width and height are not. *)
Lemma clip_ratio_capped b dx dy :
  nmin (clip_ratio b dx dy) half <> NaN /\
  nlt half (nmin (clip_ratio b dx dy) half) = false.
Proof. apply nmin_half_capped. unfold clip_ratio. apply or_num_zero_number. Qed.

Lemma clip_ratio_not_negative b dx dy :
  nlt (box_width b) (num 0) = false -> nlt (box_height b) (num 0) = false ->
  nlt (nmin (clip_ratio b dx dy) half) (num 0) = false.
Proof.
  intros Hw Hh. apply nmin_not_negative; [|reflexivity].
  unfold clip_ratio. apply or_num_not_negative, nmin_not_negative;
    apply ndiv_not_negative; try apply nabs_plus_sign;
    apply ndiv_not_negative; (assumption || reflexivity).
Qed.

(** C3 (as amended): an edge without points of its own whose source and
    target are in the table of boxes is drawn as a path from the centre of
    the source box to the centre of the target box, each end moved towards
    the other, when the centres differ, by
    [min(halfWidth / |dx|, halfHeight / |dy|)] capped at 0.5, where a [dx]
    or [dy] that is zero counts as 1 (and a ratio that is zero or not a
    number as 0), every operation being the one of doubles; the way points
    lie between the two ends.  The capped ratio is a number that is never
    above 0.5, and is not below 0 for a box whose width and height are not
    negative. *)
Theorem createEdge_clipped_ends `{Platform} (cells : list node) cell s t :
  attr_is_1 (lit "edge") cell = true ->
  has_own_points cell = false ->
  first_pass cells !! source_id cell = Some s ->
  first_pass cells !! target_id cell = Some t ->
  let dx := (centre_x t - centre_x s)%num in
  let dy := (centre_y t - centre_y s)%num in
  let ratio (b : box) :=
    nmin (or_num (nmin (box_width b / two / nabs (or_num dx (num 1)))
                       (box_height b / two / nabs (or_num dy (num 1))))%num
                 (num 0))
         half in
  let differ := ngt (nsqrt (dx * dx + dy * dy)%num) (num 0) in
  exists g,
    _createEdge cell (or_str (getAttribute (lit "style") cell) [])
      (first_pass cells !! source_id cell) (first_pass cells !! target_id cell)
      = Some g /\
    (forall st, exists before,
        drawn (render_cell (first_pass cells) st cell) = before ++ [g]) /\
    path_of_group g =
      Some {| path_start :=
                if differ
                then (centre_x s + dx * ratio s, centre_y s + dy * ratio s)%num
                else (centre_x s, centre_y s);
              path_way := waypoints (querySelector (ByTag (lit "mxGeometry")) cell);
              path_end :=
                if differ
                then (centre_x t - dx * ratio t, centre_y t - dy * ratio t)%num
                else (centre_x t, centre_y t) |} /\
    (forall b, ratio b <> NaN /\ nlt half (ratio b) = false) /\
    (forall b,
       nlt (box_width b) (num 0) = false -> nlt (box_height b) (num 0) = false ->
       nlt (ratio b) (num 0) = false).
Proof.
  intros He Hp Hs Ht dx dy ratio differ. rewrite Hs, Ht.
  destruct (createEdge_path cell (or_str (getAttribute (lit "style") cell) [])
              (Some s) (Some t) _ (edge_ends_connect cell s t Hp))
    as (g & Hg & Hpath).
  exists g. split; [exact Hg|]. split; [|split; [|split]].
  - intros st. apply render_cell_edge; [exact He|]. rewrite Hs, Ht. exact Hg.
  - rewrite Hpath. unfold connect, sqrt_gt0.
    fold (centre_x s) (centre_y s) (centre_x t) (centre_y t). fold dx dy.
    unfold clip_ratio. fold (ratio s) (ratio t). fold differ.
    destruct differ; reflexivity.
  - intros b. apply (clip_ratio_capped b dx dy).
  - intros b. apply (clip_ratio_not_negative b dx dy).
Qed.

(** C3 (witness): for the boxes (0, 0, 100, 40) and (200, 0, 100, 40) the
    path runs from (100, 20) to (200, 20), strictly between the centres
    (50, 20) and (250, 20). *)
Lemma createEdge_clipped_ends_witness :
  exists g,
    @_createEdge demo_platform (edge_cell "e" "a" "b") []
      (first_pass two_boxes !! lit "a") (first_pass two_boxes !! lit "b") = Some g /\
    path_of_group g =
      Some {| path_start := (num 100, num 20); path_way := [];
              path_end := (num 200, num 20) |}.
Proof.
  destruct (@createEdge_clipped_ends demo_platform two_boxes
              (edge_cell "e" "a" "b")
              {| box_x := num 0; box_y := num 0;
                 box_width := num 100; box_height := num 40 |}
              {| box_x := num 200; box_y := num 0;
                 box_width := num 100; box_height := num 40 |}
              eq_refl eq_refl eq_refl eq_refl) as (g & Hg & _ & Hpath & _).
  exists g. split; [exact Hg|]. rewrite Hpath. vm_compute. reflexivity.
Defined.

(** The ends are those of doubles: between the boxes (0, 0, 100, 40) and
    (120, 70, 100, 40) the ratio is [20 / 70], and the path runs from
    (84.28571428571428, 40) to (135.71428571428572, 70). *)
Example connect_in_doubles :
  connect {| box_x := num 0; box_y := num 0;
             box_width := num 100; box_height := num 40 |}
          {| box_x := num 120; box_y := num 70;
             box_width := num 100; box_height := num 40 |}
  = ((parseFloat (lit "84.28571428571428"), num 40),
     (parseFloat (lit "135.71428571428572"), num 70)).
Proof. vm_compute. reflexivity. Qed.

(** C3 (counterexample): for two boxes 100 wide and 0.4 high on a
    horizontal line, [dy] is zero and counts as 1: the ratio is
    [min(50 / 200, 0.2 / 1) = 0.2] and the path starts at [x = 90], where
    the formula of the specification gives [min(50 / 200, 0.2 / 0) = 0.25]
    and [x = 100]. *)
Lemma createEdge_zero_delta_counts_as_one :
  ~ claimed_clipping /\
  fst (connect (flat_box 0) (flat_box 200)) = (num 90, parseFloat (lit "0.2")) /\
  fst (claimed_connect (flat_box 0) (flat_box 200))
    = (num 100, parseFloat (lit "0.2")).
Proof.
  split; [|split; vm_compute; reflexivity].
  intros Hall. specialize (Hall (flat_box 0) (flat_box 200)).
  vm_compute in Hall. discriminate.
Qed.


(** ** The pipeline *)

Lemma trim_start_blank s : is_blank s -> trim_start s = [].
Proof.
  induction 1 as [|c s Hc _ IH]; simpl; [reflexivity|]. rewrite Hc. exact IH.
Qed.

Lemma trim_blank s : is_blank s -> trim s = [].
Proof.
  intros Hs. unfold trim, trim_end. rewrite (trim_start_blank s Hs). reflexivity.
Qed.

Lemma trim_start_not_blank s :
  ~ is_blank s -> exists c r, trim_start s = c :: r /\ is_js_space c = false.
Proof.
  induction s as [|c s IH]; intros Hs.
  - exfalso. apply Hs. constructor.
  - simpl. destruct (is_js_space c) eqn:E.
    + apply IH. intros Hb. apply Hs. constructor; assumption.
    + eauto.
Qed.

Lemma trim_not_blank s : ~ is_blank s -> trim s <> [].
Proof.
  intros Hs. unfold trim, trim_end.
  destruct (trim_start_not_blank s Hs) as (c & r & -> & Hc).
  destruct (trim_start_not_blank (rev (c :: r))) as (d & r' & -> & _).
  - intros Hb. unfold is_blank in Hb. rewrite Forall_forall in Hb.
    specialize (Hb c). rewrite Hb in Hc; [discriminate|].
    apply list_elem_of_In. apply in_rev. rewrite rev_involutive. left. reflexivity.
  - intros E. apply (f_equal (@length N)) in E. rewrite length_rev in E.
    discriminate.
Qed.

Lemma load_body_blank `{Platform} content w :
  is_blank content ->
  load_body content w = (Throw EmptyDiagramFile, set_container LoadingDiagram w).
Proof.
  intros Hb. unfold load_body, bind, modify, throw.
  rewrite (trim_blank content Hb). cbn [str_eqb]. rewrite orb_true_r.
  reflexivity.
Qed.

Lemma load_body_not_blank `{Platform} content w :
  ~ is_blank content ->
  load_body content w =
  bind (_renderDiagram content) (fun _ => modify (settle Resolved))
       (set_container LoadingDiagram w).
Proof.
  intros Hb. unfold load_body.
  assert (Ht : truthy_str content = true).
  { destruct content; [exfalso; apply Hb; constructor | reflexivity]. }
  assert (Hs : str_eqb (trim content) [] = false).
  { apply str_eqb_neq. apply trim_not_blank. exact Hb. }
  unfold bind at 1. unfold modify at 1. cbn beta iota.
  unfold bind at 1. rewrite Ht, Hs. cbn [negb orb]. unfold ret at 1.
  cbn beta iota. reflexivity.
Qed.

(** C8: for an empty text or a text of white space alone [_loadDiagram]
    fails with 'Empty diagram file' (the kind [EmptyDocument]) and the XML
    parser has not been called; for a text whose parse holds a
    [parsererror] element it fails with 'Invalid XML: ' followed by the text
    of that element (the kind [InvalidDocument]). *)
Theorem loadDiagram_empty_or_invalid `{Platform} content w :
  (is_blank content ->
   fst (load_body content w) = Throw EmptyDiagramFile /\
   error_kind EmptyDiagramFile = EmptyDocument /\
   error_shown (run (_loadDiagram content) w) = Some EmptyDiagramFile /\
   parse_log (run (_loadDiagram content) w) = parse_log w) /\
  (forall parseError,
     ~ is_blank content ->
     querySelector (ByTag (lit "parsererror")) (parseFromString content)
       = Some parseError ->
     fst (load_body content w) = Throw (InvalidXML (textContent parseError)) /\
     error_kind (InvalidXML (textContent parseError)) = InvalidDocument /\
     error_shown (run (_loadDiagram content) w)
       = Some (InvalidXML (textContent parseError))).
Proof.
  split.
  - intros Hb. unfold run, _loadDiagram, try_catch.
    rewrite (load_body_blank content w Hb). cbn. auto.
  - intros parseError Hb Hpe. unfold run, _loadDiagram, try_catch.
    rewrite (load_body_not_blank content w Hb).
    unfold _renderDiagram, parse, bind, modify, ret, throw. cbn beta iota.
    rewrite Hpe. cbn. auto.
Qed.

Lemma item_Some_nonempty (l : list node) i x : item l i = Some x -> l <> [].
Proof.
  unfold item. destruct (i <? 0)%Z; [discriminate|].
  destruct l; [rewrite lookup_nil; discriminate | discriminate].
Qed.

(** [_renderPage] on a page that exists. *)
Lemma renderPage_page `{Platform} w xml i diagram :
  _diagramXml w = Some xml ->
  truthy_str xml = true ->
  item (pages_of xml) i = Some diagram ->
  _renderPage i w =
  let w1 := log_parse xml w in
  match querySelector (ByTag (lit "mxGraphModel")) diagram with
  | Some embeddedModel => _renderMxGraphModel embeddedModel w1
  | None =>
      if needs_codec diagram then
        match _decompressDiagram (payload_of diagram) with
        | Ok text => extract_model text (log_codec (payload_of diagram) w1)
        | Throw _ =>
            extract_model (payload_of diagram)
              (log_codec (payload_of diagram) w1)
        end
      else extract_model (payload_of diagram) w1
  end.
Proof.
  intros Hxml Ht Hitem. unfold _renderPage.
  unfold bind at 1. unfold get at 1. cbn beta iota. rewrite Hxml, Ht.
  cbn [negb]. unfold bind at 1. unfold parse at 1.
  unfold bind at 1. unfold modify at 1. cbn beta iota. unfold ret at 1.
  cbn beta iota. fold (pages_of xml).
  pose proof (item_Some_nonempty _ _ _ Hitem) as Hne.
  destruct (pages_of xml) as [|d ds] eqn:Hpages; [congruence|].
  rewrite Hitem. unfold needs_codec.
  destruct (querySelector (ByTag (lit "mxGraphModel")) diagram) as [m|];
    [reflexivity|].
  fold (payload_of diagram).
  destruct (truthy_str (payload_of diagram)
            && negb (includes mxGraphModel_tag (payload_of diagram))).
  - unfold bind at 1. unfold try_catch, decompress.
    unfold bind at 1. unfold modify at 1. cbn beta iota.
    destruct (_decompressDiagram (payload_of diagram)); reflexivity.
  - reflexivity.
Qed.

(** One step of a method: the monad and the logging calls are unfolded. *)
Ltac monad_step :=
  cbv beta iota delta
    [parse decompress bind modify ret throw get try_catch _renderMxGraphModel].

Lemma extract_model_outcome `{Platform} content w :
  (includes mxGraphModel_tag content = true /\
   exists m, querySelector (ByTag (lit "mxGraphModel")) (parseFromString content)
               = Some m /\
             extract_model content w =
             (Ok tt, set_container (Diagram (_mxGraphToSvg m))
                       (log_parse content w)))
  \/
  ((includes mxGraphModel_tag content = false \/
    querySelector (ByTag (lit "mxGraphModel")) (parseFromString content) = None) /\
   fst (extract_model content w) = Throw CouldNotParseDiagramContent).
Proof.
  unfold extract_model.
  destruct (includes mxGraphModel_tag content) eqn:Hinc.
  - monad_step.
    destruct (querySelector _ (parseFromString content)) as [m|] eqn:Hq.
    + left. split; [reflexivity|]. exists m. split; [reflexivity|]. reflexivity.
    + right. split; [right; reflexivity | reflexivity].
  - right. split; [left; reflexivity | reflexivity].
Qed.

Lemma extract_model_codec_log `{Platform} content w :
  codec_log (snd (extract_model content w)) = codec_log w.
Proof.
  unfold extract_model. destruct (includes mxGraphModel_tag content);
    [|reflexivity].
  monad_step.
  destruct (querySelector _ (parseFromString content)); reflexivity.
Qed.

(** C7: when the codec fails on the text of a page, [_renderPage] goes on
    with that text as it is and looks for the model in it; the page fails
    only when no model is found there, with 'Could not parse diagram content'
    (the kind [UnparsableContent]), and what the codec threw is never what
    [_renderPage] throws.  (When the codec was really called the text holds
    no model tag, so the page then always fails in that way.) *)
Theorem renderPage_codec_failure `{Platform} w xml i diagram e :
  _diagramXml w = Some xml ->
  truthy_str xml = true ->
  item (pages_of xml) i = Some diagram ->
  querySelector (ByTag (lit "mxGraphModel")) diagram = None ->
  _decompressDiagram (payload_of diagram) = Throw e ->
  let payload := payload_of diagram in
  let out := _renderPage i w in
  (exists w', out = extract_model payload w' /\
              (w' = log_parse xml w \/ w' = log_codec payload (log_parse xml w))) /\
  (fst out = Ok tt \/ fst out = Throw CouldNotParseDiagramContent) /\
  (forall e', fst out = Throw e' -> error_kind e' = UnparsableContent) /\
  (fst out = Ok tt <->
   includes mxGraphModel_tag payload = true /\
   is_Some (querySelector (ByTag (lit "mxGraphModel")) (parseFromString payload))) /\
  (needs_codec diagram = true -> fst out = Throw CouldNotParseDiagramContent).
Proof.
  intros Hxml Ht Hitem Hno Hfail payload out.
  assert (Hout : exists w', out = extract_model payload w' /\
            (w' = log_parse xml w \/ w' = log_codec payload (log_parse xml w))).
  { subst out. rewrite (renderPage_page w xml i diagram Hxml Ht Hitem).
    cbn zeta. rewrite Hno, Hfail. fold payload.
    destruct (needs_codec diagram); eauto. }
  destruct Hout as (w' & Hout & Hw').
  split; [eauto|].
  destruct (extract_model_outcome payload w')
    as [(Hinc & m & Hm & Hok) | (Hwhy & Hthrow)].
  - rewrite Hout, Hok. cbn [fst].
    split; [left; reflexivity|]. split; [discriminate|]. split.
    + split; [intros _; split; [exact Hinc | rewrite Hm; eauto] | reflexivity].
    + intros Hneed. unfold needs_codec in Hneed. rewrite Hno in Hneed.
      fold payload in Hneed. rewrite Hinc in Hneed.
      rewrite andb_false_r in Hneed. discriminate.
  - rewrite Hout, Hthrow.
    split; [right; reflexivity|]. split; [intros e' [= <-]; reflexivity|]. split.
    + split; [discriminate|]. intros [Hinc [m Hm]].
      destruct Hwhy as [Hwhy | Hwhy]; congruence.
    + reflexivity.
Qed.

(** The codec is called by [_renderPage] only. *)
Lemma renderPage_codec_log `{Platform} w i :
  codec_log (snd (_renderPage i w)) = codec_log w \/
  exists xml diagram,
    _diagramXml w = Some xml /\ item (pages_of xml) i = Some diagram /\
    needs_codec diagram = true /\
    codec_log (snd (_renderPage i w)) = payload_of diagram :: codec_log w.
Proof.
  destruct (_diagramXml w) as [xml|] eqn:Hxml.
  2:{ left. unfold _renderPage. monad_step. rewrite Hxml. reflexivity. }
  destruct (truthy_str xml) eqn:Ht.
  2:{ left. unfold _renderPage. monad_step. rewrite Hxml, Ht. reflexivity. }
  destruct (item (pages_of xml) i) as [diagram|] eqn:Hitem.
  - rewrite (renderPage_page w xml i diagram Hxml Ht Hitem). cbn zeta.
    destruct (needs_codec diagram) eqn:Hneed.
    + right. exists xml, diagram.
      repeat (split; [first [assumption | reflexivity]|]).
      unfold needs_codec in Hneed.
      destruct (querySelector (ByTag (lit "mxGraphModel")) diagram);
        [discriminate|].
      destruct (_decompressDiagram (payload_of diagram));
        rewrite extract_model_codec_log; reflexivity.
    + left. destruct (querySelector (ByTag (lit "mxGraphModel")) diagram).
      * reflexivity.
      * rewrite extract_model_codec_log. reflexivity.
  - left. unfold _renderPage. monad_step. rewrite Hxml, Ht. cbn [negb].
    fold (pages_of xml). destruct (pages_of xml) as [|d ds].
    + destruct (querySelector _ (parseFromString xml)); reflexivity.
    + rewrite Hitem. reflexivity.
Qed.

Lemma truthy_str_not_empty (s : jsstring) : truthy_str s = true <-> s <> [].
Proof. destruct s; cbn; split; congruence. Qed.

Lemma payload_of_text (diagram : node) : payload_of diagram = textContent diagram.
Proof. unfold payload_of, or_str. destruct (textContent diagram); reflexivity. Qed.

(** C10: for the selected page of the file a widget holds:
    - a page that holds a model element is drawn from that element and the
      codec is not called;
    - a page without a model element whose text is not empty and holds
      '<mxGraphModel' is parsed as it is, without a call of the codec: when
      the parsed text holds a model element the picture of that element is
      shown, and otherwise the page fails with 'Could not parse diagram
      content' and nothing is shown;
    - the codec is not called either when the text is empty;
    - the codec is called, once and with the text of the page, when the page
      holds no model element and its text is not empty and does not hold the
      tag, and in no other case. *)
Theorem renderPage_codec_use `{Platform} w i :
  (forall xml diagram,
     _diagramXml w = Some xml ->
     xml <> [] ->
     item (querySelectorAll (ByTag (lit "diagram")) (parseFromString xml)) i
       = Some diagram ->
     let text := textContent diagram in
     (forall embeddedModel,
        querySelector (ByTag (lit "mxGraphModel")) diagram = Some embeddedModel ->
        _renderPage i w =
        (Ok tt, set_container (Diagram (_mxGraphToSvg embeddedModel))
                  (log_parse xml w))) /\
     (querySelector (ByTag (lit "mxGraphModel")) diagram = None ->
      text <> [] ->
      includes (lit "<mxGraphModel") text = true ->
      (forall mxGraphModel,
         querySelector (ByTag (lit "mxGraphModel")) (parseFromString text)
           = Some mxGraphModel ->
         _renderPage i w =
         (Ok tt, set_container (Diagram (_mxGraphToSvg mxGraphModel))
                   (log_parse text (log_parse xml w)))) /\
      (querySelector (ByTag (lit "mxGraphModel")) (parseFromString text) = None ->
       _renderPage i w =
       (Throw CouldNotParseDiagramContent, log_parse text (log_parse xml w)))) /\
     (is_Some (querySelector (ByTag (lit "mxGraphModel")) diagram) \/
      text = [] \/ includes (lit "<mxGraphModel") text = true ->
      codec_log (snd (_renderPage i w)) = codec_log w) /\
     (querySelector (ByTag (lit "mxGraphModel")) diagram = None ->
      text <> [] ->
      includes (lit "<mxGraphModel") text = false ->
      codec_log (snd (_renderPage i w)) = text :: codec_log w)) /\
  (codec_log (snd (_renderPage i w)) <> codec_log w ->
   exists xml diagram,
     _diagramXml w = Some xml /\
     item (querySelectorAll (ByTag (lit "diagram")) (parseFromString xml)) i
       = Some diagram /\
     querySelector (ByTag (lit "mxGraphModel")) diagram = None /\
     textContent diagram <> [] /\
     includes (lit "<mxGraphModel") (textContent diagram) = false /\
     codec_log (snd (_renderPage i w)) = textContent diagram :: codec_log w).
Proof.
  split.
  - intros xml diagram Hxml Ht Hitem text.
    apply truthy_str_not_empty in Ht.
    pose proof (renderPage_page w xml i diagram Hxml Ht Hitem) as Hpage.
    cbn zeta in Hpage. unfold needs_codec in Hpage.
    rewrite payload_of_text in Hpage. fold text in Hpage.
    change mxGraphModel_tag with (lit "<mxGraphModel") in Hpage.
    split; [|split; [|split]].
    + intros m Hm. rewrite Hpage, Hm. reflexivity.
    + intros Hno Hp Hinc. apply truthy_str_not_empty in Hp.
      rewrite Hno, Hp, Hinc in Hpage. cbn [negb andb] in Hpage.
      unfold extract_model in Hpage.
      change mxGraphModel_tag with (lit "<mxGraphModel") in Hpage.
      rewrite Hinc in Hpage. split.
      * intros m Hm. rewrite Hpage. monad_step. rewrite Hm. reflexivity.
      * intros Hm. rewrite Hpage. monad_step. rewrite Hm. reflexivity.
    + intros Hcase. rewrite Hpage.
      destruct (querySelector (ByTag (lit "mxGraphModel")) diagram) as [m|] eqn:Hq;
        [reflexivity|].
      destruct Hcase as [[m Hm] | [Hempty | Hinc]]; [discriminate| |].
      * rewrite Hempty. cbn [truthy_str andb].
        rewrite extract_model_codec_log. reflexivity.
      * rewrite Hinc. cbn [negb]. rewrite andb_false_r.
        rewrite extract_model_codec_log. reflexivity.
    + intros Hno Hp Hinc. apply truthy_str_not_empty in Hp.
      rewrite Hpage, Hno, Hp, Hinc. cbn [negb andb].
      destruct (_decompressDiagram text);
        rewrite extract_model_codec_log; reflexivity.
  - intros Hchanged.
    destruct (renderPage_codec_log w i)
      as [Hsame | (xml & diagram & Hxml & Hitem & Hneed & Hlog)];
      [contradiction|].
    exists xml, diagram. unfold needs_codec in Hneed.
    rewrite payload_of_text in Hneed, Hlog.
    destruct (querySelector (ByTag (lit "mxGraphModel")) diagram);
      [discriminate|].
    apply andb_true_iff in Hneed as [Hp Hinc].
    apply negb_true_iff in Hinc. apply truthy_str_not_empty in Hp.
    auto 10.
Qed.

(** ** The page controller *)

Lemma extract_model_pages `{Platform} content w :
  same_pages w (snd (extract_model content w)).
Proof.
  unfold extract_model, same_pages.
  destruct (includes mxGraphModel_tag content); [|cbn; tauto].
  monad_step. destruct (querySelector _ (parseFromString content)); cbn; tauto.
Qed.

Lemma renderPage_pages `{Platform} i w : same_pages w (snd (_renderPage i w)).
Proof.
  destruct (_diagramXml w) as [xml|] eqn:Hxml.
  2:{ unfold _renderPage, same_pages. monad_step. rewrite Hxml. cbn. tauto. }
  destruct (truthy_str xml) eqn:Ht.
  2:{ unfold _renderPage, same_pages. monad_step. rewrite Hxml, Ht. cbn. tauto. }
  destruct (item (pages_of xml) i) as [diagram|] eqn:Hitem.
  - rewrite (renderPage_page w xml i diagram Hxml Ht Hitem). cbn zeta.
    destruct (querySelector (ByTag (lit "mxGraphModel")) diagram).
    + unfold same_pages. cbn. tauto.
    + destruct (needs_codec diagram);
        [destruct (_decompressDiagram (payload_of diagram))|];
        match goal with
        | |- same_pages _ (snd (extract_model ?c ?w0)) =>
            destruct (extract_model_pages c w0) as (? & ? & ?)
        end; unfold same_pages in *; cbn in *; tauto.
  - unfold _renderPage, same_pages. monad_step. rewrite Hxml, Ht. cbn [negb].
    fold (pages_of xml). destruct (pages_of xml) as [|d ds].
    + destruct (querySelector _ (parseFromString xml)); cbn; tauto.
    + rewrite Hitem. cbn. tauto.
Qed.

Lemma same_pages_trans w1 w2 w3 :
  same_pages w1 w2 -> same_pages w2 w3 -> same_pages w1 w3.
Proof. unfold same_pages. intuition congruence. Qed.

Lemma void_snd (m : M unit) w : snd (void m w) = snd (m w).
Proof. unfold void, try_catch, ret. destruct (m w) as [[[]|e] w']; reflexivity. Qed.

Lemma updatePageDisplay_pages `{Platform} w :
  same_pages w (snd (_updatePageDisplay w)).
Proof.
  unfold _updatePageDisplay.
  unfold bind at 1. unfold modify at 1. cbn beta iota.
  unfold bind at 1. unfold get at 1. cbn beta iota.
  rewrite void_snd.
  eapply same_pages_trans; [|apply renderPage_pages].
  unfold same_pages. destruct (toolbar w) as [[shown total]|] eqn:E; cbn.
  - repeat split; congruence.
  - rewrite E. tauto.
Qed.

(** The two buttons: a click moves the page index by one inside
    [0, _totalPages - 1] and does nothing at all at either end. *)
Lemma nextPage_click_run `{Platform} w :
  run nextPage_click w =
  if (_currentPage w <? _totalPages w - 1)%Z
  then snd (_updatePageDisplay (set_currentPage (_currentPage w + 1)%Z w))
  else w.
Proof.
  unfold run, nextPage_click. cbv beta iota delta [bind get modify ret].
  destruct (_currentPage w <? _totalPages w - 1)%Z; reflexivity.
Qed.

Lemma prevPage_click_run `{Platform} w :
  run prevPage_click w =
  if (_currentPage w >? 0)%Z
  then snd (_updatePageDisplay (set_currentPage (_currentPage w - 1)%Z w))
  else w.
Proof.
  unfold run, prevPage_click. cbv beta iota delta [bind get modify ret].
  destruct (_currentPage w >? 0)%Z; reflexivity.
Qed.

Lemma nextPage_click_spec `{Platform} w :
  ((_currentPage w < _totalPages w - 1)%Z ->
   _currentPage (run nextPage_click w) = (_currentPage w + 1)%Z /\
   _totalPages (run nextPage_click w) = _totalPages w) /\
  (~ (_currentPage w < _totalPages w - 1)%Z -> run nextPage_click w = w).
Proof.
  rewrite nextPage_click_run.
  destruct (_currentPage w <? _totalPages w - 1)%Z eqn:E.
  - apply Z.ltb_lt in E. split; [|intros Hn; contradiction].
    intros _.
    destruct (updatePageDisplay_pages
                (set_currentPage (_currentPage w + 1)%Z w)) as (Hc & Ht & _).
    rewrite Hc, Ht. cbn. auto.
  - apply Z.ltb_ge in E. split; [intros Hlt; lia | reflexivity].
Qed.

Lemma prevPage_click_spec `{Platform} w :
  ((_currentPage w > 0)%Z ->
   _currentPage (run prevPage_click w) = (_currentPage w - 1)%Z /\
   _totalPages (run prevPage_click w) = _totalPages w) /\
  (~ (_currentPage w > 0)%Z -> run prevPage_click w = w).
Proof.
  rewrite prevPage_click_run.
  destruct (_currentPage w >? 0)%Z eqn:E.
  - split; [|intros Hn; exfalso; apply Hn; apply Z.lt_gt, Z.gtb_lt; exact E].
    intros _.
    destruct (updatePageDisplay_pages
                (set_currentPage (_currentPage w - 1)%Z w)) as (Hc & Ht & _).
    rewrite Hc, Ht. cbn. auto.
  - split; [intros Hgt | reflexivity].
    apply Z.gt_lt in Hgt. apply Z.gtb_lt in Hgt. congruence.
Qed.

(** Navigation keeps the page index in range. *)
Lemma click_keeps_page_in_range `{Platform} w e :
  e = ClickPrev \/ e = ClickNext ->
  page_in_range w -> page_in_range (step w e).
Proof.
  unfold page_in_range. intros [-> | ->] Hin; cbn [step];
    destruct (toolbar w); try exact Hin.
  - destruct (prevPage_click_spec w) as [Hmove Hstay].
    destruct (Z_gt_dec (_currentPage w) 0) as [Hgt|Hle].
    + destruct (Hmove Hgt) as [-> ->]. lia.
    + rewrite (Hstay Hle). exact Hin.
  - destruct (nextPage_click_spec w) as [Hmove Hstay].
    destruct (Z_lt_dec (_currentPage w) (_totalPages w - 1)) as [Hlt|Hge].
    + destruct (Hmove Hlt) as [-> ->]. lia.
    + rewrite (Hstay Hge). exact Hin.
Qed.

(** C9 (the code departs from the claim): the three-page file is opened,
    the third page is reached with two clicks, and the file is reloaded
    with one page.  [_renderDiagram] sets the page count to 1 and leaves the
    page index at 2, outside [0, _totalPages - 1]; the widget then shows
    'Page 3 not found'. *)
Theorem reload_leaves_page_index_out_of_range :
  let w := @steps demo_platform new_widget shrinking_reload in
  @reachable demo_platform w /\
  _currentPage w = 2%Z /\ _totalPages w = 1%Z /\ ~ page_in_range w /\
  error_shown w = Some (PageNNotFound 3).
Proof.
  cbv zeta. split; [|split; [|split; [|split]]].
  - exists (file_text 3), [ClickNext; ClickNext; Load (file_text 1)]. reflexivity.
  - vm_compute. reflexivity.
  - vm_compute. reflexivity.
  - unfold page_in_range.
    replace (_currentPage (@steps demo_platform new_widget shrinking_reload))
      with 2%Z by (vm_compute; reflexivity).
    replace (_totalPages (@steps demo_platform new_widget shrinking_reload))
      with 1%Z by (vm_compute; reflexivity).
    lia.
  - vm_compute. reflexivity.
Qed.

Lemma page_count_pos (diagrams : list node) : (1 <= page_count diagrams)%Z.
Proof. destruct diagrams; cbn [page_count length]; lia. Qed.

(** A load never touches the page index; the page count it leaves is the
    one it found or the one of the document it could parse. *)
Lemma renderDiagram_pages `{Platform} content w :
  _currentPage (snd (_renderDiagram content w)) = _currentPage w /\
  (_totalPages (snd (_renderDiagram content w)) = _totalPages w \/
   _totalPages (snd (_renderDiagram content w)) = page_count (pages_of content)).
Proof.
  unfold _renderDiagram.
  cbv beta iota delta [parse bind modify ret throw get _setupPageNavigation].
  destruct (querySelector (ByTag (lit "parsererror")) (parseFromString content)).
  - cbn. auto.
  - fold (pages_of content). fold (page_count (pages_of content)).
    cbn [_totalPages set_totalPages set_diagramXml log_parse].
    match goal with
    | |- context [(?a >? 1)%Z] => destruct (a >? 1)%Z
    end;
    match goal with
    | |- context [_renderPage ?i ?w0] =>
        destruct (renderPage_pages i w0) as (Hc & Ht & _);
        destruct (_renderPage i w0) as [r w1]
    end; cbn in *; rewrite Hc, Ht; auto.
Qed.

Lemma loadDiagram_pages `{Platform} content w :
  _currentPage (run (_loadDiagram content) w) = _currentPage w /\
  (_totalPages (run (_loadDiagram content) w) = _totalPages w \/
   _totalPages (run (_loadDiagram content) w) = page_count (pages_of content)).
Proof.
  unfold run, _loadDiagram, load_body.
  cbv beta iota delta [bind modify ret throw get try_catch _showError].
  destruct (negb (truthy_str content) || str_eqb (trim content) []).
  - cbn. auto.
  - destruct (renderDiagram_pages content (set_container LoadingDiagram w))
      as (Hc & Ht).
    destruct (_renderDiagram content (set_container LoadingDiagram w))
      as [[[]|e] w1]; cbn in *; rewrite Hc; intuition congruence.
Qed.

(** From the first load on, clicks alone keep the page index in range. *)
Lemma navigation_keeps_page_in_range `{Platform} content (clicks : list event) :
  Forall is_click clicks ->
  page_in_range (steps new_widget (Load content :: clicks)).
Proof.
  intros Hclicks. unfold steps. cbn [fold_left step].
  assert (Hfirst : page_in_range (run (_loadDiagram content) new_widget)).
  { unfold page_in_range.
    destruct (loadDiagram_pages content new_widget) as (-> & [-> | ->]).
    - cbn. lia.
    - pose proof (page_count_pos (pages_of content)). cbn. lia. }
  revert Hfirst. generalize (run (_loadDiagram content) new_widget).
  induction Hclicks as [|e clicks He _ IH]; intros w Hw; [exact Hw|].
  cbn [fold_left]. apply IH. apply click_keeps_page_in_range; assumption.
Qed.

(** ** The codec *)

Ltac Zify.zify_post_hook ::= Z.to_euclidean_division_equations.

(** *** Joining the chunks *)

Lemma read_chunks_stream st chunks acc :
  stream_chunks st = Some chunks -> read_chunks st acc = Ok (acc ++ chunks).
Proof.
  revert chunks acc. induction st as [value rest IH| |]; intros chunks acc; simpl.
  - destruct (stream_chunks rest) as [cs|]; [|discriminate].
    intros [= <-]. rewrite (IH cs _ eq_refl), <- app_assoc. reflexivity.
  - intros [= <-]. rewrite app_nil_r. reflexivity.
  - discriminate.
Qed.

Lemma read_chunks_failed st acc :
  stream_chunks st = None -> read_chunks st acc = Throw StreamError.
Proof.
  revert acc. induction st as [value rest IH| |]; intros acc; simpl.
  - destruct (stream_chunks rest); [discriminate|]. intros _. apply IH. reflexivity.
  - discriminate.
  - reflexivity.
Qed.

Lemma write_at_middle chunk : forall before old after,
  length old = length chunk ->
  write_at chunk (length before) (before ++ old ++ after) = before ++ chunk ++ after.
Proof.
  induction chunk as [|b chunk IH]; intros before old after Hlen.
  - destruct old; [reflexivity | discriminate].
  - destruct old as [|o old]; [discriminate|]. injection Hlen as Hlen.
    cbn [write_at].
    rewrite insert_app_r_alt by lia. rewrite Nat.sub_diag. cbn [app].
    change (<[0%nat:=b]> (o :: old ++ after)) with (b :: old ++ after).
    replace (before ++ b :: old ++ after) with ((before ++ [b]) ++ old ++ after)
      by (rewrite <- app_assoc; reflexivity).
    replace (S (length before)) with (length (before ++ [b]))
      by (rewrite length_app; cbn; lia).
    rewrite (IH _ _ _ Hlen). rewrite <- app_assoc. reflexivity.
Qed.

Lemma total_length (chunks : list (list N)) n :
  fold_left (fun acc chunk => (acc + length chunk)%nat) chunks n =
  (n + length (concat chunks))%nat.
Proof.
  revert n. induction chunks as [|c chunks IH]; intros n; cbn [fold_left concat].
  - cbn [length]. lia.
  - rewrite IH, length_app. lia.
Qed.

Lemma join_loop_concat chunks : forall done,
  join_loop chunks (length done)
    (done ++ replicate (length (concat chunks)) 0) = Ok (done ++ concat chunks).
Proof.
  induction chunks as [|c chunks IH]; intros done; cbn [join_loop concat].
  - cbn. reflexivity.
  - unfold typed_set. rewrite (length_app c (concat chunks)), replicate_add.
    rewrite !length_app, !length_replicate.
    replace (length done + length c <=?
             length done + (length c + length (concat chunks)))%nat
      with true by (symmetry; apply Nat.leb_le; lia).
    cbn [bind_result].
    rewrite (write_at_middle c done (replicate (length c) 0)
               (replicate (length (concat chunks)) 0))
      by apply length_replicate.
    rewrite app_assoc. rewrite <- length_app. rewrite IH.
    rewrite <- app_assoc. reflexivity.
Qed.

(** The loop that copies the chunks into the result array joins them in
    the order of their arrival. *)
Lemma join_chunks_concat chunks : join_chunks chunks = Ok (concat chunks).
Proof.
  unfold join_chunks. rewrite total_length. cbn [Nat.add].
  apply (join_loop_concat chunks []).
Qed.

(** *** Base64 *)

(** A property of the numbers below a bound that a computation confirms
    for each of them. *)
Lemma below_by_cases (f : N -> bool) (n : nat) :
  forallb f (map N.of_nat (seq 0 n)) = true ->
  forall v, v < N.of_nat n -> f v = true.
Proof.
  intros Hall v Hv. rewrite forallb_forall in Hall. apply Hall.
  apply in_map_iff. exists (N.to_nat v). split; [lia|].
  apply in_seq. lia.
Qed.

Lemma list_ind3 {A} (P : list A -> Prop) :
  P [] -> (forall x, P [x]) -> (forall x y, P [x; y]) ->
  (forall x y z l, P l -> P (x :: y :: z :: l)) ->
  forall l, P l.
Proof.
  intros H0 H1 H2 H3 l.
  assert (Hall : P l /\ (forall x, P (x :: l)) /\ (forall x y, P (x :: y :: l))).
  { induction l as [|a l (IH0 & IH1 & IH2)]; [auto|].
    split; [apply IH1|]. split; [intros x; apply IH2|].
    intros x y. apply H3. exact IH0. }
  apply Hall.
Qed.

Lemma url_to_std_map s : url_to_std s = map std_char s.
Proof.
  unfold url_to_std, replace_all. rewrite map_map. reflexivity.
Qed.

Lemma std_char_decodes v :
  v < 64 ->
  b64_value (std_char (b64url_char v)) = Some v /\
  is_ascii_whitespace (std_char (b64url_char v)) = false /\
  unit_eqb (std_char (b64url_char v)) 61 = false.
Proof.
  intros Hv.
  pose proof (below_by_cases
    (fun v => match b64_value (std_char (b64url_char v)) with
              | Some v' => v' =? v
              | None => false
              end
              && negb (is_ascii_whitespace (std_char (b64url_char v)))
              && negb (unit_eqb (std_char (b64url_char v)) 61))
    64 ltac:(vm_compute; reflexivity) v Hv) as Hf.
  cbv beta in Hf. apply andb_true_iff in Hf as [Hf H3].
  apply andb_true_iff in Hf as [H1 H2].
  apply negb_true_iff in H2, H3. repeat split; try assumption.
  destruct (b64_value (std_char (b64url_char v))) as [v'|]; [|discriminate].
  apply N.eqb_eq in H1. congruence.
Qed.

Lemma decodable_cons v c :
  v < 64 -> decodable c -> decodable (std_char (b64url_char v) :: c).
Proof.
  intros Hv Hc. constructor; [|exact Hc].
  destruct (std_char_decodes v Hv) as (_ & ? & ?). auto.
Qed.

Lemma sextets_cons v c vs :
  v < 64 -> sextets c = Some vs ->
  sextets (std_char (b64url_char v) :: c) = Some (v :: vs).
Proof.
  intros Hv Hc. cbn [sextets].
  destruct (std_char_decodes v Hv) as (-> & _ & _). rewrite Hc. reflexivity.
Qed.

(** The core of the encoding decodes to the bytes, sextet by sextet. *)
Lemma core_decodes bs :
  is_bytes bs ->
  let c := url_to_std (b64url_core bs) in
  decodable c /\
  (exists vs, sextets c = Some vs /\ sextets_bytes vs = bs) /\
  (exists q r, (length bs = 3 * q + r /\ r < 3 /\
                length c = 4 * q + match r with 0 => 0 | 1 => 2 | _ => 3 end)%nat).
Proof.
  intros Hbs. cbv zeta. rewrite url_to_std_map.
  induction bs as [|x|x y|x y z bs IH] using list_ind3.
  - split; [constructor|]. split; [exists []; auto|]. exists 0%nat, 0%nat. cbn. lia.
  - apply Forall_cons in Hbs as [Hx _]. cbn [b64url_core map].
    assert (x / 4 < 64) by lia. assert ((x * 16) mod 64 < 64) by lia.
    split; [repeat apply decodable_cons; try assumption; constructor|].
    split.
    + eexists. split; [repeat apply sextets_cons; try assumption; reflexivity|].
      cbn [sextets_bytes]. f_equal. lia.
    + exists 0%nat, 1%nat. cbn. lia.
  - apply Forall_cons in Hbs as [Hx Hbs]. apply Forall_cons in Hbs as [Hy _].
    cbn [b64url_core map]. cbv zeta.
    assert ((x * 1024 + y * 4) / 4096 < 64) by lia.
    assert (((x * 1024 + y * 4) / 64) mod 64 < 64) by lia.
    assert ((x * 1024 + y * 4) mod 64 < 64) by lia.
    split; [repeat apply decodable_cons; try assumption; constructor|].
    split.
    + eexists. split; [repeat apply sextets_cons; try assumption; reflexivity|].
      cbn [sextets_bytes]. cbv zeta. f_equal; [lia|]. f_equal. lia.
    + exists 0%nat, 2%nat. cbn. lia.
  - apply Forall_cons in Hbs as [Hx Hbs]. apply Forall_cons in Hbs as [Hy Hbs].
    apply Forall_cons in Hbs as [Hz Hbs].
    destruct (IH Hbs) as (Hdec & (vs & Hvs & Hback) & (q & r & Hlen & Hr & Hclen)).
    cbn [b64url_core map]. cbv zeta.
    set (n := x * 65536 + y * 256 + z).
    assert (n / 262144 < 64) by (subst n; lia).
    assert ((n / 4096) mod 64 < 64) by lia.
    assert ((n / 64) mod 64 < 64) by lia.
    assert (n mod 64 < 64) by lia.
    split; [repeat apply decodable_cons; assumption|]. split.
    + eexists. split; [repeat apply sextets_cons; try assumption; exact Hvs|].
      cbn [sextets_bytes]. cbv zeta. rewrite Hback.
      subst n. f_equal; [lia|]. f_equal; [lia|]. f_equal. lia.
    + exists (S q), r. cbn [length]. rewrite Hclen. lia.
Qed.

Lemma filter_keeps_all (f : N -> bool) (l : list N) :
  Forall (fun c => f c = false) l -> filter (fun c => f c = false) l = l.
Proof.
  induction 1 as [|c l Hc _ IH]; [reflexivity|].
  rewrite filter_cons. destruct (decide (f c = false)); congruence.
Qed.

Lemma rev_replicate {A} (x : A) n : rev (replicate n x) = replicate n x.
Proof.
  induction n as [|n IH]; [reflexivity|]. cbn [replicate rev]. rewrite IH.
  clear IH. induction n as [|n IH]; [reflexivity|].
  cbn [replicate app]. rewrite IH. reflexivity.
Qed.

Lemma mod3_rest q r : (r < 3 -> (3 * q + r) mod 3 = r)%nat.
Proof.
  intros Hr. rewrite Nat.add_comm, Nat.mul_comm, Nat.Div0.mod_add.
  apply Nat.mod_small. exact Hr.
Qed.

Lemma strip_padding_core c k :
  Forall (fun ch => unit_eqb ch 61 = false) c ->
  (k <= 2)%nat ->
  (k <> 0%nat -> N.of_nat (length (c ++ replicate k 61)) mod 4 = 0) ->
  strip_padding (c ++ replicate k 61) = c.
Proof.
  intros Hc Hk Hmod. unfold strip_padding.
  rewrite rev_app_distr, rev_replicate.
  assert (Hrev : Forall (fun ch => unit_eqb ch 61 = false) (rev c)).
  { apply Forall_forall. intros ch Hin. rewrite Forall_forall in Hc.
    apply Hc. apply list_elem_of_In, in_rev, list_elem_of_In. exact Hin. }
  destruct k as [|[|[|k]]]; [| | |lia]; cbn [replicate app] in *.
  - rewrite app_nil_r.
    destruct (N.of_nat (length c) mod 4 =? 0); [|reflexivity].
    destruct (rev c) as [|a r]; [reflexivity|].
    apply Forall_cons in Hrev as [-> _]. reflexivity.
  - rewrite Hmod by discriminate. cbn [N.eqb]. rewrite unit_eqb_refl.
    destruct (rev c) as [|b r'] eqn:E.
    + apply (f_equal (@rev N)) in E. rewrite rev_involutive in E.
      rewrite E. reflexivity.
    + apply Forall_cons in Hrev as [-> _]. rewrite <- E. apply rev_involutive.
  - rewrite Hmod by discriminate. cbn [N.eqb]. rewrite !unit_eqb_refl.
    apply rev_involutive.
Qed.

(** [atob] undoes the base64url encoding once [-] and [_] are back to [+]
    and [/], with or without padding. *)
Lemma atob_base64url pad bs :
  is_bytes bs -> atob (url_to_std (base64url_encode pad bs)) = Ok bs.
Proof.
  intros Hbs. destruct (core_decodes bs Hbs)
    as (Hdec & (vs & Hvs & Hback) & (q & r & Hlen & Hr & Hclen)).
  cbv zeta in Hdec, Hvs, Hclen.
  set (c := url_to_std (b64url_core bs)) in *.
  set (k := if pad then padding_length (length bs) else 0%nat).
  assert (Henc : url_to_std (base64url_encode pad bs) = c ++ replicate k 61).
  { unfold base64url_encode. rewrite !url_to_std_map, map_app.
    fold (url_to_std (b64url_core bs)). rewrite <- url_to_std_map. fold c.
    f_equal. subst k. destruct pad; [|reflexivity].
    fold (padding_length (length bs)).
    induction (padding_length (length bs)) as [|n IH]; [reflexivity|].
    cbn [replicate map]. rewrite IH. reflexivity. }
  assert (Hk : (k <= 2)%nat /\
               (k <> 0%nat -> N.of_nat (length (c ++ replicate k 61)) mod 4 = 0)).
  { subst k. destruct pad; [|split; [lia | congruence]].
    unfold padding_length. rewrite length_app, length_replicate, Hclen, Hlen.
    rewrite (mod3_rest q r Hr).
    destruct r as [|[|[|r]]]; try lia; cbn; split; lia. }
  destruct Hk as [Hk Hmod].
  unfold atob. rewrite Henc.
  rewrite (filter_keeps_all is_ascii_whitespace).
  2:{ apply Forall_app. split.
      - eapply Forall_impl; [exact Hdec|]. cbn. tauto.
      - apply Forall_forall. intros ch Hin.
        apply elem_of_replicate in Hin as [-> _]. reflexivity. }
  rewrite (strip_padding_core c k); [| |exact Hk|exact Hmod].
  2:{ eapply Forall_impl; [exact Hdec|]. cbn. tauto. }
  replace (N.of_nat (length c) mod 4 =? 1) with false.
  - rewrite Hvs, Hback. reflexivity.
  - symmetry. apply N.eqb_neq. rewrite Hclen.
    destruct r as [|[|[|r]]]; lia.
Qed.

(** *** Percent-encoding *)

Lemma in_range_true lo hi c : in_range lo hi c = true <-> lo <= c <= hi.
Proof. unfold in_range. rewrite andb_true_iff, !N.leb_le. tauto. Qed.

Lemma in_range_false lo hi c : in_range lo hi c = false <-> c < lo \/ hi < c.
Proof.
  unfold in_range. rewrite andb_false_iff, !N.leb_gt. tauto.
Qed.

Lemma in_range_holds lo hi c : lo <= c <= hi -> in_range lo hi c = true.
Proof. apply in_range_true. Qed.

Lemma in_range_fails lo hi c : c < lo \/ hi < c -> in_range lo hi c = false.
Proof. apply in_range_false. Qed.

Lemma prepend_Ok u s : prepend u (Ok s) = Ok (u ++ s).
Proof. reflexivity. Qed.

Lemma hex_digit_value d : d < 16 -> hex_value (hex_digit d) = Some d.
Proof.
  intros Hd.
  pose proof (below_by_cases
    (fun d => match hex_value (hex_digit d) with
              | Some d' => d' =? d
              | None => false
              end) 16 ltac:(vm_compute; reflexivity) d Hd) as Hf.
  cbv beta in Hf. destruct (hex_value (hex_digit d)) as [d'|]; [|discriminate].
  apply N.eqb_eq in Hf. congruence.
Qed.

Lemma hex_digit_ascii d : d < 16 -> hex_digit d < 128.
Proof. intros Hd. unfold hex_digit. destruct (d <? 10); lia. Qed.

Lemma pct_byte_encoded b :
  b < 256 -> pct_byte 37 (hex_digit (b / 16)) (hex_digit (b mod 16)) = Some b.
Proof.
  intros Hb. unfold pct_byte. rewrite unit_eqb_refl.
  rewrite !hex_digit_value by lia. f_equal. lia.
Qed.

Lemma pct_encode_ascii b : b < 256 -> is_ascii (pct_encode b).
Proof.
  intros Hb. unfold pct_encode, is_ascii.
  repeat constructor; try apply hex_digit_ascii; lia.
Qed.

Lemma is_unreserved_ascii c :
  is_unreserved c = true -> c < 128 /\ unit_eqb c 37 = false.
Proof.
  unfold is_unreserved. cbn [existsb]. rewrite !orb_true_iff, !in_range_true.
  unfold unit_eqb. rewrite !N.eqb_eq. intros Hc.
  split; [lia|]. apply N.eqb_neq. intuition lia.
Qed.

(** The decoder on one, two, three and four encoded bytes. *)
Lemma decode_one b rest :
  b < 128 ->
  decodeURIComponent (pct_encode b ++ rest) = prepend [b] (decodeURIComponent rest).
Proof.
  intros Hb. cbn [pct_encode app decodeURIComponent].
  rewrite unit_eqb_refl. cbn [negb]. rewrite pct_byte_encoded by lia.
  replace (b <? 128) with true by (symmetry; apply N.ltb_lt; lia).
  reflexivity.
Qed.

Lemma decode_two b b1 rest :
  192 <= b <= 223 -> b1 < 256 ->
  decodeURIComponent (pct_encode b ++ pct_encode b1 ++ rest) =
  decoded_point [b; b1] (decodeURIComponent rest).
Proof.
  intros Hb Hb1. cbn [pct_encode app decodeURIComponent].
  rewrite unit_eqb_refl. cbn [negb]. rewrite !pct_byte_encoded by lia.
  replace (b <? 128) with false by (symmetry; apply N.ltb_ge; lia).
  rewrite (in_range_holds 192 223 b) by lia. reflexivity.
Qed.

Lemma decode_three b b1 b2 rest :
  224 <= b <= 239 -> b1 < 256 -> b2 < 256 ->
  decodeURIComponent (pct_encode b ++ pct_encode b1 ++ pct_encode b2 ++ rest) =
  decoded_point [b; b1; b2] (decodeURIComponent rest).
Proof.
  intros Hb Hb1 Hb2. cbn [pct_encode app decodeURIComponent].
  rewrite unit_eqb_refl. cbn [negb]. rewrite !pct_byte_encoded by lia.
  replace (b <? 128) with false by (symmetry; apply N.ltb_ge; lia).
  rewrite (in_range_fails 192 223 b) by lia.
  rewrite (in_range_holds 224 239 b) by lia. reflexivity.
Qed.

Lemma decode_four b b1 b2 b3 rest :
  240 <= b <= 247 -> b1 < 256 -> b2 < 256 -> b3 < 256 ->
  decodeURIComponent
    (pct_encode b ++ pct_encode b1 ++ pct_encode b2 ++ pct_encode b3 ++ rest) =
  decoded_point [b; b1; b2; b3] (decodeURIComponent rest).
Proof.
  intros Hb Hb1 Hb2 Hb3. cbn [pct_encode app decodeURIComponent].
  rewrite unit_eqb_refl. cbn [negb]. rewrite !pct_byte_encoded by lia.
  replace (b <? 128) with false by (symmetry; apply N.ltb_ge; lia).
  rewrite (in_range_fails 192 223 b) by lia.
  rewrite (in_range_fails 224 239 b) by lia.
  rewrite (in_range_holds 240 247 b) by lia. reflexivity.
Qed.

(** A code point that is not a surrogate comes back from its encoding. *)
Lemma decode_encoded_point cp rest :
  cp < 1114112 -> cp < 55296 \/ 57343 < cp ->
  decodeURIComponent (concat (map pct_encode (utf8_encode cp)) ++ rest) =
  prepend (code_units cp) (decodeURIComponent rest).
Proof.
  intros Hcp Hns. unfold utf8_encode.
  destruct (cp <? 128) eqn:E1; [apply N.ltb_lt in E1 | apply N.ltb_ge in E1].
  { cbn [map concat]. rewrite app_nil_r. rewrite decode_one by lia.
    unfold code_units. replace (cp <? 65536) with true
      by (symmetry; apply N.ltb_lt; lia). reflexivity. }
  destruct (cp <? 2048) eqn:E2; [apply N.ltb_lt in E2 | apply N.ltb_ge in E2].
  { cbn [map concat]. rewrite app_nil_r, <- app_assoc.
    rewrite decode_two by lia. unfold decoded_point, utf8_value, is_continuation.
    rewrite (in_range_holds 128 191) by lia.
    replace (192 + cp / 64 - 192) with (cp / 64) by lia.
    replace (128 + cp mod 64 - 128) with (cp mod 64) by lia.
    replace (cp / 64 * 64 + cp mod 64) with cp by lia.
    replace (128 <=? cp) with true by (symmetry; apply N.leb_le; lia).
    reflexivity. }
  destruct (cp <? 65536) eqn:E3; [apply N.ltb_lt in E3 | apply N.ltb_ge in E3].
  { cbn [map concat]. rewrite app_nil_r, <- !app_assoc.
    rewrite decode_three by lia. unfold decoded_point, utf8_value, is_continuation.
    rewrite !(in_range_holds 128 191) by lia.
    replace ((224 + cp / 4096 - 224) * 4096
             + (128 + (cp / 64) mod 64 - 128) * 64 + (128 + cp mod 64 - 128))
      with cp by lia.
    replace (2048 <=? cp) with true by (symmetry; apply N.leb_le; lia).
    rewrite (in_range_fails 55296 57343 cp) by lia. reflexivity. }
  cbn [map concat]. rewrite app_nil_r, <- !app_assoc.
  rewrite decode_four by lia. unfold decoded_point, utf8_value, is_continuation.
  rewrite !(in_range_holds 128 191) by lia.
  replace ((240 + cp / 262144 - 240) * 262144
           + (128 + (cp / 4096) mod 64 - 128) * 4096
           + (128 + (cp / 64) mod 64 - 128) * 64 + (128 + cp mod 64 - 128))
    with cp by lia.
  rewrite (in_range_holds 65536 1114111 cp) by lia. reflexivity.
Qed.

Lemma encoded_point_ascii cp :
  cp < 1114112 -> is_ascii (concat (map pct_encode (utf8_encode cp))).
Proof.
  intros Hcp. unfold utf8_encode, is_ascii.
  destruct (cp <? 128) eqn:E1; [apply N.ltb_lt in E1 | apply N.ltb_ge in E1];
    [|destruct (cp <? 2048) eqn:E2;
        [apply N.ltb_lt in E2 | apply N.ltb_ge in E2];
        [|destruct (cp <? 65536) eqn:E3;
            [apply N.ltb_lt in E3 | apply N.ltb_ge in E3]]];
    cbn [map concat]; rewrite app_nil_r;
    repeat (apply Forall_app; split); apply pct_encode_ascii; lia.
Qed.

Lemma prepend_inv u r e :
  prepend u r = Ok e -> exists e', r = Ok e' /\ e = u ++ e'.
Proof.
  unfold prepend. destruct r as [e'|x]; cbn; [|discriminate].
  intros [= <-]. eauto.
Qed.

(** [decodeURIComponent] undoes [encodeURIComponent], whose result is
    ASCII text. *)
Lemma encode_decode_bounded n : forall s e,
  (length s <= n)%nat -> is_js_string s ->
  encodeURIComponent s = Ok e ->
  decodeURIComponent e = Ok s /\ is_ascii e.
Proof.
  induction n as [|n IH]; intros s e Hlen Hs Henc.
  - destruct s; [|cbn in Hlen; lia]. injection Henc as <-.
    split; [reflexivity | constructor].
  - destruct s as [|c t]; [injection Henc as <-; split; [reflexivity|constructor]|].
    apply Forall_cons in Hs as [Hc Ht]. cbn [length] in Hlen.
    cbn [encodeURIComponent] in Henc.
    destruct (is_unreserved c) eqn:Hun.
    { apply prepend_inv in Henc as (e' & He' & ->).
      destruct (IH t e' ltac:(lia) Ht He') as [Hdec Hascii].
      destruct (is_unreserved_ascii c Hun) as [Hc128 Hc37].
      split; [|constructor; assumption].
      cbn [app decodeURIComponent]. rewrite Hc37. cbn [negb].
      rewrite Hdec. reflexivity. }
    destruct (in_range 55296 56319 c) eqn:Hhigh.
    { apply in_range_true in Hhigh.
      destruct t as [|d t']; [discriminate|].
      apply Forall_cons in Ht as [Hd Ht'].
      destruct (in_range 56320 57343 d) eqn:Hlow; [|discriminate].
      apply in_range_true in Hlow.
      apply prepend_inv in Henc as (e' & He' & ->).
      cbn [length] in Hlen.
      destruct (IH t' e' ltac:(lia) Ht' He') as [Hdec Hascii].
      split.
      - rewrite decode_encoded_point by lia. rewrite Hdec, prepend_Ok.
        f_equal. unfold code_units.
        replace (_ <? 65536) with false by (symmetry; apply N.ltb_ge; lia).
        cbn [app]. f_equal; [lia|]. f_equal. lia.
      - apply Forall_app. split; [apply encoded_point_ascii; lia | exact Hascii]. }
    apply in_range_false in Hhigh.
    destruct (in_range 56320 57343 c) eqn:Hlow; [discriminate|].
    apply in_range_false in Hlow.
    apply prepend_inv in Henc as (e' & He' & ->).
    destruct (IH t e' ltac:(lia) Ht He') as [Hdec Hascii].
    split.
    + rewrite decode_encoded_point by lia. rewrite Hdec, prepend_Ok.
      unfold code_units.
      replace (c <? 65536) with true by (symmetry; apply N.ltb_lt; lia).
      reflexivity.
    + apply Forall_app. split; [apply encoded_point_ascii; lia | exact Hascii].
Qed.

Lemma encode_decode s e :
  is_js_string s -> encodeURIComponent s = Ok e ->
  decodeURIComponent e = Ok s /\ is_ascii e.
Proof. apply (encode_decode_bounded (length s)). lia. Qed.

(** [encodeURIComponent] accepts every well-formed string. *)
Lemma encode_total_bounded n : forall s,
  (length s <= n)%nat -> well_formed s = true ->
  exists e, encodeURIComponent s = Ok e.
Proof.
  induction n as [|n IH]; intros s Hlen Hwf.
  - destruct s; [|cbn in Hlen; lia]. exists []. reflexivity.
  - destruct s as [|c t]; [exists []; reflexivity|].
    cbn [length] in Hlen. cbn [encodeURIComponent well_formed] in *.
    destruct (in_range 55296 56319 c) eqn:Hhigh.
    + assert (Hun : is_unreserved c = false).
      { destruct (is_unreserved c) eqn:E; [|reflexivity].
        apply is_unreserved_ascii in E as [E _].
        apply in_range_true in Hhigh. lia. }
      rewrite Hun. destruct t as [|d t']; [discriminate|].
      apply andb_true_iff in Hwf as [-> Hwf]. cbn [length] in Hlen.
      destruct (IH t' ltac:(lia) Hwf) as [e' ->]. eexists. reflexivity.
    + apply andb_true_iff in Hwf as [Hlow Hwf]. apply negb_true_iff in Hlow.
      rewrite Hlow. destruct (IH t ltac:(lia) Hwf) as [e' ->].
      destruct (is_unreserved c); eexists; reflexivity.
Qed.

Lemma encode_total s :
  well_formed s = true -> exists e, encodeURIComponent s = Ok e.
Proof. apply (encode_total_bounded (length s)). lia. Qed.

(** *** Text decoding *)

Lemma utf8_decode_ascii bs : is_ascii bs -> utf8_decode bs = bs.
Proof.
  induction 1 as [|b bs Hb _ IH]; [reflexivity|]. cbn [utf8_decode].
  replace (b <=? 127) with true by (symmetry; apply N.leb_le; lia).
  rewrite IH. reflexivity.
Qed.

Lemma TextDecoder_decode_ascii bs : is_ascii bs -> TextDecoder_decode bs = bs.
Proof.
  intros Hbs. unfold TextDecoder_decode.
  replace (starts_with [239; 187; 191] bs) with false.
  - apply utf8_decode_ascii. exact Hbs.
  - destruct Hbs as [|b bs Hb _]; [reflexivity|]. cbn [starts_with].
    replace (unit_eqb 239 b) with false; [reflexivity|].
    symmetry. apply N.eqb_neq. lia.
Qed.

Lemma char_codes_bytes bs : is_bytes bs -> char_codes bs = bs.
Proof.
  induction 1 as [|b bs Hb _ IH]; [reflexivity|]. cbn [char_codes map].
  fold (char_codes bs). rewrite IH. f_equal. apply N.mod_small. exact Hb.
Qed.

Lemma is_ascii_bytes bs : is_ascii bs -> is_bytes bs.
Proof.
  intros Hbs. eapply Forall_impl; [exact Hbs|]. cbn. intros b Hb. lia.
Qed.

(** *** The round trip *)

(** C1: for a compressor that the decompression stream of the platform
    undoes, the forward transform of a well-formed string (URI-component
    encoding, raw deflate, base64url with or without padding) succeeds, and
    [_decompressDiagram] gives the string back: [-] and [_] are turned to
    [+] and [/], [atob] gives the compressed bytes, the chunks of the stream
    are read to its end and joined in order, the text is decoded and
    percent-decoded. *)
Theorem decompress_forward_round_trip `{Platform} deflate_raw pad xml :
  inflates deflate_raw ->
  is_js_string xml ->
  well_formed xml = true ->
  exists compressed,
    forward deflate_raw pad xml = Ok compressed /\
    _decompressDiagram compressed = Ok xml.
Proof.
  intros Hinf Hxml Hwf.
  destruct (encode_total xml Hwf) as [e He].
  destruct (encode_decode xml e Hxml He) as [Hdec Hascii].
  destruct (Hinf e (is_ascii_bytes e Hascii)) as (Hz & chunks & Hchunks & Hjoin).
  exists (base64url_encode pad (deflate_raw e)). split.
  - unfold forward. rewrite He. reflexivity.
  - unfold _decompressDiagram. fold (url_to_std (base64url_encode pad (deflate_raw e))).
    rewrite (atob_base64url pad (deflate_raw e) Hz). cbn [bind_result].
    rewrite (char_codes_bytes _ Hz).
    rewrite (read_chunks_stream _ chunks [] Hchunks). cbn [bind_result app].
    rewrite join_chunks_concat. cbn [bind_result]. rewrite Hjoin.
    rewrite (TextDecoder_decode_ascii e Hascii). exact Hdec.
Qed.

(** The platform of the examples undoes [stored_deflate]. *)
Lemma stored_deflate_bytes bs : is_bytes bs -> is_bytes (stored_deflate bs).
Proof.
  induction 1 as [|b bs Hb _ IH]; cbn [stored_deflate app].
  - repeat constructor.
  - repeat (constructor; [first [exact Hb | reflexivity]|]). exact IH.
Qed.

Lemma stored_deflate_length bs : (length bs < length (stored_deflate bs))%nat.
Proof.
  induction bs as [|b bs IH]; cbn [stored_deflate app length]; lia.
Qed.

Lemma produced_more history out :
  produced history (rev out ++ history) = out.
Proof.
  unfold produced. rewrite length_app, length_rev.
  replace (length out + length history - length history)%nat with (length (rev out))
    by (rewrite length_rev; lia).
  rewrite take_app_length. apply rev_involutive.
Qed.

Lemma inflate_stored_block fuel b rest history :
  inflate_blocks (S fuel) ([0; 1; 0; 254; 255; b] ++ rest, O) history =
  Chunk [b] (inflate_blocks fuel (rest, O) (b :: history)).
Proof.
  cbn [app inflate_blocks].
  change (read_bits 1 (0 :: 1 :: 0 :: 254 :: 255 :: b :: rest, O))
    with (Some (0, (0 :: 1 :: 0 :: 254 :: 255 :: b :: rest, 1%nat))).
  cbn match.
  change (read_bits 2 (0 :: 1 :: 0 :: 254 :: 255 :: b :: rest, 1%nat))
    with (Some (0, (0 :: 1 :: 0 :: 254 :: 255 :: b :: rest, 3%nat))).
  cbn match. cbn [N.eqb align].
  change (1 + 256 * 0 + (254 + 256 * 255) =? 65535) with true.
  change (N.to_nat (1 + 256 * 0)) with 1%nat. cbn [negb take drop].
  replace (N.of_nat (length (b :: rest)) <? 1 + 256 * 0) with false
    by (symmetry; apply N.ltb_ge; cbn [length]; lia).
  rewrite take_0, drop_0. rewrite (produced_more history [b]). reflexivity.
Qed.

Lemma inflate_last_block fuel history :
  inflate_blocks (S fuel) ([1; 0; 0; 255; 255], O) history = Chunk [] Done.
Proof.
  cbn [inflate_blocks].
  change (read_bits 1 ([1; 0; 0; 255; 255], O))
    with (Some (1, ([1; 0; 0; 255; 255], 1%nat))).
  cbn match.
  change (read_bits 2 ([1; 0; 0; 255; 255], 1%nat))
    with (Some (0, ([1; 0; 0; 255; 255], 3%nat))).
  cbn match. cbn [N.eqb align].
  change (0 + 256 * 0 + (255 + 256 * 255) =? 65535) with true.
  change (N.to_nat (0 + 256 * 0)) with 0%nat. cbn [negb take drop length].
  change (N.of_nat 0 <? 0 + 256 * 0) with false. cbn match.
  rewrite (produced_more history []). reflexivity.
Qed.

Lemma inflate_stored_deflate bs : forall fuel history,
  (length bs < fuel)%nat ->
  stream_chunks (inflate_blocks fuel (stored_deflate bs, O) history) =
  Some (map (fun b => [b]) bs ++ [[]]).
Proof.
  induction bs as [|b bs IH]; intros fuel history Hfuel.
  - destruct fuel as [|fuel]; [cbn in Hfuel; lia|].
    cbn [stored_deflate]. rewrite inflate_last_block. reflexivity.
  - destruct fuel as [|fuel]; [cbn in Hfuel; lia|]. cbn [length] in Hfuel.
    cbn [stored_deflate]. rewrite inflate_stored_block.
    cbn [stream_chunks]. rewrite IH by lia. reflexivity.
Qed.

Lemma stored_inflates : @inflates demo_platform stored_deflate.
Proof.
  intros bs Hbs. split; [apply stored_deflate_bytes; exact Hbs|].
  exists (map (fun b => [b]) bs ++ [[]]). split.
  - cbn [inflate_raw demo_platform]. unfold inflate.
    apply inflate_stored_deflate.
    pose proof (stored_deflate_length bs). lia.
  - rewrite concat_app. cbn [concat app]. rewrite app_nil_r.
    induction bs as [|b bs IH]; [reflexivity|].
    apply Forall_cons in Hbs as [_ Hbs]. cbn [map concat app].
    rewrite IH by exact Hbs. reflexivity.
Qed.

(** C1 (witness): the text [<a b="é"/>] with the compressor of the
    examples and padded base64url. *)
Lemma decompress_forward_round_trip_witness :
  exists compressed,
    forward stored_deflate true (lit "<a b=" ++ [34; 233; 34] ++ lit "/>")
      = Ok compressed /\
    @_decompressDiagram demo_platform compressed
      = Ok (lit "<a b=" ++ [34; 233; 34] ++ lit "/>").
Proof.
  apply (@decompress_forward_round_trip demo_platform stored_deflate true
           (lit "<a b=" ++ [34; 233; 34] ++ lit "/>")
           stored_inflates).
  - repeat (constructor; [reflexivity|]). constructor.
  - reflexivity.
Defined.

Example decompress_stored_example :
  @_decompressDiagram demo_platform (lit "AQQA-_8lM0Nh") = Ok (lit "<a").
Proof. vm_compute. reflexivity. Qed.

(** ** The statements at work *)

(** C4 (witness): the style [rounded=1] names no keyword: a rectangle with
    rounded corners. *)
Lemma createShape_selection_witness :
  exists paint,
    shape_of_group
      (@_createShape demo_platform (num 0) (num 0) (num 100) (num 40)
         (lit "rounded=1") []) =
    Some (SElem "rect"
            ([("x"%string, ANum (num 0)); ("y"%string, ANum (num 0));
              ("width"%string, ANum (num 100)); ("height"%string, ANum (num 40));
              ("rx"%string, AStr (lit "5")); ("ry"%string, AStr (lit "5"))]
             ++ paint) []).
Proof.
  destruct (@createShape_selection demo_platform (num 0) (num 0) (num 100)
              (num 40) (lit "rounded=1") []) as (_ & (paint & Hshape) & Hrect).
  destruct (Hrect ltac:(vm_compute; reflexivity)) as (corners & Hel & Hround & _).
  exists paint. rewrite Hshape, Hel.
  rewrite (Hround ltac:(vm_compute; reflexivity)). reflexivity.
Defined.

Example createShape_ellipse_by_substring :
  svg_tag <$> shape_of_group
    (@_createShape demo_platform (num 0) (num 0) (num 100) (num 40)
       (lit "ellipse;whiteSpace=wrap;html=1;") []) = Some "ellipse"%string.
Proof. vm_compute. reflexivity. Qed.

(** C8 (witness): a text of blanks, and a text the parser rejects. *)
Lemma loadDiagram_empty_or_invalid_witness :
  error_shown (@run (@_loadDiagram demo_platform (lit "  ")) new_widget)
    = Some EmptyDiagramFile /\
  parse_log (@run (@_loadDiagram demo_platform (lit "  ")) new_widget) = [] /\
  error_shown (@run (@_loadDiagram demo_platform (lit "<mxfile")) new_widget)
    = Some (InvalidXML (lit "XML Parsing Error: not well-formed")).
Proof.
  destruct (@loadDiagram_empty_or_invalid demo_platform (lit "  ") new_widget)
    as [Hblank _].
  destruct (@loadDiagram_empty_or_invalid demo_platform (lit "<mxfile") new_widget)
    as [_ Hbad].
  destruct (Hblank ltac:(repeat constructor)) as (_ & _ & Hshown & Hlog).
  destruct (Hbad (Elem (lit "parsererror") []
                    [Text (lit "XML Parsing Error: not well-formed")])
              ltac:(intros Hb; inversion Hb; discriminate)
              ltac:(vm_compute; reflexivity)) as (_ & _ & Hinvalid).
  split; [exact Hshown|]. split; [exact Hlog | exact Hinvalid].
Defined.

(** C7 (witness): the page text [!!!] is not base64: the codec throws, and
    the page fails with 'Could not parse diagram content'. *)
Lemma renderPage_codec_failure_witness :
  @_decompressDiagram demo_platform (lit "!!!") = Throw InvalidCharacterError /\
  fst (@_renderPage demo_platform 0 (widget_with (text_file (lit "!!!"))))
    = Throw CouldNotParseDiagramContent.
Proof.
  split; [vm_compute; reflexivity|].
  destruct (@renderPage_codec_failure demo_platform
              (widget_with (text_file (lit "!!!"))) (text_file (lit "!!!")) 0
              (text_page (lit "!!!")) InvalidCharacterError
              eq_refl eq_refl ltac:(vm_compute; reflexivity)
              ltac:(vm_compute; reflexivity) ltac:(vm_compute; reflexivity))
    as (_ & _ & _ & _ & Hneed).
  apply Hneed. vm_compute. reflexivity.
Defined.

(** C10 (witness): the page of the one-page file holds its model, and the
    codec is not called; the page that holds the model as plain text is
    drawn from that text, without a call of the codec; the page with the
    compressed text needs the codec, which is called once with that text. *)
Lemma renderPage_codec_use_witness :
  codec_log (snd (@_renderPage demo_platform 0 (widget_with (file_text 1)))) = [] /\
  @_renderPage demo_platform 0 (widget_with (text_file plain_model_payload))
    = (Ok tt,
       set_container (Diagram (@_mxGraphToSvg demo_platform (model_of [])))
         (log_parse model_text
            (log_parse (text_file plain_model_payload)
               (widget_with (text_file plain_model_payload))))) /\
  codec_log (snd (@_renderPage demo_platform 0
                    (widget_with (text_file compressed_model_text))))
    = [compressed_model_text].
Proof.
  destruct (@renderPage_codec_use demo_platform (widget_with (file_text 1)) 0)
    as [Hpage _].
  destruct (Hpage (file_text 1) page_element eq_refl
              ltac:(vm_compute; discriminate)
              ltac:(vm_compute; reflexivity)) as (_ & _ & Hnot & _).
  destruct (@renderPage_codec_use demo_platform
              (widget_with (text_file plain_model_payload)) 0)
    as [Hpage0 _].
  destruct (Hpage0 (text_file plain_model_payload)
              (text_page model_text) eq_refl
              ltac:(vm_compute; discriminate)
              ltac:(vm_compute; reflexivity)) as (_ & Hplain & _ & _).
  destruct (Hplain ltac:(vm_compute; reflexivity)
                   ltac:(vm_compute; discriminate)
                   ltac:(vm_compute; reflexivity)) as [Hdrawn _].
  destruct (@renderPage_codec_use demo_platform
              (widget_with (text_file compressed_model_text)) 0)
    as [Hpage' _].
  destruct (Hpage' (text_file compressed_model_text)
              (text_page compressed_model_text) eq_refl
              ltac:(vm_compute; discriminate)
              ltac:(vm_compute; reflexivity)) as (_ & _ & _ & Hneed).
  split; [|split].
  - rewrite Hnot; [reflexivity | left; vm_compute; eauto].
  - rewrite (Hdrawn (model_of [])); [reflexivity | vm_compute; reflexivity].
  - rewrite Hneed; [vm_compute; reflexivity | vm_compute; reflexivity
                   | vm_compute; discriminate | vm_compute; reflexivity].
Defined.

(** C10 (counterexample): the text of the page is '<mxGraphModelX/>', which
    is not empty and holds '<mxGraphModel'.  The codec is not called, as
    the specification says, but the content is not rendered: the parsed
    text holds no [mxGraphModel] element, the page fails with 'Could not
    parse diagram content' and the container stays blank. *)
Lemma renderPage_plain_text_not_drawn :
  ~ claimed_direct_rendering /\
  let w := widget_with (text_file other_name_payload) in
  _diagramXml w = Some (text_file other_name_payload) /\
  item (querySelectorAll (ByTag (lit "diagram"))
          (@parseFromString demo_platform (text_file other_name_payload))) 0
    = Some (text_page other_name_text) /\
  querySelector (ByTag (lit "mxGraphModel")) (text_page other_name_text) = None /\
  textContent (text_page other_name_text) = other_name_text /\
  includes (lit "<mxGraphModel") other_name_text = true /\
  codec_log (snd (@_renderPage demo_platform 0 w)) = [] /\
  fst (@_renderPage demo_platform 0 w) = Throw CouldNotParseDiagramContent /\
  container (snd (@_renderPage demo_platform 0 w)) = container w.
Proof.
  split.
  - intros Hclaim.
    destruct (Hclaim demo_platform (widget_with (text_file other_name_payload)) 0%Z
                (text_file other_name_payload) (text_page other_name_text)
                eq_refl ltac:(vm_compute; discriminate)
                ltac:(vm_compute; reflexivity)
                ltac:(right; split; [vm_compute; discriminate
                                    | vm_compute; reflexivity]))
      as (_ & Hok & _).
    vm_compute in Hok. discriminate.
  - vm_compute. repeat split.
Qed.

Example renderPage_compressed_page :
  fst (@_renderPage demo_platform 0
         (widget_with (text_file compressed_model_text))) = Ok tt.
Proof. vm_compute. reflexivity. Qed.

Example renderPage_plain_text_page :
  let w := snd (@_renderPage demo_platform 0
                  (widget_with (text_file plain_model_payload))) in
  codec_log w = [] /\ container w = Diagram (@_mxGraphToSvg demo_platform (parse_xml model_text)).
Proof. split; vm_compute; reflexivity. Qed.

(** A page written by zlib: the codec gives the text of the model back. *)
Example decompress_zlib_payload :
  @_decompressDiagram demo_platform drawing_payload = Ok drawing_text.
Proof. vm_compute. reflexivity. Qed.

(** The whole way from the text of a file to the picture: the page is
    decompressed once, the view box is the bounds (0, 0)-(300, 40) widened by
    30, and the edge runs from (100, 20) to (200, 20). *)
Example load_compressed_drawing :
  let w := @steps demo_platform new_widget [Load (text_file drawing_payload)] in
  error_shown w = None /\
  codec_log w = [drawing_payload] /\
  (picture w ≫= fun s => svg_attr "viewBox" (svg_attrs s)) =
    Some (AViewBox (num (-30)) (num (-30)) (num 360) (num 100)) /\
  (omap path_of_group <$> (groups_of <$> picture w)) =
    Some [{| path_start := (num 100, num 20); path_way := [];
             path_end := (num 200, num 20) |}].
Proof. repeat split; vm_compute; reflexivity. Qed.


(** * Further properties of the widget *)

(** ** Strings, continued *)

Lemma truthy_str_false s : truthy_str s = false <-> s = [].
Proof. destruct s; cbn; split; congruence. Qed.


(** ** The pipeline, continued *)

Lemma extract_model_cases `{Platform} content w :
  (exists m, extract_model content w =
             (Ok tt, set_container (Diagram (_mxGraphToSvg m))
                       (log_parse content w))) \/
  extract_model content w = (Throw CouldNotParseDiagramContent, w) \/
  extract_model content w =
    (Throw CouldNotParseDiagramContent, log_parse content w).
Proof.
  unfold extract_model.
  destruct (includes mxGraphModel_tag content); [|right; left; reflexivity].
  monad_step.
  destruct (querySelector _ (parseFromString content)) as [m|].
  - left. exists m. reflexivity.
  - right. right. reflexivity.
Qed.

Lemma item_None (l : list node) i : item l i = None <-> ~ is_page_of l i.
Proof.
  unfold item, is_page_of. destruct (i <? 0)%Z eqn:E.
  - apply Z.ltb_lt in E. split; [lia | reflexivity].
  - apply Z.ltb_ge in E. rewrite lookup_ge_None. lia.
Qed.

(** [_renderPage] when the page does not exist, and without pages. *)
Lemma renderPage_no_page `{Platform} w xml i :
  _diagramXml w = Some xml ->
  truthy_str xml = true ->
  item (pages_of xml) i = None ->
  _renderPage i w =
  match pages_of xml with
  | [] =>
      match querySelector (ByTag (lit "mxGraphModel")) (parseFromString xml) with
      | Some m => (Ok tt, set_container (Diagram (_mxGraphToSvg m))
                            (log_parse xml w))
      | None => (Throw NoDiagramContentFound, log_parse xml w)
      end
  | _ => (Throw (PageNNotFound (i + 1)), log_parse xml w)
  end.
Proof.
  intros Hxml Ht Hitem. unfold _renderPage. monad_step.
  rewrite Hxml, Ht. cbn [negb]. fold (pages_of xml).
  destruct (pages_of xml) as [|d ds].
  - destruct (querySelector _ (parseFromString xml)); reflexivity.
  - rewrite Hitem. reflexivity.
Qed.

Lemma renderPage_no_document `{Platform} w i :
  (_diagramXml w = None \/ _diagramXml w = Some []) ->
  _renderPage i w = (Ok tt, w).
Proof.
  intros [Hx | Hx]; unfold _renderPage; monad_step; rewrite Hx; reflexivity.
Qed.

Lemma same_but_container_refl w : same_but_container w w.
Proof. unfold same_but_container. tauto. Qed.

Lemma same_but_container_trans w1 w2 w3 :
  same_but_container w1 w2 -> same_but_container w2 w3 ->
  same_but_container w1 w3.
Proof. unfold same_but_container. intuition congruence. Qed.

Lemma same_but_container_log_parse s w : same_but_container w (log_parse s w).
Proof. unfold same_but_container. cbn. tauto. Qed.

Lemma same_but_container_log_codec s w : same_but_container w (log_codec s w).
Proof. unfold same_but_container. cbn. tauto. Qed.

Lemma same_but_container_set_container v w :
  same_but_container w (set_container v w).
Proof. unfold same_but_container. cbn. tauto. Qed.

Create HintDb frame.

#[local] Hint Resolve same_but_container_refl same_but_container_log_parse
  same_but_container_log_codec same_but_container_set_container : frame.

Lemma renderPage_run `{Platform} i w : page_run i w (_renderPage i w).
Proof.
  destruct (_diagramXml w) as [xml|] eqn:Hxml.
  2:{ rewrite renderPage_no_document by auto. apply run_nothing. auto. }
  destruct (truthy_str xml) eqn:Ht.
  2:{ apply truthy_str_false in Ht. subst xml.
      rewrite renderPage_no_document by auto. apply run_nothing. auto. }
  assert (Hne : xml <> []) by (apply truthy_str_not_empty; exact Ht).
  destruct (item (pages_of xml) i) as [diagram|] eqn:Hitem.
  - rewrite (renderPage_page w xml i diagram Hxml Ht Hitem). cbn zeta.
    destruct (querySelector (ByTag (lit "mxGraphModel")) diagram) as [m|] eqn:Hm.
    + apply (run_drawn i w xml m); eauto with frame.
    + assert (Hex : forall c w0,
                 same_but_container w w0 -> container w0 = container w ->
                 page_run i w (extract_model c w0)).
      { intros c w0 Hs Hc.
        destruct (extract_model_cases c w0) as [[m ->] | [-> | ->]].
        - apply (run_drawn i w xml m);
            eauto using same_but_container_trans with frame.
        - apply (run_unparsable i w xml diagram); auto.
        - apply (run_unparsable i w xml diagram);
            eauto using same_but_container_trans with frame. }
      destruct (needs_codec diagram);
        [destruct (_decompressDiagram (payload_of diagram))|];
        apply Hex;
        eauto using same_but_container_trans with frame.
  - rewrite (renderPage_no_page w xml i Hxml Ht Hitem).
    destruct (pages_of xml) as [|d ds] eqn:Hp.
    + destruct (querySelector _ (parseFromString xml)) as [m|] eqn:Hq.
      * apply (run_drawn i w xml m); eauto with frame.
      * apply (run_no_content i w xml); auto.
    + apply (run_no_page i w xml); auto.
      * rewrite Hp. discriminate.
      * rewrite Hp. apply item_None. exact Hitem.
Qed.


Lemma renderDiagram_run `{Platform} content w :
  _renderDiagram content w =
  match querySelector (ByTag (lit "parsererror")) (parseFromString content) with
  | Some parseError =>
      (Throw (InvalidXML (textContent parseError)), log_parse content w)
  | None => _renderPage (_currentPage w) (prepared content w)
  end.
Proof.
  unfold _renderDiagram, prepared.
  cbv beta iota delta [parse bind modify ret throw get _setupPageNavigation].
  destruct (querySelector (ByTag (lit "parsererror")) (parseFromString content));
    [reflexivity|].
  fold (pages_of content). cbn [_totalPages set_totalPages].
  destruct (page_count (pages_of content) >? 1)%Z; reflexivity.
Qed.

Lemma load_body_run `{Platform} content w :
  load_body content w =
  if negb (truthy_str content) || str_eqb (trim content) []
  then (Throw EmptyDiagramFile, set_container LoadingDiagram w)
  else match _renderDiagram content (set_container LoadingDiagram w) with
       | (Ok _, w') => (Ok tt, settle Resolved w')
       | (Throw e, w') => (Throw e, w')
       end.
Proof.
  unfold load_body. cbv beta iota delta [bind modify ret throw].
  destruct (negb (truthy_str content) || str_eqb (trim content) []);
    [reflexivity|].
  destruct (_renderDiagram content (set_container LoadingDiagram w))
    as [[[]|e] w']; reflexivity.
Qed.

Lemma loadDiagram_run `{Platform} content w :
  run (_loadDiagram content) w =
  match load_body content w with
  | (Ok _, w') => w'
  | (Throw e, w') => settle (Rejected e) (set_error_shown (Some e) w')
  end.
Proof.
  unfold run, _loadDiagram, try_catch, _showError.
  cbv beta iota delta [bind modify].
  destruct (load_body content w) as [[[]|e] w']; reflexivity.
Qed.

Lemma prepared_fields `{Platform} content w :
  _currentPage (prepared content w) = _currentPage w /\
  _totalPages (prepared content w) = page_count (pages_of content) /\
  _diagramXml (prepared content w) = Some content /\
  toolbar (prepared content w) =
    (if (page_count (pages_of content) >? 1)%Z
     then Some (_currentPage w + 1, page_count (pages_of content))%Z
     else toolbar w) /\
  container (prepared content w) = container w /\
  error_shown (prepared content w) = error_shown w /\
  _ready (prepared content w) = _ready w.
Proof.
  unfold prepared. destruct (page_count (pages_of content) >? 1)%Z; cbn; tauto.
Qed.

(** What a load that completes leaves, and what a load that fails leaves. *)
Lemma load_body_completes `{Platform} content w w' :
  load_body content w = (Ok tt, w') ->
  exists w1 s,
    w' = settle Resolved (set_container (Diagram s) w1) /\
    same_but_container (prepared content (set_container LoadingDiagram w)) w1.
Proof.
  rewrite load_body_run.
  destruct (negb (truthy_str content) || str_eqb (trim content) []) eqn:Hb;
    [discriminate|].
  rewrite renderDiagram_run.
  destruct (querySelector (ByTag (lit "parsererror")) (parseFromString content));
    [discriminate|].
  set (w0 := prepared content (set_container LoadingDiagram w)).
  change (_currentPage (set_container LoadingDiagram w)) with (_currentPage w).
  pose proof (renderPage_run (_currentPage w) w0) as R.
  destruct (_renderPage (_currentPage w) w0) as [[[]|e] w2]; [|discriminate].
  intros [= <-].
  apply orb_false_iff in Hb as [Ht _]. apply negb_false_iff in Ht.
  pose proof (prepared_fields content (set_container LoadingDiagram w))
    as (_ & _ & Hdoc & _). fold w0 in Hdoc.
  inversion R as [Hn Heq | xml m w1 Hx Hne Hs Heq | | | ]; subst.
  - destruct Hn as [Hn | Hn]; rewrite Hdoc in Hn; [discriminate|].
    injection Hn as ->. discriminate.
  - eauto.
Qed.

Lemma load_body_fails `{Platform} content w e w' :
  load_body content w = (Throw e, w') ->
  container w' = LoadingDiagram /\
  ((e = EmptyDiagramFile \/ exists d, e = InvalidXML d) /\
   same_but_container w w'
   \/
   (e = NoDiagramContentFound \/ e = PageNNotFound (_currentPage w + 1)
    \/ e = CouldNotParseDiagramContent) /\
   same_but_container (prepared content (set_container LoadingDiagram w)) w').
Proof.
  rewrite load_body_run.
  destruct (negb (truthy_str content) || str_eqb (trim content) []) eqn:Hb.
  { intros [= <- <-]. split; [reflexivity|]. left.
    split; [auto | apply same_but_container_set_container]. }
  rewrite renderDiagram_run.
  destruct (querySelector (ByTag (lit "parsererror")) (parseFromString content))
    as [pe|].
  { intros [= <- <-]. split; [reflexivity|]. left. split; [eauto|].
    unfold same_but_container. cbn. tauto. }
  set (w0 := prepared content (set_container LoadingDiagram w)).
  change (_currentPage (set_container LoadingDiagram w)) with (_currentPage w).
  pose proof (renderPage_run (_currentPage w) w0) as R.
  pose proof (prepared_fields content (set_container LoadingDiagram w))
    as (_ & _ & _ & _ & Hc & _). fold w0 in Hc. cbn in Hc.
  destruct (_renderPage (_currentPage w) w0) as [[[]|e0] w2]; [discriminate|].
  intros [= <- <-].
  inversion R as [ | | xml Hx Hne Hp Hq Heq | xml Hx Hne Hp Hi Heq
                  | xml d w1 Hx Hne Hi Hq Hs Hc' Heq]; subst.
  - split; [exact Hc|]. right. split; [auto | apply same_but_container_log_parse].
  - split; [exact Hc|]. right. split; [auto | apply same_but_container_log_parse].
  - split; [congruence|]. right. split; [auto | assumption].
Qed.

Lemma settle_fields v w :
  _currentPage (settle v w) = _currentPage w /\
  _totalPages (settle v w) = _totalPages w /\
  _diagramXml (settle v w) = _diagramXml w /\
  toolbar (settle v w) = toolbar w /\
  container (settle v w) = container w /\
  error_shown (settle v w) = error_shown w.
Proof. cbn. tauto. Qed.


(** ** The page controller, continued *)

Lemma updatePageDisplay_run `{Platform} w :
  snd (_updatePageDisplay w) =
  snd (_renderPage (_currentPage w)
         match toolbar w with
         | Some (_, total) => set_toolbar (Some (_currentPage w + 1, total)%Z) w
         | None => w
         end).
Proof.
  unfold _updatePageDisplay.
  unfold bind at 1. unfold modify at 1. cbn beta iota.
  unfold bind at 1. unfold get at 1. cbn beta iota.
  rewrite void_snd. destruct (toolbar w) as [[shownPage total]|]; reflexivity.
Qed.

(** The state a click moves to before the page is drawn. *)
Lemma click_run `{Platform} w ev :
  is_click ev ->
  step w ev = w \/
  exists shownPage total j,
    toolbar w = Some (shownPage, total) /\
    (ev = ClickPrev /\ (_currentPage w > 0)%Z /\ j = (_currentPage w - 1)%Z
     \/ ev = ClickNext /\ (_currentPage w < _totalPages w - 1)%Z
        /\ j = (_currentPage w + 1)%Z) /\
    step w ev =
    snd (_renderPage j (set_toolbar (Some (j + 1, total)%Z)
                          (set_currentPage j w))).
Proof.
  intros [-> | ->]; cbn [step];
    (destruct (toolbar w) as [[shownPage total]|] eqn:Htb; [|left; reflexivity]).
  - rewrite prevPage_click_run.
    destruct (_currentPage w >? 0)%Z eqn:E; [|left; reflexivity].
    right. exists shownPage, total, (_currentPage w - 1)%Z.
    split; [reflexivity|]. split.
    + left. split; [reflexivity|]. split; [|reflexivity].
      apply Z.lt_gt, Z.gtb_lt. exact E.
    + rewrite updatePageDisplay_run. cbn [toolbar set_currentPage _currentPage].
      rewrite Htb. reflexivity.
  - rewrite nextPage_click_run.
    destruct (_currentPage w <? _totalPages w - 1)%Z eqn:E; [|left; reflexivity].
    right. exists shownPage, total, (_currentPage w + 1)%Z.
    split; [reflexivity|]. split.
    + right. split; [reflexivity|]. split; [|reflexivity].
      apply Z.ltb_lt. exact E.
    + rewrite updatePageDisplay_run. cbn [toolbar set_currentPage _currentPage].
      rewrite Htb. reflexivity.
Qed.

Lemma renderPage_same_but_container `{Platform} i w :
  same_but_container w (snd (_renderPage i w)).
Proof.
  pose proof (renderPage_run i w) as R.
  destruct (_renderPage i w) as [r w'].
  inversion R; subst; cbn [snd];
    eauto using same_but_container_trans with frame.
Qed.

Lemma renderPage_container `{Platform} i w :
  match fst (_renderPage i w) with
  | Ok _ => snd (_renderPage i w) = w
            \/ exists s, container (snd (_renderPage i w)) = Diagram s
  | Throw _ => container (snd (_renderPage i w)) = container w
  end.
Proof.
  pose proof (renderPage_run i w) as R.
  destruct (_renderPage i w) as [r w'].
  inversion R; subst; cbn [fst snd]; eauto.
Qed.

(** What a click leaves alone. *)
Lemma click_frame `{Platform} w ev :
  is_click ev ->
  _totalPages (step w ev) = _totalPages w /\
  _diagramXml (step w ev) = _diagramXml w /\
  error_shown (step w ev) = error_shown w /\
  _ready (step w ev) = _ready w.
Proof.
  intros Hev.
  destruct (click_run w ev Hev)
    as [-> | (shownPage & total & j & _ & _ & ->)]; [tauto|].
  match goal with
  | |- context [_renderPage ?i ?w0] =>
      destruct (renderPage_same_but_container i w0)
        as (_ & -> & -> & _ & -> & ->)
  end.
  cbn. tauto.
Qed.

(** What a load leaves alone. *)
Lemma load_frame `{Platform} w content :
  _currentPage (step w (Load content)) = _currentPage w /\
  (error_shown (step w (Load content)) = error_shown w
   \/ exists e, error_shown (step w (Load content)) = Some e) /\
  _ready (step w (Load content)) <> Pending /\
  (_ready w <> Pending -> _ready (step w (Load content)) = _ready w).
Proof.
  cbn [step]. rewrite loadDiagram_run.
  destruct (load_body content w) as [[[]|e] w'] eqn:Hl.
  - destruct (load_body_completes _ _ _ Hl) as (w1 & s & -> & Hs).
    destruct (prepared_fields content (set_container LoadingDiagram w))
      as (Hc & _ & _ & _ & _ & He & Hr).
    destruct Hs as (Hc1 & _ & _ & _ & He1 & Hr1).
    cbn in *. rewrite Hr1, Hr, Hc1, Hc, He1, He.
    repeat split; auto; destruct (_ready w); congruence.
  - destruct (load_body_fails _ _ _ _ Hl) as (_ & [[_ Hs] | [_ Hs]]).
    + destruct Hs as (Hc1 & _ & _ & _ & _ & Hr1).
      cbn. rewrite Hr1, Hc1.
      repeat split; eauto; destruct (_ready w); congruence.
    + destruct (prepared_fields content (set_container LoadingDiagram w))
        as (Hc & _ & _ & _ & _ & _ & Hr).
      destruct Hs as (Hc1 & _ & _ & _ & _ & Hr1).
      cbn in *. rewrite Hr1, Hr, Hc1, Hc.
      repeat split; eauto; destruct (_ready w); congruence.
Qed.

(** The invariant of the controller. *)
Lemma step_keeps_toolbar_consistent `{Platform} w ev :
  (0 <= _currentPage w)%Z /\ (1 <= _totalPages w)%Z /\ toolbar_consistent w ->
  (0 <= _currentPage (step w ev))%Z /\ (1 <= _totalPages (step w ev))%Z /\
  toolbar_consistent (step w ev).
Proof.
  intros (Hc & Ht & Htb).
  assert (Hclick : is_click ev ->
            (0 <= _currentPage (step w ev))%Z /\
            (1 <= _totalPages (step w ev))%Z /\ toolbar_consistent (step w ev)).
  { intros Hev.
    destruct (click_run w ev Hev)
      as [-> | (shownPage & total & j & Hw & Hj & ->)]; [tauto|].
    match goal with
    | |- context [_renderPage ?i ?w0] =>
        destruct (renderPage_same_but_container i w0)
          as (Hc1 & Ht1 & _ & Htb1 & _)
    end.
    unfold toolbar_consistent in *. rewrite Hc1, Ht1, Htb1. cbn.
    rewrite Hw in Htb. lia. }
  destruct ev as [content | |]; [|apply Hclick; left; reflexivity
                                 |apply Hclick; right; reflexivity].
  cbn [step]. rewrite loadDiagram_run.
  pose proof (page_count_pos (pages_of content)) as Hpos.
  assert (Hprep : forall w0 w1,
            same_but_container (prepared content (set_container LoadingDiagram w)) w0 ->
            _currentPage w1 = _currentPage w0 -> _totalPages w1 = _totalPages w0 ->
            toolbar w1 = toolbar w0 ->
            (0 <= _currentPage w1)%Z /\ (1 <= _totalPages w1)%Z /\
            toolbar_consistent w1).
  { intros w0 w1 (Hc1 & Ht1 & _ & Htb1 & _) Hc2 Ht2 Htb2.
    destruct (prepared_fields content (set_container LoadingDiagram w))
      as (Hc0 & Ht0 & _ & Htb0 & _).
    unfold toolbar_consistent in *.
    rewrite Hc2, Ht2, Htb2, Hc1, Ht1, Htb1, Hc0, Ht0, Htb0.
    cbn [_currentPage toolbar set_container].
    destruct (page_count (pages_of content) >? 1)%Z eqn:E.
    - apply Z.gtb_lt in E. lia.
    - assert (page_count (pages_of content) = 1%Z) as ->
        by (rewrite Z.gtb_ltb in E; apply Z.ltb_ge in E; lia).
      destruct (toolbar w) as [[shownPage total]|]; lia. }
  assert (Hsame : forall w0 w1, same_but_container w w0 ->
            _currentPage w1 = _currentPage w0 -> _totalPages w1 = _totalPages w0 ->
            toolbar w1 = toolbar w0 ->
            (0 <= _currentPage w1)%Z /\ (1 <= _totalPages w1)%Z /\
            toolbar_consistent w1).
  { intros w0 w1 (Hc1 & Ht1 & _ & Htb1 & _) Hc2 Ht2 Htb2.
    unfold toolbar_consistent in *. rewrite Hc2, Ht2, Htb2, Hc1, Ht1, Htb1. tauto. }
  destruct (load_body content w) as [[[]|e] w'] eqn:Hl.
  - destruct (load_body_completes _ _ _ Hl) as (w1 & s & -> & Hs).
    apply (Hprep w1); [exact Hs | reflexivity..].
  - destruct (load_body_fails _ _ _ _ Hl) as (_ & [[_ Hs] | [_ Hs]]).
    + apply (Hsame w'); [exact Hs | reflexivity..].
    + apply (Hprep w'); [exact Hs | reflexivity..].
Qed.

Lemma steps_keep_toolbar_consistent `{Platform} (es : list event) : forall w,
  (0 <= _currentPage w)%Z /\ (1 <= _totalPages w)%Z /\ toolbar_consistent w ->
  (0 <= _currentPage (steps w es))%Z /\ (1 <= _totalPages (steps w es))%Z /\
  toolbar_consistent (steps w es).
Proof.
  unfold steps. induction es as [|ev es IH]; intros w Hw; [exact Hw|].
  cbn [fold_left]. apply IH, step_keeps_toolbar_consistent, Hw.
Qed.

Lemma reachable_toolbar_consistent `{Platform} w :
  reachable w ->
  (0 <= _currentPage w)%Z /\ (1 <= _totalPages w)%Z /\ toolbar_consistent w.
Proof.
  intros (content & es & ->). apply steps_keep_toolbar_consistent.
  unfold toolbar_consistent. cbn. lia.
Qed.


(** X1: [_renderPage] writes nothing but the container (and the two logs):
    the page index, the page count, the stored document, the toolbar, the
    error panel and the [_ready] promise are as before.  When it throws,
    the container still shows what it showed; when it returns, either
    there was no document and nothing changed, or the container shows a
    picture. *)
Theorem renderPage_keeps_fields `{Platform} i w :
  same_but_container w (snd (_renderPage i w)) /\
  (forall e, fst (_renderPage i w) = Throw e ->
     container (snd (_renderPage i w)) = container w) /\
  (fst (_renderPage i w) = Ok tt ->
     ((_diagramXml w = None \/ _diagramXml w = Some []) /\
      snd (_renderPage i w) = w)
     \/ exists s, container (snd (_renderPage i w)) = Diagram s).
Proof.
  split; [apply renderPage_same_but_container|].
  pose proof (renderPage_run i w) as R.
  destruct (_renderPage i w) as [r w'].
  inversion R; subst; cbn [fst snd]; split;
    solve [ discriminate | intros; discriminate | eauto | intros; eauto ].
Qed.

(** X2: The errors of [_renderPage].  It throws nothing but 'No diagram
    content found', 'Page N not found' with N the page index plus one, and
    'Could not parse diagram content'.  For a stored document that is not
    empty: the first exactly when the document has no [diagram] element and
    no [mxGraphModel] element; the second exactly when it has [diagram]
    elements and the index is not one of theirs; the third only for a page
    that exists and has no model element inside. *)
Theorem renderPage_errors `{Platform} i w :
  (forall e, fst (_renderPage i w) = Throw e ->
     e = NoDiagramContentFound \/ e = PageNNotFound (i + 1)
     \/ e = CouldNotParseDiagramContent) /\
  (forall xml, _diagramXml w = Some xml -> xml <> [] ->
     (fst (_renderPage i w) = Throw NoDiagramContentFound <->
      pages_of xml = [] /\
      querySelector (ByTag (lit "mxGraphModel")) (parseFromString xml) = None) /\
     (forall n, fst (_renderPage i w) = Throw (PageNNotFound n) <->
      pages_of xml <> [] /\ ~ is_page_of (pages_of xml) i /\ n = (i + 1)%Z) /\
     (fst (_renderPage i w) = Throw CouldNotParseDiagramContent ->
      exists diagram,
        item (pages_of xml) i = Some diagram /\
        querySelector (ByTag (lit "mxGraphModel")) diagram = None)).
Proof.
  split.
  - intros e He. pose proof (renderPage_run i w) as R.
    destruct (_renderPage i w) as [r w']. cbn in He. subst r.
    inversion R; subst; auto.
  - intros xml Hxml Hne.
    assert (Ht : truthy_str xml = true) by (apply truthy_str_not_empty; exact Hne).
    destruct (item (pages_of xml) i) as [diagram|] eqn:Hitem.
    + pose proof (item_Some_nonempty _ _ _ Hitem) as Hp.
      assert (Hin : is_page_of (pages_of xml) i).
      { destruct (Z_lt_dec i 0) as [Hlt|Hge];
          [|destruct (Z_lt_dec i (Z.of_nat (length (pages_of xml))))
             as [Hlt'|Hge']].
        - exfalso. assert (Hn : item (pages_of xml) i = None)
            by (apply item_None; unfold is_page_of; lia). congruence.
        - unfold is_page_of. lia.
        - exfalso. assert (Hn : item (pages_of xml) i = None)
            by (apply item_None; unfold is_page_of; lia). congruence. }
      assert (Hr : fst (_renderPage i w) = Ok tt \/
                   fst (_renderPage i w) = Throw CouldNotParseDiagramContent /\
                   querySelector (ByTag (lit "mxGraphModel")) diagram = None).
      { rewrite (renderPage_page w xml i diagram Hxml Ht Hitem). cbn zeta.
        destruct (querySelector (ByTag (lit "mxGraphModel")) diagram) as [m|];
          [left; reflexivity|].
        assert (Hex : forall c w0,
                  fst (extract_model c w0) = Ok tt \/
                  fst (extract_model c w0) = Throw CouldNotParseDiagramContent).
        { intros c w0.
          destruct (extract_model_cases c w0) as [[m ->] | [-> | ->]]; auto. }
        destruct (needs_codec diagram);
          [destruct (_decompressDiagram (payload_of diagram))|];
          match goal with
          | |- context [extract_model ?c ?w0] => destruct (Hex c w0); auto
          end. }
      destruct Hr as [-> | [-> Hq]];
        repeat split; try discriminate; try tauto;
        try (intros (Hn & _); contradiction);
        intros _; exists diagram; split; [reflexivity | assumption].
    + rewrite (renderPage_no_page w xml i Hxml Ht Hitem).
      apply item_None in Hitem.
      destruct (pages_of xml) as [|d ds] eqn:Hp.
      * destruct (querySelector _ (parseFromString xml)) as [m|] eqn:Hq;
          cbn [fst]; (split; [|split]);
          try (intros n; split; [discriminate | tauto]);
          try discriminate; try tauto.
        split; [discriminate | intros [_ Hn]; discriminate].
      * cbn [fst]. split; [|split].
        -- split; [discriminate | intros [Hn _]; discriminate].
        -- intros n. split.
           ++ intros [= <-]. repeat split; [discriminate | exact Hitem].
           ++ intros (_ & _ & ->). reflexivity.
        -- discriminate.
Qed.


(** X3: A load whose [try] block completes: the text is the stored document,
    the page count is the number of [diagram] elements (1 when there is
    none), the page index is the one the widget had, the toolbar is filled
    with index plus one and count when there are several pages and is left
    as it was otherwise, the container shows a picture, the error panel is
    as before, and a pending [_ready] is resolved. *)
Theorem loadDiagram_success `{Platform} content w :
  fst (load_body content w) = Ok tt ->
  let w' := run (_loadDiagram content) w in
  let total := page_count (pages_of content) in
  _diagramXml w' = Some content /\
  _totalPages w' = total /\
  _currentPage w' = _currentPage w /\
  toolbar w' = (if (total >? 1)%Z
                then Some (_currentPage w + 1, total)%Z else toolbar w) /\
  (exists s, container w' = Diagram s) /\
  error_shown w' = error_shown w /\
  _ready w' = match _ready w with Pending => Resolved | p => p end.
Proof.
  intros Hok. cbv zeta. rewrite loadDiagram_run.
  destruct (load_body content w) as [[[]|e] w'] eqn:Hl; [|discriminate].
  destruct (load_body_completes _ _ _ Hl)
    as (w1 & s & -> & Hc1 & Ht1 & Hd1 & Htb1 & He1 & Hr1).
  destruct (prepared_fields content (set_container LoadingDiagram w))
    as (Hc0 & Ht0 & Hd0 & Htb0 & _ & He0 & Hr0).
  cbn in *. rewrite Hc1, Ht1, Hd1, Htb1, He1, Hr1, Hc0, Ht0, Hd0, Htb0, He0, Hr0.
  repeat split; eauto.
Qed.

(** X3 (witness): the first load of the file of three pages. *)
Lemma loadDiagram_success_witness :
  let w' := @run (@_loadDiagram demo_platform (file_text 3)) new_widget in
  _totalPages w' = 3%Z /\ toolbar w' = Some (1, 3)%Z /\ _ready w' = Resolved /\
  exists s, container w' = Diagram s.
Proof.
  destruct (@loadDiagram_success demo_platform (file_text 3) new_widget)
    as (_ & Ht & _ & Htb & Hc & _ & Hr); [vm_compute; reflexivity|].
  cbv zeta. rewrite Ht, Htb, Hr.
  split; [vm_compute; reflexivity|].
  split; [vm_compute; reflexivity|].
  split; [reflexivity | exact Hc].
Defined.

(** X4: A load whose [try] block throws: the error is one of the five the
    widget raises itself (never one of the codec), it is what the error
    panel shows and what a pending [_ready] is rejected with, the container
    is left with the loading notice, and the page index is as before.  When
    the text is blank or not XML, the stored document, the page count and
    the toolbar are those of the document loaded before; when the page
    cannot be drawn, the new text is the stored document and its page
    count is set. *)
Theorem loadDiagram_failure `{Platform} content w e :
  fst (load_body content w) = Throw e ->
  let w' := run (_loadDiagram content) w in
  is_widget_error e /\ error_kind e <> DecodeError /\
  error_shown w' = Some e /\
  _ready w' = match _ready w with Pending => Rejected e | p => p end /\
  container w' = LoadingDiagram /\
  _currentPage w' = _currentPage w /\
  ((e = EmptyDiagramFile \/ exists d, e = InvalidXML d) ->
   _diagramXml w' = _diagramXml w /\ _totalPages w' = _totalPages w /\
   toolbar w' = toolbar w) /\
  (e = NoDiagramContentFound \/ e = PageNNotFound (_currentPage w + 1)
   \/ e = CouldNotParseDiagramContent ->
   _diagramXml w' = Some content /\
   _totalPages w' = page_count (pages_of content)).
Proof.
  intros Hthrow. cbv zeta. rewrite loadDiagram_run.
  destruct (load_body content w) as [[[]|e0] w'] eqn:Hl; [discriminate|].
  cbn in Hthrow. injection Hthrow as ->.
  destruct (load_body_fails _ _ _ _ Hl) as (Hcont & Hcases). clear Hl.
  destruct (prepared_fields content (set_container LoadingDiagram w))
    as (Hc0 & Ht0 & Hd0 & Htb0 & _ & He0 & Hr0).
  destruct Hcases as [[He (Hc1 & Ht1 & Hd1 & Htb1 & He1 & Hr1)]
                     | [He (Hc1 & Ht1 & Hd1 & Htb1 & He1 & Hr1)]];
    cbn in *; rewrite ?Hc1, ?Ht1, ?Hd1, ?Htb1, ?Hr1, ?Hc0, ?Ht0, ?Hd0, ?Hr0.
  - destruct He as [-> | [d ->]]; cbn;
      repeat split; auto; try discriminate;
      match goal with
      | Hn : _ \/ _ |- _ => decompose [or ex] Hn; discriminate
      end.
  - destruct He as [-> | [-> | ->]]; cbn;
      repeat split; auto; try discriminate;
      match goal with
      | Hn : _ \/ _ |- _ => decompose [or ex] Hn; discriminate
      end.
Qed.

(** X4 (witness): the file of one page whose text is [!!!]. *)
Lemma loadDiagram_failure_witness :
  let w' := @run (@_loadDiagram demo_platform (text_file (lit "!!!"))) new_widget in
  error_shown w' = Some CouldNotParseDiagramContent /\
  _ready w' = Rejected CouldNotParseDiagramContent /\
  container w' = LoadingDiagram /\
  _diagramXml w' = Some (text_file (lit "!!!")).
Proof.
  destruct (@loadDiagram_failure demo_platform (text_file (lit "!!!")) new_widget
              CouldNotParseDiagramContent)
    as (_ & _ & He & Hr & Hc & _ & _ & Hd); [vm_compute; reflexivity|].
  destruct Hd as [Hd _]; [auto|].
  cbv zeta. rewrite He, Hr, Hc, Hd. repeat split; reflexivity.
Defined.

Lemma steps_app `{Platform} w (es es' : list event) :
  steps w (es ++ es') = steps (steps w es) es'.
Proof. unfold steps. apply fold_left_app. Qed.

(** X5: Once the error panel is shown it stays shown, whatever is loaded
    or clicked afterwards: nothing hides it again, not even a load that
    completes. *)
Theorem error_panel_stays `{Platform} w (es : list event) :
  is_Some (error_shown w) -> is_Some (error_shown (steps w es)).
Proof.
  revert w. unfold steps.
  induction es as [|ev es IH]; intros w Hw; [exact Hw|].
  cbn [fold_left]. apply IH.
  destruct ev as [content | |].
  - destruct (load_frame w content) as (_ & [-> | [e ->]] & _); eauto.
  - destruct (click_frame w ClickPrev) as (_ & _ & -> & _);
      [left; reflexivity | exact Hw].
  - destruct (click_frame w ClickNext) as (_ & _ & -> & _);
      [right; reflexivity | exact Hw].
Qed.

(** X5 (witness): a blank text is loaded, then the file of one page: the
    picture is put into the container and the error panel is still shown. *)
Lemma error_panel_stays_witness :
  let w := @steps demo_platform new_widget [Load (lit "  ")] in
  let w' := @steps demo_platform w [Load (file_text 1)] in
  is_Some (error_shown w) /\ is_Some (error_shown w') /\
  exists s, container w' = Diagram s.
Proof.
  cbv zeta.
  assert (Hw : is_Some (error_shown (@steps demo_platform new_widget
                                       [Load (lit "  ")])))
    by (vm_compute; eauto).
  split; [exact Hw|].
  split; [exact (@error_panel_stays demo_platform _ [Load (file_text 1)] Hw)|].
  vm_compute. eauto.
Defined.





(** X7: In every state the widget can reach, the page index is at least 0
    and the page count at least 1. *)
Theorem page_index_bounds `{Platform} w :
  reachable w -> (0 <= _currentPage w)%Z /\ (1 <= _totalPages w)%Z.
Proof.
  intros Hr. destruct (reachable_toolbar_consistent w Hr) as (Hc & Ht & _).
  split; assumption.
Qed.

(** X7 (witness): the state after the three-page file was opened, its last
    page reached and the one-page file loaded. *)
Lemma page_index_bounds_witness :
  let w := @steps demo_platform new_widget shrinking_reload in
  (0 <= _currentPage w)%Z /\ (1 <= _totalPages w)%Z.
Proof.
  apply (@page_index_bounds demo_platform).
  exists (file_text 3), [ClickNext; ClickNext; Load (file_text 1)]. reflexivity.
Defined.

(** X8: In every state the widget can reach, the toolbar agrees with the
    page index: while the toolbar is hidden the index is 0 and the count 1
    (the buttons do not exist yet); once it is filled it shows the index
    plus one, and a count of at least two which is the page count of the
    widget unless a document of one page was loaded since (the toolbar then
    still shows the old count). *)
Theorem toolbar_shows_page_index `{Platform} w :
  reachable w -> toolbar_consistent w.
Proof.
  intros Hr. destruct (reachable_toolbar_consistent w Hr) as (_ & _ & Htb).
  exact Htb.
Qed.

(** X8 (witness): after the reload with the one-page file the toolbar
    still shows [Page 3 of 3] while the page count is 1. *)
Lemma toolbar_shows_page_index_witness :
  let w := @steps demo_platform new_widget shrinking_reload in
  toolbar_consistent w /\ toolbar w = Some (3, 3)%Z /\ _totalPages w = 1%Z.
Proof.
  split.
  - apply (@toolbar_shows_page_index demo_platform).
    exists (file_text 3), [ClickNext; ClickNext; Load (file_text 1)].
    reflexivity.
  - split; vm_compute; reflexivity.
Defined.

(** X9: A reload keeps the page index in range when the new document has
    more pages than the index: the index is kept as it is and the count is
    either kept (the text was blank or not XML) or set to the number of
    pages. *)
Theorem reload_keeps_page_in_range `{Platform} w content :
  page_in_range w ->
  (_currentPage w < page_count (pages_of content))%Z ->
  page_in_range (step w (Load content)).
Proof.
  unfold page_in_range. intros Hin Hlt. cbn [step].
  destruct (loadDiagram_pages content w) as (-> & [-> | ->]); lia.
Qed.

(** X9 (witness): on the second page of the three-page file, a reload with
    the same file. *)
Lemma reload_keeps_page_in_range_witness :
  let w := @steps demo_platform new_widget [Load (file_text 3); ClickNext] in
  page_in_range w /\
  page_in_range (@step demo_platform w (Load (file_text 3))).
Proof.
  cbv zeta.
  assert (Hw : page_in_range
                 (@steps demo_platform new_widget [Load (file_text 3); ClickNext])).
  { unfold page_in_range.
    replace (_currentPage (@steps demo_platform new_widget
                             [Load (file_text 3); ClickNext]))
      with 1%Z by (vm_compute; reflexivity).
    replace (_totalPages (@steps demo_platform new_widget
                            [Load (file_text 3); ClickNext]))
      with 3%Z by (vm_compute; reflexivity).
    lia. }
  split; [exact Hw|].
  apply (@reload_keeps_page_in_range demo_platform _ (file_text 3) Hw).
  replace (_currentPage (@steps demo_platform new_widget
                           [Load (file_text 3); ClickNext]))
    with 1%Z by (vm_compute; reflexivity).
  replace (page_count (@pages_of demo_platform (file_text 3)))
    with 3%Z by (vm_compute; reflexivity).
  lia.
Defined.

Lemma extract_model_fst `{Platform} c w1 w2 :
  fst (extract_model c w1) = fst (extract_model c w2).
Proof.
  unfold extract_model. destruct (includes mxGraphModel_tag c); [|reflexivity].
  monad_step. destruct (querySelector _ (parseFromString c)); reflexivity.
Qed.

(** Whether a page can be drawn depends on the stored document alone. *)
Lemma renderPage_fst `{Platform} i w1 w2 :
  _diagramXml w1 = _diagramXml w2 ->
  fst (_renderPage i w1) = fst (_renderPage i w2).
Proof.
  intros Hd. destruct (_diagramXml w2) as [xml|] eqn:Hxml.
  2:{ rewrite !renderPage_no_document by auto. reflexivity. }
  destruct (truthy_str xml) eqn:Ht.
  2:{ apply truthy_str_false in Ht. subst xml.
      rewrite !renderPage_no_document by auto. reflexivity. }
  destruct (item (pages_of xml) i) as [diagram|] eqn:Hitem.
  - rewrite (renderPage_page w1 xml i diagram Hd Ht Hitem).
    rewrite (renderPage_page w2 xml i diagram Hxml Ht Hitem). cbn zeta.
    destruct (querySelector (ByTag (lit "mxGraphModel")) diagram);
      [reflexivity|].
    destruct (needs_codec diagram);
      [destruct (_decompressDiagram (payload_of diagram))|];
      apply extract_model_fst.
  - rewrite (renderPage_no_page w1 xml i Hd Ht Hitem).
    rewrite (renderPage_no_page w2 xml i Hxml Ht Hitem).
    destruct (pages_of xml); [|reflexivity].
    destruct (querySelector _ (parseFromString xml)); reflexivity.
Qed.

(** X10: A click on a page that cannot be drawn fails silently.  When the
    next page exists for the page count but [_renderPage] throws on it, the
    click still moves the page index and the number in the toolbar, the
    container keeps the picture of the page shown before, the error panel
    is not touched and the promise is as before. *)
Theorem click_on_failing_page `{Platform} w e :
  is_Some (toolbar w) ->
  (_currentPage w < _totalPages w - 1)%Z ->
  fst (_renderPage (_currentPage w + 1) w) = Throw e ->
  let w' := step w ClickNext in
  _currentPage w' = (_currentPage w + 1)%Z /\
  toolbar w' = (fun t => (_currentPage w + 2, snd t)%Z) <$> toolbar w /\
  container w' = container w /\
  error_shown w' = error_shown w /\
  _ready w' = _ready w /\
  _totalPages w' = _totalPages w.
Proof.
  intros [[shownPage total] Htb] Hlt Hthrow. cbv zeta.
  destruct (click_run w ClickNext) as [Hstay | (sp & t & j & Htb' & Hj & Hrun)];
    [right; reflexivity | |].
  - exfalso. cbn [step] in Hstay. rewrite Htb, nextPage_click_run in Hstay.
    apply Z.ltb_lt in Hlt. rewrite Hlt in Hstay.
    destruct (updatePageDisplay_pages
                (set_currentPage (_currentPage w + 1)%Z w)) as (Hc & _).
    rewrite Hstay in Hc. cbn in Hc. lia.
  - destruct Hj as [(Hn & _) | (_ & _ & ->)]; [discriminate|].
    rewrite Htb in Htb'. injection Htb' as <- <-.
    rewrite Hrun, Htb.
    set (w0 := set_toolbar (Some (_currentPage w + 1 + 1, total)%Z)
                 (set_currentPage (_currentPage w + 1)%Z w)).
    destruct (renderPage_same_but_container (_currentPage w + 1) w0)
      as (-> & -> & _ & -> & -> & ->).
    pose proof (renderPage_container (_currentPage w + 1) w0) as Hc.
    rewrite (renderPage_fst (_currentPage w + 1) w0 w), Hthrow in Hc
      by reflexivity.
    rewrite Hc. cbn. repeat split; try reflexivity.
    do 2 f_equal. lia.
Qed.

(** X10 (witness): the second page of the file holds [!!!]: after the
    click the index is 1, the toolbar shows page 2, the container still
    shows the picture of the first page and no error is shown. *)
Lemma click_on_failing_page_witness :
  let w := @step demo_platform new_widget (Load broken_second_page) in
  let w' := @step demo_platform w ClickNext in
  _currentPage w' = 1%Z /\ toolbar w' = Some (2, 2)%Z /\
  container w' = container w /\ error_shown w' = None.
Proof.
  cbv zeta.
  destruct (@click_on_failing_page demo_platform
              (@step demo_platform new_widget (Load broken_second_page))
              CouldNotParseDiagramContent)
    as (Hc & Htb & Hcont & He & _).
  - vm_compute. eauto.
  - vm_compute. reflexivity.
  - vm_compute. reflexivity.
  - rewrite Hc, Htb, Hcont, He. repeat split; vm_compute; reflexivity.
Defined.


(** ** The style micro-parser, continued *)

Lemma split_on_app sep s t :
  split_on sep (s ++ sep :: t) = split_on sep s ++ split_on sep t.
Proof.
  induction s as [|c s IH]; cbn [app split_on].
  - rewrite unit_eqb_refl. reflexivity.
  - destruct (unit_eqb c sep); rewrite IH; [reflexivity|].
    destruct (split_on sep s) as [|seg segs] eqn:E; [|reflexivity].
    exfalso. exact (split_on_nonempty _ _ E).
Qed.

Lemma occurs_in_Forall (P : N -> Prop) p s :
  occurs_in p s -> Forall P s -> Forall P p.
Proof.
  intros (a & b & ->) Hs.
  apply Forall_app in Hs as [_ Hs]. apply Forall_app in Hs as [Hs _]. exact Hs.
Qed.

Lemma split_on_no_sep sep s seg :
  In seg (split_on sep s) -> Forall (fun c => c <> sep) seg.
Proof.
  revert seg. induction s as [|c s IH]; intros seg; cbn [split_on].
  - intros [<- | []]. constructor.
  - destruct (unit_eqb c sep) eqn:E.
    + intros [<- | Hin]; [constructor | apply IH, Hin].
    + apply N.eqb_neq in E.
      destruct (split_on sep s) as [|seg0 segs]; cbn [In].
      * intros [<- | []]. repeat constructor. exact E.
      * intros [<- | Hin].
        -- constructor; [exact E | apply IH; left; reflexivity].
        -- apply IH. right. exact Hin.
Qed.

Lemma trim_start_fixed s :
  match s with [] => True | c :: _ => is_js_space c = false end ->
  trim_start s = s.
Proof. destruct s as [|c s]; cbn [trim_start]; [reflexivity | intros ->; reflexivity]. Qed.

Lemma trim_start_head s :
  match trim_start s with [] => True | c :: _ => is_js_space c = false end.
Proof.
  induction s as [|c s IH]; cbn [trim_start]; [exact I|].
  destruct (is_js_space c) eqn:E; [exact IH | exact E].
Qed.

Lemma trim_start_idem s : trim_start (trim_start s) = trim_start s.
Proof. apply trim_start_fixed, trim_start_head. Qed.

Lemma trim_start_app_keep s c :
  is_js_space c = false -> exists u, trim_start (s ++ [c]) = u ++ [c].
Proof.
  intros Hc. induction s as [|d s IH]; cbn [app trim_start].
  - rewrite Hc. exists []. reflexivity.
  - destruct (is_js_space d); [exact IH|]. exists (d :: s). reflexivity.
Qed.

Lemma trim_end_head t :
  match t with [] => True | c :: _ => is_js_space c = false end ->
  match trim_end t with [] => True | c :: _ => is_js_space c = false end.
Proof.
  unfold trim_end. destruct t as [|c t]; [intros _; exact I|].
  intros Hc. cbn [rev]. destruct (trim_start_app_keep (rev t) c Hc) as [u ->].
  rewrite rev_app_distr. cbn. exact Hc.
Qed.

Lemma trim_end_idem t : trim_end (trim_end t) = trim_end t.
Proof. unfold trim_end. rewrite rev_involutive, trim_start_idem. reflexivity. Qed.

Lemma trim_idem s : trim (trim s) = trim s.
Proof.
  unfold trim at 1.
  rewrite (trim_start_fixed (trim s)).
  - unfold trim. apply trim_end_idem.
  - unfold trim. apply trim_end_head, trim_start_head.
Qed.

Lemma In_style_entries style k v :
  In (k, v) (style_entries style) ->
  exists part key value rest,
    In part (split_on 59 style) /\
    split_on 61 part = key :: value :: rest /\
    key <> [] /\ trim key <> lit "__proto__" /\
    k = trim key /\ v = trim value.
Proof.
  unfold style_entries. intros Hin.
  apply list_elem_of_In, list_elem_of_omap in Hin as (part & Hpart & Hd).
  apply list_elem_of_In in Hpart.
  unfold declared in Hd.
  destruct (split_on 61 part) as [|key [|value rest]] eqn:E; try discriminate.
  destruct (truthy_str key) eqn:Hk; [|discriminate].
  destruct (str_eqb (trim key) (lit "__proto__")) eqn:Hp; [discriminate|].
  cbn in Hd. injection Hd as <- <-.
  exists part, key, value, rest. repeat split; auto.
  - apply truthy_str_not_empty. exact Hk.
  - apply str_eqb_neq. exact Hp.
Qed.

(** X11: What [_parseStyle] stores.  Every key and every value of the
    result is trimmed, holds neither [;] nor [=] and is a piece of the
    style string, and [__proto__] is never a key. *)
Theorem parseStyle_stored_pairs style k v :
  _parseStyle style !! k = Some v ->
  trim k = k /\ trim v = v /\ k <> lit "__proto__" /\
  Forall (fun c => c <> 59 /\ c <> 61) k /\
  Forall (fun c => c <> 59 /\ c <> 61) v /\
  occurs_in k style /\ occurs_in v style.
Proof.
  rewrite parseStyle_entries. intros Hk.
  apply elem_of_list_to_map_2 in Hk.
  apply list_elem_of_In, in_rev in Hk.
  apply In_style_entries in Hk
    as (part & key & value & rest & Hpart & Hsplit & Hne & Hproto & -> & ->).
  assert (Hkey : In key (split_on 61 part)) by (rewrite Hsplit; left; reflexivity).
  assert (Hval : In value (split_on 61 part))
    by (rewrite Hsplit; right; left; reflexivity).
  assert (Hseg : forall piece,
            In piece (split_on 61 part) ->
            Forall (fun c => c <> 59 /\ c <> 61) (trim piece) /\
            occurs_in (trim piece) style).
  { intros piece Hin.
    assert (Ho : occurs_in (trim piece) piece) by apply trim_occurs.
    assert (Hop : occurs_in piece part) by (eapply split_on_occurs; eauto).
    assert (Hos : occurs_in part style) by (eapply split_on_occurs; eauto).
    split.
    - apply Forall_forall. intros c Hc.
      pose proof (split_on_no_sep 61 part piece Hin) as H61.
      pose proof (split_on_no_sep 59 style part Hpart) as H59.
      pose proof (occurs_in_Forall _ _ _ Hop H59) as H59'.
      pose proof (occurs_in_Forall _ _ _ Ho H59') as H59''.
      pose proof (occurs_in_Forall _ _ _ Ho H61) as H61'.
      rewrite Forall_forall in H59'', H61'. auto.
    - eauto using occurs_in_trans. }
  destruct (Hseg key Hkey) as [Hk1 Hk2]. destruct (Hseg value Hval) as [Hv1 Hv2].
  rewrite !trim_idem. repeat split; auto.
Qed.

(** X11 (witness): the style [ a = b ;c=d] stores [a] with the value [b]. *)
Lemma parseStyle_stored_pairs_witness :
  trim (lit "a") = lit "a" /\ trim (lit "b") = lit "b" /\
  occurs_in (lit "b") (lit " a = b ;c=d").
Proof.
  destruct (parseStyle_stored_pairs (lit " a = b ;c=d") (lit "a") (lit "b"))
    as (Hk & Hv & _ & _ & _ & _ & Ho); [vm_compute; reflexivity|].
  repeat split; assumption.
Defined.

(** X12: A declaration appended to a style string overrides.  For a key
    that is not empty and not [__proto__], and a key and a value without
    [;] and [=], the style followed by [;key=value] parses to the map of
    the style with the trimmed key set to the trimmed value: that key gets
    the new value, every other key keeps its own. *)
Theorem parseStyle_append_declaration style key value :
  key <> [] -> trim key <> lit "__proto__" ->
  Forall (fun c => c <> 59 /\ c <> 61) key ->
  Forall (fun c => c <> 59 /\ c <> 61) value ->
  _parseStyle (style ++ [59] ++ key ++ [61] ++ value)
  = <[trim key := trim value]> (_parseStyle style).
Proof.
  intros Hne Hproto Hkey Hvalue.
  assert (Hpart : parse_part (_parseStyle style) (key ++ [61] ++ value)
                  = <[trim key := trim value]> (_parseStyle style)).
  { rewrite parse_part_declared. unfold declared. cbn [app].
    rewrite split_on_app.
    rewrite (split_on_absent 61 key), (split_on_absent 61 value).
    - cbn [app]. apply truthy_str_not_empty in Hne. rewrite Hne.
      apply str_eqb_neq in Hproto. rewrite Hproto. reflexivity.
    - eapply Forall_impl; [exact Hvalue|]. cbn. tauto.
    - eapply Forall_impl; [exact Hkey|]. cbn. tauto. }
  rewrite <- Hpart.
  unfold _parseStyle at 1.
  replace (truthy_str (style ++ [59] ++ key ++ [61] ++ value)) with true
    by (destruct style; reflexivity).
  cbn [app]. rewrite split_on_app, fold_left_app.
  rewrite (split_on_absent 59 (key ++ 61 :: value)).
  2:{ apply Forall_app. split.
      - eapply Forall_impl; [exact Hkey|]. cbn. tauto.
      - constructor; [discriminate|].
        eapply Forall_impl; [exact Hvalue|]. cbn. tauto. }
  cbn [fold_left]. f_equal.
  unfold _parseStyle. destruct style as [|c s]; reflexivity.
Qed.

(** X12 (witness): [a=1;b=3] followed by [; a = 2 ]. *)
Lemma parseStyle_append_declaration_witness :
  _parseStyle (lit "a=1;b=3" ++ [59] ++ lit " a " ++ [61] ++ lit " 2 ")
  = <[lit "a" := lit "2"]> (_parseStyle (lit "a=1;b=3")).
Proof.
  apply (parseStyle_append_declaration (lit "a=1;b=3") (lit " a ") (lit " 2 ")).
  - discriminate.
  - vm_compute. discriminate.
  - repeat constructor; discriminate.
  - repeat constructor; discriminate.
Defined.

(** X13: A style string without [=] declares nothing: tokens such as
    [ellipse] or [rounded] alone are no keys of the parsed style. *)
Theorem parseStyle_without_equals style :
  Forall (fun c => c <> 61) style -> _parseStyle style = ∅.
Proof.
  intros Hs. rewrite parseStyle_entries.
  assert (Hnone : style_entries style = []).
  { unfold style_entries.
    assert (Hall : Forall (fun part => declared part = None)
                     (split_on 59 style)).
    { apply Forall_forall. intros part Hin. apply list_elem_of_In in Hin.
      unfold declared. rewrite (split_on_absent 61 part); [reflexivity|].
      eapply occurs_in_Forall; [|exact Hs]. eapply split_on_occurs; eauto. }
    induction Hall as [|part parts Hp _ IH]; [reflexivity|].
    cbn. rewrite Hp. exact IH. }
  rewrite Hnone. reflexivity.
Qed.

(** X13 (witness): the style [ellipse;rounded]. *)
Lemma parseStyle_without_equals_witness :
  _parseStyle (lit "ellipse;rounded") = ∅.
Proof.
  apply parseStyle_without_equals. repeat constructor; discriminate.
Defined.


(** ** Edges, continued *)

Lemma edge_ends_own_points geometry source target sp tp :
  opt_querySelector (ByTagAttr (lit "mxPoint") (lit "as") (lit "sourcePoint"))
    geometry = Some sp ->
  opt_querySelector (ByTagAttr (lit "mxPoint") (lit "as") (lit "targetPoint"))
    geometry = Some tp ->
  edge_ends geometry source target =
  Some ((float_attr "x" "0" sp, float_attr "y" "0" sp),
        (float_attr "x" "0" tp, float_attr "y" "0" tp)).
Proof. unfold edge_ends. intros -> ->. reflexivity. Qed.

Lemma edge_ends_no_own_points cell source target :
  has_own_points cell = false ->
  edge_ends (querySelector (ByTag (lit "mxGeometry")) cell) source target =
  match source, target with
  | Some s, Some t => Some (connect s t)
  | _, _ => None
  end.
Proof.
  unfold has_own_points, edge_ends.
  destruct (opt_querySelector
              (ByTagAttr (lit "mxPoint") (lit "as") (lit "sourcePoint")) _);
    [|reflexivity].
  destruct (opt_querySelector
              (ByTagAttr (lit "mxPoint") (lit "as") (lit "targetPoint")) _);
    [discriminate | reflexivity].
Qed.

Lemma createEdge_None `{Platform} cell style source target :
  _createEdge cell style source target = None <->
  edge_ends (querySelector (ByTag (lit "mxGeometry")) cell) source target = None.
Proof.
  unfold _createEdge.
  destruct (edge_ends _ source target) as [[[x1 y1] [x2 y2]]|];
    split; (discriminate || reflexivity).
Qed.

(** X14: When an edge is not drawn.  [_createEdge] returns nothing exactly
    when the edge has no source point and target point of its own and its
    source or its target is not in the table of boxes; with both points of
    its own it is drawn whether or not its ends are known. *)
Theorem createEdge_dropped `{Platform} cell style source target :
  _createEdge cell style source target = None <->
  has_own_points cell = false /\ (source = None \/ target = None).
Proof.
  rewrite createEdge_None. destruct (has_own_points cell) eqn:Hown.
  - split; [|intros [Hn _]; discriminate].
    unfold has_own_points in Hown. unfold edge_ends.
    destruct (opt_querySelector
                (ByTagAttr (lit "mxPoint") (lit "as") (lit "sourcePoint")) _);
      [|discriminate].
    destruct (opt_querySelector
                (ByTagAttr (lit "mxPoint") (lit "as") (lit "targetPoint")) _);
      discriminate.
  - rewrite (edge_ends_no_own_points cell source target Hown).
    destruct source, target; split; try discriminate; try tauto;
      intros [_ [Hn | Hn]]; discriminate.
Qed.

(** X15: Points of its own come first.  When the geometry of an edge holds
    a source point and a target point, the path runs from the one to the
    other, their [x] and [y] read with [parseFloat] and 0 for a missing
    attribute, through the way points; the boxes of the source and the
    target play no part. *)
Theorem createEdge_own_points `{Platform} cell style source target sp tp :
  let geometry := querySelector (ByTag (lit "mxGeometry")) cell in
  opt_querySelector (ByTagAttr (lit "mxPoint") (lit "as") (lit "sourcePoint"))
    geometry = Some sp ->
  opt_querySelector (ByTagAttr (lit "mxPoint") (lit "as") (lit "targetPoint"))
    geometry = Some tp ->
  exists g,
    _createEdge cell style source target = Some g /\
    _createEdge cell style None None = Some g /\
    path_of_group g =
      Some {| path_start := (float_attr "x" "0" sp, float_attr "y" "0" sp);
              path_way := waypoints geometry;
              path_end := (float_attr "x" "0" tp, float_attr "y" "0" tp) |}.
Proof.
  cbv zeta. intros Hs Ht. unfold _createEdge.
  rewrite (edge_ends_own_points _ source target sp tp Hs Ht).
  rewrite (edge_ends_own_points _ None None sp tp Hs Ht).
  eexists. split; [reflexivity|]. split; reflexivity.
Qed.

(** The path element of the group [_createEdge] returns. *)
Lemma createEdge_path_element `{Platform} cell style source target g :
  _createEdge cell style source target = Some g ->
  exists d dash,
    let styles := _parseStyle style in
    let endArrow := style_or styles "endArrow" "classic" in
    let startArrow := style_or styles "startArrow" "none" in
    head (svg_children g) =
    Some (SElem "path"
            ([("d"%string, APath d);
              ("stroke"%string, AStr (style_or styles "strokeColor" "#000000"));
              ("stroke-width"%string, AStr (style_or styles "strokeWidth" "1"));
              ("fill"%string, AStr (lit "none"))]
             ++ dash
             ++ (if str_eqb endArrow (lit "none") then []
                 else if str_eqb endArrow (lit "open")
                      then [("marker-end"%string, AStr (lit "url(#arrow-open)"))]
                      else [("marker-end"%string, AStr (lit "url(#arrow)"))])
             ++ (if str_eqb startArrow (lit "none") then []
                 else [("marker-start"%string, AStr (lit "url(#arrow)"))]))
            []) /\
    (dash = [] \/ dash = [("stroke-dasharray"%string, AStr (lit "5,3"))]).
Proof.
  unfold _createEdge.
  destruct (edge_ends _ source target) as [[[x1 y1] [x2 y2]]|]; [|discriminate].
  intros [= <-]. eexists _, _. cbv zeta. split; [reflexivity|].
  destruct (style_is_1 (_parseStyle style) "dashed"); auto.
Qed.

Lemma style_or_eq styles key dflt v :
  v <> lit dflt -> v <> [] ->
  style_or styles key dflt = v <-> styles !! lit key = Some v.
Proof.
  intros Hd Hv. unfold style_or, or_str.
  destruct (styles !! lit key) as [s|].
  - destruct (truthy_str s) eqn:Hs.
    + split; congruence.
    + apply truthy_str_false in Hs. subst s. split; congruence.
  - split; congruence.
Qed.

Lemma style_or_default styles key dflt :
  style_or styles key dflt = lit dflt <->
  styles !! lit key = None \/ styles !! lit key = Some []
  \/ styles !! lit key = Some (lit dflt).
Proof.
  unfold style_or, or_str.
  destruct (styles !! lit key) as [s|]; [|tauto].
  destruct (truthy_str s) eqn:Hs.
  - split; [intros ->; auto|].
    intros [Hn | [Hn | Hn]]; try discriminate; [|congruence].
    injection Hn as ->. discriminate.
  - apply truthy_str_false in Hs. subst s. tauto.
Qed.

(** X16: The arrow heads of an edge.  The path of a drawn edge is never
    filled.  It has no marker at its end exactly when the style declares
    [endArrow=none]; with [endArrow=open] the marker is the open arrow, and
    otherwise (no [endArrow], an empty one, any other value) the closed
    arrow.  It has a marker at its start, the closed arrow, exactly when the
    style declares a [startArrow] that is neither empty nor [none]. *)
Theorem createEdge_markers `{Platform} cell style source target g :
  _createEdge cell style source target = Some g ->
  let styles := _parseStyle style in
  exists attrs,
    head (svg_children g) = Some (SElem "path" attrs []) /\
    svg_attr "fill" attrs = Some (AStr (lit "none")) /\
    (svg_attr "marker-end" attrs = None <->
     styles !! lit "endArrow" = Some (lit "none")) /\
    (styles !! lit "endArrow" = Some (lit "open") ->
     svg_attr "marker-end" attrs = Some (AStr (lit "url(#arrow-open)"))) /\
    (styles !! lit "endArrow" <> Some (lit "none") ->
     styles !! lit "endArrow" <> Some (lit "open") ->
     svg_attr "marker-end" attrs = Some (AStr (lit "url(#arrow)"))) /\
    (svg_attr "marker-start" attrs = None <->
     styles !! lit "startArrow" = None \/ styles !! lit "startArrow" = Some []
     \/ styles !! lit "startArrow" = Some (lit "none")) /\
    (svg_attr "marker-start" attrs <> None ->
     svg_attr "marker-start" attrs = Some (AStr (lit "url(#arrow)"))).
Proof.
  intros Hg. cbv zeta.
  destruct (createEdge_path_element cell style source target g Hg)
    as (d & dash & Hpath & Hdash).
  cbv zeta in Hpath. eexists. split; [exact Hpath|].
  pose proof (style_or_eq (_parseStyle style) "endArrow" "classic" (lit "none"))
    as Hnone.
  pose proof (style_or_eq (_parseStyle style) "endArrow" "classic" (lit "open"))
    as Hopen.
  pose proof (style_or_default (_parseStyle style) "startArrow" "none") as Hstart.
  destruct (str_eqb (style_or (_parseStyle style) "endArrow" "classic")
              (lit "none")) eqn:En;
    [apply str_eqb_eq in En | apply str_eqb_neq in En];
    (destruct (str_eqb (style_or (_parseStyle style) "endArrow" "classic")
                 (lit "open")) eqn:Eo;
     [apply str_eqb_eq in Eo | apply str_eqb_neq in Eo]);
    (destruct (str_eqb (style_or (_parseStyle style) "startArrow" "none")
                 (lit "none")) eqn:Es;
     [apply str_eqb_eq in Es | apply str_eqb_neq in Es]);
    destruct Hdash as [-> | ->]; cbn;
    (split; [reflexivity|]);
    assert (Hn1 : lit "none" <> lit "classic") by discriminate;
    assert (Hn2 : lit "none" <> []) by discriminate;
    assert (Ho1 : lit "open" <> lit "classic") by discriminate;
    assert (Ho2 : lit "open" <> []) by discriminate;
    specialize (Hnone Hn1 Hn2); specialize (Hopen Ho1 Ho2);
    repeat split; intros; try discriminate; try reflexivity; try tauto;
    try congruence;
    try (exfalso; apply Es; tauto);
    try (apply Hnone; assumption);
    try (apply Hstart; assumption).
  all: try (exfalso; rewrite En in Eo; discriminate).
  all: try (exfalso; match goal with Hx : _ !! _ = Some _ |- _ =>
              apply Hopen in Hx; congruence end).
  all: try (exfalso; match goal with Hx : _ !! _ <> Some (lit "open") |- _ =>
              apply Hx, Hopen; assumption end).
  all: try (exfalso; match goal with Hx : _ !! _ = Some _ |- _ =>
              apply Hnone in Hx; congruence end).
Qed.

(** X15 (witness): an edge from (10, 20) to (30, 40) by its own points,
    with unknown ends. *)
Lemma createEdge_own_points_witness :
  exists g,
    @_createEdge demo_platform pointed_edge [] None None = Some g /\
    path_of_group g =
      Some {| path_start := (num 10, num 20); path_way := [];
              path_end := (num 30, num 40) |}.
Proof.
  destruct (@createEdge_own_points demo_platform pointed_edge [] None None
              (Elem (lit "mxPoint")
                 [(lit "x", lit "10"); (lit "y", lit "20");
                  (lit "as", lit "sourcePoint")] [])
              (Elem (lit "mxPoint")
                 [(lit "x", lit "30"); (lit "y", lit "40");
                  (lit "as", lit "targetPoint")] []))
    as (g & Hg & _ & Hpath); [reflexivity | reflexivity |].
  exists g. split; [exact Hg|]. rewrite Hpath. reflexivity.
Defined.

(** X16 (witness): an edge between the two boxes with the style
    [endArrow=none;startArrow=classic]: no marker at the end, one at the
    start. *)
Lemma createEdge_markers_witness :
  exists g attrs,
    @_createEdge demo_platform (edge_cell "e" "a" "b")
      (lit "endArrow=none;startArrow=classic")
      (first_pass two_boxes !! lit "a") (first_pass two_boxes !! lit "b")
    = Some g /\
    head (svg_children g) = Some (SElem "path" attrs []) /\
    svg_attr "marker-end" attrs = None /\
    svg_attr "marker-start" attrs = Some (AStr (lit "url(#arrow)")).
Proof.
  destruct (@_createEdge demo_platform (edge_cell "e" "a" "b")
              (lit "endArrow=none;startArrow=classic")
              (first_pass two_boxes !! lit "a") (first_pass two_boxes !! lit "b"))
    as [g|] eqn:Hg; [|vm_compute in Hg; discriminate].
  destruct (@createEdge_markers demo_platform _ _ _ _ g Hg)
    as (attrs & Hhead & _ & Hend & _ & _ & Hstart & Hstart').
  exists g, attrs. split; [reflexivity|]. split; [exact Hhead|].
  split.
  - apply Hend. vm_compute. reflexivity.
  - apply Hstart'. intros Hn. apply Hstart in Hn.
    destruct Hn as [Hn | [Hn | Hn]]; vm_compute in Hn; discriminate.
Defined.


Lemma fold_collect_vertex (cells : list node) (m : gmap jsstring box) :
  fold_left collect_vertex cells m =
  list_to_map (rev (vertex_entries cells)) ∪ m.
Proof.
  revert m. induction cells as [|c cells IH]; intros m; cbn [fold_left].
  - cbn. rewrite (left_id_L ∅ (∪)). reflexivity.
  - rewrite IH, collect_vertex_spec. unfold vertex_entries.
    cbn [omap list_omap]. destruct (cell_box c) as [b|]; [|reflexivity].
    cbn [fmap option_fmap option_map rev].
    rewrite list_to_map_app. cbn [list_to_map foldr fst snd curry].
    rewrite <- (assoc_L (∪)). f_equal.
    rewrite insert_union_singleton_l, insert_empty. reflexivity.
Qed.

Lemma first_pass_entries (cells : list node) :
  first_pass cells = list_to_map (rev (vertex_entries cells)).
Proof.
  unfold first_pass. rewrite fold_collect_vertex.
  rewrite (right_id_L ∅ (∪)). reflexivity.
Qed.

Lemma vertex_entries_ids (cells : list node) :
  (vertex_entries cells).*1 = vertex_ids cells.
Proof.
  unfold vertex_entries, vertex_ids.
  induction cells as [|c cells IH]; [reflexivity|].
  cbn [omap list_omap]. destruct (cell_box c); cbn; [f_equal|]; exact IH.
Qed.

(** X17: The table of boxes does not depend on the order of the cells.
    When no two vertices share an id, any rearrangement of the cells gives
    the same table: an edge finds its ends whether it stands before or
    after them in the document. *)
Theorem first_pass_order_independent (cells cells' : list node) :
  cells ≡ₚ cells' -> NoDup (vertex_ids cells) ->
  first_pass cells = first_pass cells'.
Proof.
  intros Hperm Hids. rewrite !first_pass_entries.
  apply list_to_map_proper.
  - rewrite <- (Permutation_rev (vertex_entries cells)).
    rewrite vertex_entries_ids. exact Hids.
  - rewrite <- !Permutation_rev. unfold vertex_entries.
    rewrite Hperm. reflexivity.
Qed.

(** X17 (witness): the two boxes and their edge, and the same cells with
    the edge first. *)
Lemma first_pass_order_independent_witness :
  first_pass two_boxes = first_pass (rev two_boxes).
Proof.
  apply first_pass_order_independent.
  - apply Permutation_rev.
  - apply (bool_decide_unpack _). vm_compute. reflexivity.
Defined.







(** X19: The view box depends on the boxes of the vertices alone.  Two
    models with a [root] element and the same vertex boxes have the same
    view box: edges, their points of their own, their way points and the
    labels never widen it. *)
Theorem viewBox_ignores_edges `{Platform} model model' root root' :
  querySelector (ByTag (lit "root")) model = Some root ->
  querySelector (ByTag (lit "root")) model' = Some root' ->
  vertex_boxes (querySelectorAll (ByTag (lit "mxCell")) root)
  = vertex_boxes (querySelectorAll (ByTag (lit "mxCell")) root') ->
  published_viewBox model = published_viewBox model'.
Proof.
  intros Hroot Hroot' Hboxes.
  rewrite (published_viewBox_root model root Hroot).
  rewrite (published_viewBox_root model' root' Hroot').
  f_equal. unfold viewBox.
  match goal with
  | |- context [second_pass ?v ?c] =>
      destruct (second_pass_bounds v c) as (-> & -> & -> & ->)
  end.
  match goal with
  | |- context [second_pass ?v ?c] =>
      destruct (second_pass_bounds v c) as (-> & -> & -> & ->)
  end.
  rewrite Hboxes. reflexivity.
Qed.

(** X19 (witness): the two boxes with and without an edge whose points lie
    far away. *)
Lemma viewBox_ignores_edges_witness :
  @published_viewBox demo_platform (model_of (two_boxes ++ [far_edge]))
  = @published_viewBox demo_platform (model_of two_boxes).
Proof.
  apply (@viewBox_ignores_edges demo_platform _ _
           (Elem (lit "root") [] (two_boxes ++ [far_edge]))
           (Elem (lit "root") [] two_boxes)); reflexivity.
Defined.


(** ** The codec, continued *)

Lemma std_char_idem c : std_char (std_char c) = std_char c.
Proof.
  unfold std_char.
  destruct (unit_eqb c 45) eqn:E1; [reflexivity|].
  destruct (unit_eqb c 95) eqn:E2; [reflexivity|].
  rewrite E1, E2. reflexivity.
Qed.

Lemma url_to_std_idem s : url_to_std (url_to_std s) = url_to_std s.
Proof.
  rewrite !url_to_std_map, map_map. apply map_ext. intros c. apply std_char_idem.
Qed.

(** X20: Both alphabets are read.  The codec gives the same result for a
    text and for the text with every [-] written [+] and every [_] written
    [/]: a page in standard base64 is decoded like the same page in the
    URL-safe alphabet, and so is a text that mixes the two. *)
Theorem decompress_either_alphabet `{Platform} s :
  _decompressDiagram (url_to_std s) = _decompressDiagram s /\
  forall s', url_to_std s' = url_to_std s ->
    _decompressDiagram s' = _decompressDiagram s.
Proof.
  split.
  - unfold _decompressDiagram. rewrite url_to_std_idem. reflexivity.
  - intros s' Hs. unfold _decompressDiagram. rewrite Hs. reflexivity.
Qed.

Lemma std_char_whitespace c :
  is_ascii_whitespace (std_char c) = is_ascii_whitespace c.
Proof.
  unfold std_char.
  destruct (unit_eqb c 45) eqn:E1; [apply unit_eqb_eq in E1; subst; reflexivity|].
  destruct (unit_eqb c 95) eqn:E2; [apply unit_eqb_eq in E2; subst; reflexivity|].
  reflexivity.
Qed.

Lemma url_to_std_without_whitespace s :
  url_to_std (without_whitespace s) = without_whitespace (url_to_std s).
Proof.
  rewrite !url_to_std_map. unfold without_whitespace.
  induction s as [|c s IH]; [reflexivity|].
  cbn [map]. rewrite !filter_cons, std_char_whitespace.
  destruct (decide (is_ascii_whitespace c = false)); cbn [map]; rewrite IH;
    reflexivity.
Qed.

Lemma without_whitespace_idem s :
  without_whitespace (without_whitespace s) = without_whitespace s.
Proof.
  unfold without_whitespace. induction s as [|c s IH]; [reflexivity|].
  rewrite filter_cons.
  destruct (decide (is_ascii_whitespace c = false)) as [Hc|Hc]; [|exact IH].
  rewrite filter_cons. destruct (decide (is_ascii_whitespace c = false));
    [rewrite IH; reflexivity | contradiction].
Qed.

(** X21: White space in a page is ignored.  The codec gives the same
    result for a text and for the text without its tabs, line feeds, form
    feeds, carriage returns and spaces: a payload that is indented or
    wrapped is decoded like the bare payload. *)
Theorem decompress_ignores_whitespace `{Platform} s :
  _decompressDiagram (without_whitespace s) = _decompressDiagram s.
Proof.
  unfold _decompressDiagram. rewrite url_to_std_without_whitespace.
  unfold atob. fold (without_whitespace (without_whitespace (url_to_std s))).
  fold (without_whitespace (url_to_std s)).
  rewrite without_whitespace_idem. reflexivity.
Qed.

Lemma prepend_Throw u r e : prepend u r = Throw e -> r = Throw e.
Proof. unfold prepend. destruct r; cbn; congruence. Qed.

Lemma decoded_point_Throw octets r e :
  decoded_point octets r = Throw e -> e = URIError \/ r = Throw e.
Proof.
  unfold decoded_point. destruct (utf8_value octets).
  - intros Hp. right. exact (prepend_Throw _ _ _ Hp).
  - intros [= <-]. left. reflexivity.
Qed.

(** [decodeURIComponent] throws nothing but [URIError]. *)
Lemma decodeURIComponent_throws_bounded n : forall s e,
  (length s <= n)%nat -> decodeURIComponent s = Throw e -> e = URIError.
Proof.
  induction n as [|n IH]; intros s e Hlen Hd.
  - destruct s; [discriminate | cbn in Hlen; lia].
  - destruct s as [|c t]; [discriminate|]. cbn [decodeURIComponent] in Hd.
    cbn [length] in Hlen.
    repeat match type of Hd with
           | context [match ?x with _ => _ end] => destruct x
           end;
      cbn [length] in Hlen;
      first
        [ injection Hd as <-; reflexivity
        | apply prepend_Throw in Hd; apply IH in Hd; [exact Hd | lia]
        | apply decoded_point_Throw in Hd as [Hd | Hd];
          [exact Hd | apply IH in Hd; [exact Hd | lia]] ].
Qed.

Lemma decodeURIComponent_throws s e :
  decodeURIComponent s = Throw e -> e = URIError.
Proof. apply (decodeURIComponent_throws_bounded (length s)). lia. Qed.

Lemma atob_throws s e : atob s = Throw e -> e = InvalidCharacterError.
Proof.
  unfold atob.
  destruct (_ =? 1); [congruence|]. destruct (sextets _); congruence.
Qed.

(** X22: The stages of the codec.  When [atob] rejects the text the codec
    throws [InvalidCharacterError]; when the stream fails it throws what
    the stream threw; otherwise its result is that of [decodeURIComponent]
    on the decoded text of the chunks joined in the order of their
    delivery, however the stream cuts its output into chunks: copying the
    chunks into the result array never throws.  The codec throws nothing
    but [InvalidCharacterError], the error of the stream and [URIError]. *)
Theorem decompress_stages `{Platform} s :
  (forall e, atob (url_to_std s) = Throw e ->
     _decompressDiagram s = Throw InvalidCharacterError) /\
  (forall decoded,
     atob (url_to_std s) = Ok decoded ->
     (stream_chunks (inflate_raw (char_codes decoded)) = None ->
      _decompressDiagram s = Throw StreamError) /\
     (forall chunks,
        stream_chunks (inflate_raw (char_codes decoded)) = Some chunks ->
        _decompressDiagram s =
        decodeURIComponent (TextDecoder_decode (concat chunks)))) /\
  (forall e, _decompressDiagram s = Throw e ->
     e = InvalidCharacterError \/ e = StreamError \/ e = URIError).
Proof.
  unfold _decompressDiagram.
  destruct (atob (url_to_std s)) as [decoded|e0] eqn:Ha; cbn [bind_result].
  - split; [discriminate|]. split.
    + intros d [= <-]. split.
      * intros Hs. rewrite (read_chunks_failed _ [] Hs). reflexivity.
      * intros chunks Hs. rewrite (read_chunks_stream _ chunks [] Hs).
        cbn [app bind_result]. rewrite join_chunks_concat. reflexivity.
    + intros e.
      destruct (stream_chunks (inflate_raw (char_codes decoded)))
        as [chunks|] eqn:Hs.
      * rewrite (read_chunks_stream _ chunks [] Hs).
        cbn [app bind_result]. rewrite join_chunks_concat. cbn [bind_result].
        intros He. apply decodeURIComponent_throws in He. auto.
      * rewrite (read_chunks_failed _ [] Hs). cbn [bind_result].
        intros [= <-]. auto.
  - apply atob_throws in Ha. subst e0.
    split; [reflexivity|]. split; [discriminate|].
    intros e [= <-]. auto.
Qed.

Lemma strip_padding_keeps s c :
  In c s -> c <> 61 -> In c (strip_padding s).
Proof.
  intros Hin Hc. unfold strip_padding.
  destruct (_ =? 0); [|exact Hin].
  destruct (rev s) as [|a r] eqn:Hrev; [exact Hin|].
  assert (Hs : s = rev r ++ [a])
    by (rewrite <- (rev_involutive s), Hrev; reflexivity).
  destruct (unit_eqb a 61) eqn:Ea; [|exact Hin].
  apply unit_eqb_eq in Ea. subst a s.
  apply in_app_or in Hin as [Hin | [Heq | []]]; [|congruence].
  destruct r as [|b r']; [exact Hin|].
  destruct (unit_eqb b 61) eqn:Eb; [|exact Hin].
  apply unit_eqb_eq in Eb. subst b. cbn [rev] in Hin.
  apply in_app_or in Hin as [Hin | [Heq | []]]; [exact Hin | congruence].
Qed.

Lemma sextets_None s c : In c s -> b64_value c = None -> sextets s = None.
Proof.
  induction s as [|d s IH]; [intros []|].
  intros [-> | Hin] Hc; cbn [sextets].
  - rewrite Hc. reflexivity.
  - rewrite (IH Hin Hc). destruct (b64_value d); reflexivity.
Qed.

Lemma not_base64_char c :
  is_base64_char c = false -> b64_value (std_char c) = None /\ std_char c = c.
Proof.
  unfold is_base64_char. cbn [existsb]. rewrite !orb_false_iff.
  intros (((Hu & Hl) & Hd) & H43 & H47 & H45 & H95 & _).
  unfold std_char. rewrite H45, H95. split; [|reflexivity].
  unfold b64_value. rewrite Hu, Hl, Hd, H43, H47. reflexivity.
Qed.

(** X23: A character outside the alphabets.  When the text holds a
    character that is no letter, no digit, none of [+ / - _ =] and no
    ASCII white space, the codec throws [InvalidCharacterError], wherever
    the character stands and whatever the stream would do. *)
Theorem decompress_invalid_character `{Platform} s c :
  In c s ->
  is_base64_char c = false -> is_ascii_whitespace c = false -> c <> 61 ->
  _decompressDiagram s = Throw InvalidCharacterError.
Proof.
  intros Hin Hb Hw H61.
  destruct (not_base64_char c Hb) as [Hv Hstd].
  assert (Ha : atob (url_to_std s) = Throw InvalidCharacterError).
  { unfold atob. destruct (_ =? 1); [reflexivity|].
    rewrite (sextets_None _ c); [reflexivity | | rewrite <- Hstd; exact Hv].
    apply strip_padding_keeps; [|exact H61].
    apply list_elem_of_In, list_elem_of_filter. split; [exact Hw|].
    apply list_elem_of_In. rewrite url_to_std_map, <- Hstd.
    apply in_map. exact Hin. }
  unfold _decompressDiagram. rewrite Ha. reflexivity.
Qed.

(** X23 (witness): a text with a dollar sign. *)
Lemma decompress_invalid_character_witness :
  @_decompressDiagram demo_platform (lit "ab$d") = Throw InvalidCharacterError.
Proof.
  apply (@decompress_invalid_character demo_platform (lit "ab$d") 36).
  - right. right. left. reflexivity.
  - reflexivity.
  - reflexivity.
  - discriminate.
Defined.

